(** * Data-file pattern resolution ([src/datasets/data_files.py])

    A shallow embedding of the pattern resolution and origin-metadata code of
    the [datasets] library, and the properties its specification states
    about it.

    Layout:
    - [Py]: the fragment of the Python runtime the module relies on
      (exceptions, insertion-ordered dicts, [str] methods, [sorted]);
    - [Fnmatch], [PurePath]: the parts of [fnmatch] and [pathlib] that the
      resolvers call;
    - the module itself, function by function, under the names of the source;
    - concrete collaborators used to run the code on example inputs;
    - the properties. *)

From Stdlib Require Import Ascii.
From stdpp Require Import base list strings sorting.

(** ** The Python runtime *)

Module Py.

(** Exceptions that the code raises or lets through, with their message. *)
Inductive exn : Type :=
  | FileNotFoundError (msg : string)
  | ValueError (msg : string)
  | TypeError (msg : string)
  | KeyError (key : string)
  | UnboundLocalError (name : string)
  | OSError (msg : string).

(** The outcome of a call: a value, or a raised exception. *)
Inductive result (A : Type) : Type :=
  | Ok (a : A)
  | Raise (e : exn).
Global Arguments Ok {A} a.
Global Arguments Raise {A} e.

Global Instance exn_eq_dec : EqDecision exn.
Proof. solve_decision. Defined.
Global Instance result_eq_dec `{EqDecision A} : EqDecision (result A).
Proof. solve_decision. Defined.

Global Instance result_ret : MRet result := λ A a, Ok a.
Global Instance result_bind : MBind result := λ A B f r,
  match r with
  | Ok a => f a
  | Raise e => Raise e
  end.
Global Instance result_fmap : FMap result := λ A B f r,
  match r with
  | Ok a => Ok (f a)
  | Raise e => Raise e
  end.

Definition is_Ok {A} (r : result A) : bool :=
  match r with Ok _ => true | Raise _ => false end.

(** *** [str] *)

(** [c in s] for a one-character string [c]. *)
Fixpoint contains_char (c : ascii) (s : string) : bool :=
  match s with
  | EmptyString => false
  | String c' s' => if decide (c = c') then true else contains_char c s'
  end.

(** [s.startswith(p)] *)
Definition startswith (p s : string) : bool := String.prefix p s.

(** [s.endswith(".")] *)
Fixpoint endswith_dot (s : string) : bool :=
  match s with
  | EmptyString => false
  | String c EmptyString => bool_decide (c = "."%char)
  | String _ s' => endswith_dot s'
  end.

(** [s.lstrip(c)] *)
Fixpoint lstrip (c : ascii) (s : string) : string :=
  match s with
  | String c' s' => if decide (c = c') then lstrip c s' else s
  | EmptyString => EmptyString
  end.

(** [s.split(sep)] for a one-character separator: the fields between the
    separators, empty fields included; always at least one field. *)
Fixpoint split (sep : ascii) (s : string) : list string :=
  match s with
  | EmptyString => [EmptyString]
  | String c s' =>
      if decide (c = sep) then EmptyString :: split sep s'
      else match split sep s' with
           | field :: fields => String c field :: fields
           | [] => [String c EmptyString]
           end
  end.

(** [sep.join(fields)] *)
Fixpoint join (sep : string) (fields : list string) : string :=
  match fields with
  | [] => ""
  | [f] => f
  | f :: fs => f +:+ sep +:+ join sep fs
  end.

(** [s[1:]] *)
Definition tail (s : string) : string :=
  match s with
  | EmptyString => EmptyString
  | String _ s' => s'
  end.

(** [s.replace(old, new)] for a non-empty [old]: occurrences are replaced
    from the left and do not overlap. [skip] counts the characters of an
    occurrence that was just replaced and that are still to be dropped. *)
Fixpoint replace_from (old new : string) (skip : nat) (s : string) : string :=
  match s with
  | EmptyString => EmptyString
  | String c s' =>
      match skip with
      | S k => replace_from old new k s'
      | O =>
          if String.prefix old s
          then new +:+ replace_from old new (String.length old - 1) s'
          else String c (replace_from old new 0 s')
      end
  end.
Definition replace (old new s : string) : string := replace_from old new 0 s.

(** *** [sorted]

    A stable merge sort that only asks whether one element is less than
    another: of two runs, the element of the right one is taken first only
    if it is less than the element of the left one. *)
Definition not_after {A} (ltb : A → A → bool) : relation A :=
  λ x y, ltb y x = false.
Global Instance not_after_dec {A} (ltb : A → A → bool) :
  RelDecision (not_after ltb).
Proof. intros x y. unfold not_after. apply _. Defined.

Definition sorted {A} (ltb : A → A → bool) : list A → list A :=
  merge_sort (not_after ltb).

(** *** [dict]

    A dict keeps its keys in insertion order and holds each key once.
    Assigning to a key that is present replaces its value in place. *)
Abbreviation dict K V := (list (K * V)).

Section dict.
Context {K V : Type} `{EqDecision K}.

Fixpoint setitem (d : dict K V) (k : K) (v : V) : dict K V :=
  match d with
  | [] => [(k, v)]
  | (k', v') :: d' =>
      if decide (k = k') then (k, v) :: d' else (k', v') :: setitem d' k v
  end.

Fixpoint get (d : dict K V) (k : K) : option V :=
  match d with
  | [] => None
  | (k', v') :: d' => if decide (k = k') then Some v' else get d' k
  end.

Definition keys (d : dict K V) : list K := d.*1.
Definition items (d : dict K V) : list (K * V) := d.

(** The assignments [d[k] = v] for the pairs [(k, v)] of [l], in order. *)
Definition assign_all (d : dict K V) (l : list (K * V)) : dict K V :=
  foldl (λ d kv, setitem d kv.1 kv.2) d l.

(** [dict(pairs)] and dict comprehensions: successive assignments. *)
Definition of_items (l : list (K * V)) : dict K V := assign_all [] l.

(** What every dict value satisfies. *)
Definition wf (d : dict K V) : Prop := NoDup (keys d).
End dict.

(** [d[k]] on a dict with [str] keys. *)
Definition getitem {V} (d : dict string V) (k : string) : result V :=
  match get d k with
  | Some v => Ok v
  | None => Raise (KeyError k)
  end.

End Py.
Export Py.

(** ** [fnmatch.fnmatchcase]

    Shell-style matching of one name against one pattern: [*] matches any
    run of characters, [?] one character, [[seq]] one character of [seq] and
    [[!seq]] one character not in [seq]; a [[] that is never closed stands
    for itself. Character classes are covered as far as they are made of
    single characters and ranges [lo-hi]. *)

Module Fnmatch.

Inductive token : Type :=
  | Star
  | AnyChar
  | Lit (c : ascii)
  | Class (negated : bool) (ranges : list (ascii * ascii)).

(** The characters of a class up to the closing bracket, and what follows
    the bracket. *)
Fixpoint scan_class (l : list ascii) : option (list ascii * list ascii) :=
  match l with
  | [] => None
  | c :: r =>
      if decide (c = "]"%char) then Some ([], r)
      else match scan_class r with
           | Some (body, rest) => Some (c :: body, rest)
           | None => None
           end
  end.

(** As [fnmatch.translate] looks for the end of a class: a leading [!] and
    a [ ] ] right after the opening do not close it. *)
Definition class_body (l : list ascii) : option (list ascii * list ascii) :=
  let '(pre1, l1) :=
    match l with
    | c :: l' => if decide (c = "!"%char) then ([c], l') else ([], l)
    | [] => ([], l)
    end in
  let '(pre2, l2) :=
    match l1 with
    | c :: l' => if decide (c = "]"%char) then ([c], l') else ([], l1)
    | [] => ([], l1)
    end in
  match scan_class l2 with
  | Some (body, rest) => Some (pre1 ++ pre2 ++ body, rest)
  | None => None
  end.

Fixpoint class_ranges (l : list ascii) : list (ascii * ascii) :=
  match l with
  | [] => []
  | lo :: l' =>
      match l' with
      | dash :: hi :: rest =>
          if decide (dash = "-"%char) then (lo, hi) :: class_ranges rest
          else (lo, lo) :: class_ranges l'
      | _ => (lo, lo) :: class_ranges l'
      end
  end.

Definition in_range (c : ascii) (r : ascii * ascii) : bool :=
  (nat_of_ascii r.1 <=? nat_of_ascii c) && (nat_of_ascii c <=? nat_of_ascii r.2).

(** The pattern as a sequence of tokens. [fuel] bounds the number of
    tokens, which the length of the pattern always does. *)
Fixpoint tokens (fuel : nat) (pat : list ascii) : list token :=
  match fuel, pat with
  | O, _ | _, [] => []
  | S fuel', c :: pat' =>
      if decide (c = "*"%char) then Star :: tokens fuel' pat'
      else if decide (c = "?"%char) then AnyChar :: tokens fuel' pat'
      else if decide (c = "["%char) then
        match class_body pat' with
        | None => Lit c :: tokens fuel' pat'
        | Some (stuff, rest) =>
            match stuff with
            | c0 :: stuff' =>
                if decide (c0 = "!"%char)
                then Class true (class_ranges stuff') :: tokens fuel' rest
                else Class false (class_ranges stuff) :: tokens fuel' rest
            | [] => Class false [] :: tokens fuel' rest
            end
        end
      else Lit c :: tokens fuel' pat'
  end.

(** Does the whole of [s] match the tokens? *)
Fixpoint matches (ts : list token) (s : list ascii) : bool :=
  match ts with
  | [] => match s with [] => true | _ => false end
  | Star :: ts' =>
      (fix star (s : list ascii) : bool :=
         matches ts' s ||
         match s with
         | [] => false
         | _ :: s' => star s'
         end) s
  | AnyChar :: ts' =>
      match s with
      | _ :: s' => matches ts' s'
      | [] => false
      end
  | Lit c :: ts' =>
      match s with
      | c' :: s' => bool_decide (c = c') && matches ts' s'
      | [] => false
      end
  | Class negated ranges :: ts' =>
      match s with
      | c' :: s' =>
          xorb negated (existsb (in_range c') ranges) && matches ts' s'
      | [] => false
      end
  end.

Definition fnmatchcase (name pat : string) : bool :=
  matches (tokens (String.length pat) (String.list_ascii_of_string pat))
          (String.list_ascii_of_string name).

End Fnmatch.

(** ** [pathlib.PurePosixPath]

    A path is its tuple of parts; an absolute path starts with its root
    ([/], or [//] when the string starts with exactly two slashes). *)

Module PurePath.

Record t : Type := Build { parts : list string }.

Global Instance eq_dec : EqDecision t.
Proof. solve_decision. Defined.

(** [splitroot]: the root and what follows it. *)
Definition splitroot (part : string) : string * string :=
  if startswith "/" part then
    let stripped := lstrip "/"%char part in
    if decide (String.length part - String.length stripped = 2)
    then ("//", stripped) else ("/", stripped)
  else ("", part).

(** [PurePath(s)]: empty components and [.] are dropped. *)
Definition of_string (s : string) : t :=
  let '(root, rel) := splitroot s in
  let names := filter (λ x, x ≠ "" ∧ x ≠ ".") (split "/"%char rel) in
  Build ((if decide (root = "") then [] else [root]) ++ names).

Definition root (p : t) : string :=
  match parts p with
  | r :: _ => if startswith "/" r then r else ""
  | [] => ""
  end.

(** [p.name]: the last part, unless the path is only its root. *)
Definition name (p : t) : string :=
  if decide (length (parts p) = if decide (root p = "") then 0 else 1)
  then "" else List.last (parts p) "".

(** [p.suffixes] *)
Definition suffixes (p : t) : list string :=
  let name := name p in
  if endswith_dot name then []
  else (λ suffix, "." +:+ suffix) <$> List.tl (split "."%char (lstrip "."%char name)).

(** [str(p)] and [p.as_posix()] *)
Definition as_posix (p : t) : string :=
  match parts p with
  | [] => "."
  | r :: names =>
      if decide (root p = "") then join "/" (parts p) else r +:+ join "/" names
  end.

(** [p.match(path_pattern)]: a relative pattern is matched against the
    last parts of the path, an absolute one against all of it. *)
Definition match_ (p : t) (path_pattern : string) : result bool :=
  let pat := of_string path_pattern in
  let pat_parts := parts pat in
  match pat_parts with
  | [] => Raise (ValueError "empty pattern")
  | _ :: pat_tail =>
      let zipped pats :=
        forallb (λ '(part, pat), Fnmatch.fnmatchcase part pat)
                (zip (reverse (parts p)) (reverse pats)) in
      if decide (root pat ≠ "" ∧ root pat ≠ root p) then Ok false
      else if decide (root pat ≠ "") then
        if decide (length pat_parts ≠ length (parts p)) then Ok false
        else Ok (zipped pat_tail)
      else if decide (length (parts p) < length pat_parts) then Ok false
      else Ok (zipped pat_parts)
  end.

(** [p.relative_to("/")] *)
Definition relative_to_root (p : t) : result t :=
  if decide (root p = "/") then Ok (Build (List.tl (parts p)))
  else Raise (ValueError ("'" +:+ as_posix p +:+ "' does not start with '/'")).

(** [p < q]: the tuples of parts are compared; the first parts that differ
    decide, and a proper prefix comes first. *)
Fixpoint parts_ltb (l1 l2 : list string) : bool :=
  match l1, l2 with
  | _, [] => false
  | [], _ :: _ => true
  | x :: l1', y :: l2' =>
      if decide (x = y) then parts_ltb l1' l2' else String.ltb x y
  end.
Definition ltb (p q : t) : bool := parts_ltb (parts p) (parts q).

End PurePath.

Abbreviation PurePath := PurePath.t.

(** ** Collaborators

    What [data_files.py] imports from the rest of the package and from the
    operating system. The properties below hold whatever these are. The
    enumerations of the file system ([rglob], [glob.glob]) and the tests on
    its files are taken to return; reading the time of last modification and
    fetching an ETag may fail. A call in which the enumeration itself raises
    ([Path.rglob] refuses a pattern such as [**.csv] with a [ValueError]) is
    not covered: what is said of errors is said of [FileNotFoundError], and
    what is said of the files is said of an enumeration that returned. *)

Record DatasetFile : Type := { rfilename : string }.

(** [huggingface_hub.hf_api.DatasetInfo], as far as it is read. *)
Record DatasetInfo : Type := {
  id : string;
  sha : string;
  siblings : list DatasetFile
}.

(** [use_auth_token: Optional[Union[bool, str]]] *)
Definition AuthToken : Type := option (bool + string).

Class Externals : Type := {
  (** [utils.file_utils] *)
  is_relative_path : string → bool;
  is_remote_url : string → bool;
  hf_hub_url : string → string → string → string;
  request_etag : string → AuthToken → result string;
  (** [utils.py_utils] *)
  string_to_dict : string → string → result (dict string string);
  (** The file system: [Path(base).rglob(pattern)], [glob.glob(pattern)],
      [p.is_file()], [p.resolve()] and [str(os.path.getmtime(f))]. *)
  rglob : string → string → list PurePath;
  glob_glob : string → list string;
  is_file : PurePath → bool;
  resolve : PurePath → PurePath;
  getmtime : string → result string;
  (** The interpreter: the order in which a [set] built from the given
      elements is iterated, the [repr] of a list of strings and the [repr]
      of a [functools.partial] of the named function. *)
  set_iter : list string → list string;
  set_iter_perm : ∀ l, set_iter l ≡ₚ remove_dups l;
  repr_list : list string → string;
  repr_partial : string → string
}.

(** ** Constants *)

(** Modelled from the spec: the names of the canonical splits, [str(Split.TRAIN)],
    [str(Split.TEST)] and [str(Split.VALIDATION)] of [splits.py], which is
    not part of the sources at hand. *)
Definition Split_TRAIN : string := "train".
Definition Split_TEST : string := "test".
Definition Split_VALIDATION : string := "validation".

Definition DEFAULT_SPLIT : string := Split_TRAIN.

Definition SPLIT_PATTERN_SHARDED : string :=
  "data/{split}-[0-9][0-9][0-9][0-9][0-9]-of-[0-9][0-9][0-9][0-9][0-9].*".

Definition DEFAULT_PATTERNS_SPLIT_IN_FILENAME : dict string (list string) :=
  [ (Split_TRAIN, ["*train*"]);
    (Split_TEST, ["*test*"; "*eval*"]);
    (Split_VALIDATION, ["*dev*"; "*valid*"]) ].

Definition DEFAULT_PATTERNS_SPLIT_IN_DIR_NAME : dict string (list string) :=
  [ (Split_TRAIN, ["*train*/*"; "*train*/**/*"]);
    (Split_TEST, ["*test*/*"; "*test*/**/*"; "*eval*/*"; "*eval*/**/*"]);
    (Split_VALIDATION, ["*dev*/*"; "*dev*/**/*"; "*valid*/*"; "*valid*/**/*"]) ].

Definition DEFAULT_PATTERNS_ALL : dict string (list string) :=
  [ (Split_TRAIN, ["*"]) ].

Definition ALL_SPLIT_PATTERNS : list string := [SPLIT_PATTERN_SHARDED].
Definition ALL_DEFAULT_PATTERNS : list (dict string (list string)) :=
  [ DEFAULT_PATTERNS_SPLIT_IN_FILENAME;
    DEFAULT_PATTERNS_SPLIT_IN_DIR_NAME;
    DEFAULT_PATTERNS_ALL ].
Definition WILDCARD_CHARACTERS : string := "*[]".
Definition FILES_TO_IGNORE : list string :=
  ["README.md"; "config.json"; "dataset_infos.json"; "dummy_data.zip";
   "dataset_dict.json"].

(** ** Patterns *)

Definition contains_wildcards (pattern : string) : bool :=
  existsb (λ wilcard_character, contains_char wilcard_character pattern)
          (String.list_ascii_of_string WILDCARD_CHARACTERS).

(** [split_pattern.format(split=split)]: the template has the one field
    [{split}] and no other brace. *)
Definition format_split (split_pattern split : string) : string :=
  replace "{split}" split split_pattern.

(** *** [sanitize_patterns]

    The argument is a dict, a [str], a list, or something else, which is
    then handed to [list(...)] and had better be iterable. The keys of a
    dict go through [str]; its values are lists or not. *)

Inductive PatternsValue (P : Type) : Type :=
  | ListValue (l : list P)
  | OtherValue (v : P).
Global Arguments ListValue {P} l.
Global Arguments OtherValue {P} v.

Inductive PatternsArg (K P : Type) : Type :=
  | DictArg (d : dict K (PatternsValue P))
  | StrArg (s : P)
  | ListArg (l : list P)
  | IterableArg (elements : list P)
  | OtherArg.
Global Arguments DictArg {K P} d.
Global Arguments StrArg {K P} s.
Global Arguments ListArg {K P} l.
Global Arguments IterableArg {K P} elements.
Global Arguments OtherArg {K P}.

Definition sanitize_patterns {K P} (str : K → string)
    (patterns : PatternsArg K P) : result (dict string (list P)) :=
  match patterns with
  | DictArg d =>
      Ok (of_items
            ((λ '(key, value),
                (str key,
                 match value with
                 | ListValue l => l
                 | OtherValue v => [v]
                 end)) <$> items d))
  | StrArg patterns => Ok [(DEFAULT_SPLIT, [patterns])]
  | ListArg patterns => Ok [(DEFAULT_SPLIT, patterns)]
  | IterableArg elements => Ok [(DEFAULT_SPLIT, elements)]
  | OtherArg => Raise (TypeError "object is not iterable")
  end.

(** A resolved data file: a local path, or a [Url] (a [str] subclass). *)
Inductive DataFile : Type :=
  | LocalPath (path : PurePath)
  | Url (url : string).

(** A callable and its [repr]. *)
Record Resolver : Type := {
  call :> string → result (list PurePath);
  repr : string
}.

Section data_files.
Context `{!Externals}.

(** ** Resolution of one pattern *)

(** [filepath.name not in data_files_ignore and not
    filepath.name.startswith(".")] *)
Definition is_data_file_name (filepath : PurePath) : Prop :=
  (PurePath.name filepath ∉ FILES_TO_IGNORE)
  ∧ startswith "." (PurePath.name filepath) = false.

(** [any(suffix[1:] in allowed_extensions for suffix in filepath.suffixes)] *)
Definition has_allowed_extension (allowed_extensions : list string)
    (filepath : PurePath) : bool :=
  existsb (λ suffix, bool_decide (tail suffix ∈ allowed_extensions))
          (PurePath.suffixes filepath).

(** The extension filter, common to both resolvers. The files it removes
    are reported to the logger, which is all that happens to them. *)
Definition keep_allowed_extensions (allowed_extensions : option (list string))
    (matched_paths : list PurePath) : list PurePath :=
  match allowed_extensions with
  | Some allowed_extensions =>
      filter (λ filepath, has_allowed_extension allowed_extensions filepath = true)
             matched_paths
  | None => matched_paths
  end.

Definition with_extensions (error_msg : string)
    (allowed_extensions : option (list string)) : string :=
  match allowed_extensions with
  | Some allowed_extensions =>
      error_msg +:+ " with any supported extension " +:+ repr_list allowed_extensions
  | None => error_msg
  end.

(** [str(Path(base_path).resolve())] *)
Definition resolved (base_path : string) : string :=
  PurePath.as_posix (resolve (PurePath.of_string base_path)).

(** [matched_paths] of [_resolve_single_pattern_locally] *)
Definition matched_paths_locally (base_path pattern : string) : list PurePath :=
  let glob_iter :=
    if is_relative_path pattern then rglob base_path pattern
    else PurePath.of_string <$> glob_glob pattern in
  resolve <$>
    (filter (λ filepath, is_data_file_name filepath ∧ is_file filepath = true)
            glob_iter).

Definition _resolve_single_pattern_locally (base_path pattern : string)
    (allowed_extensions : option (list string)) : result (list PurePath) :=
  let matched_paths := matched_paths_locally base_path pattern in
  let out := keep_allowed_extensions allowed_extensions matched_paths in
  if bool_decide (out = []) && negb (contains_wildcards pattern) then
    let error_msg :=
      "Unable to find '" +:+ pattern +:+ "' at " +:+ resolved base_path in
    Raise (FileNotFoundError (with_extensions error_msg allowed_extensions))
  else Ok (sorted PurePath.ltb out).

(** [matched_paths] of [_resolve_single_pattern_in_dataset_repository]:
    the comprehension, one file at a time; [match] and [relative_to] may
    raise. *)
Fixpoint matched_paths_in_repository (pattern : string)
    (all_data_files : list PurePath) : result (list PurePath) :=
  match all_data_files with
  | [] => Ok []
  | filepath :: rest =>
      keep ← (if decide (is_data_file_name filepath)
              then PurePath.match_ filepath pattern else Ok false);
      if (keep : bool) then
        relative ← PurePath.relative_to_root filepath;
        matched ← matched_paths_in_repository pattern rest;
        Ok (relative :: matched)
      else matched_paths_in_repository pattern rest
  end.

Definition all_data_files (dataset_info : DatasetInfo) : list PurePath :=
  (λ dataset_file, PurePath.of_string ("/" +:+ rfilename dataset_file))
    <$> siblings dataset_info.

Definition _resolve_single_pattern_in_dataset_repository
    (dataset_info : DatasetInfo) (pattern : string)
    (allowed_extensions : option (list string)) : result (list PurePath) :=
  matched_paths ← matched_paths_in_repository pattern (all_data_files dataset_info);
  let out := keep_allowed_extensions allowed_extensions matched_paths in
  if bool_decide (out = []) && negb (contains_wildcards pattern) then
    let error_msg :=
      "Unable to find " +:+ pattern +:+ " in dataset repository "
        +:+ id dataset_info in
    Raise (FileNotFoundError (with_extensions error_msg allowed_extensions))
  else Ok (sorted PurePath.ltb out).

(** ** Resolution of a list of patterns *)

(** The loop over [patterns] of [resolve_patterns_locally_or_by_urls],
    from the list [data_files] built so far. *)
Fixpoint collect_locally_or_by_urls (base_path : string)
    (allowed_extensions : option (list string)) (patterns : list string)
    (data_files : list DataFile) : result (list DataFile) :=
  match patterns with
  | [] => Ok data_files
  | pattern :: rest =>
      if is_remote_url pattern then
        collect_locally_or_by_urls base_path allowed_extensions rest
          (data_files ++ [Url pattern])
      else
        paths ← _resolve_single_pattern_locally base_path pattern allowed_extensions;
        collect_locally_or_by_urls base_path allowed_extensions rest
          (data_files ++ (LocalPath <$> paths))
  end.

Definition resolve_patterns_locally_or_by_urls (base_path : string)
    (patterns : list string) (allowed_extensions : option (list string))
    : result (list DataFile) :=
  data_files ← collect_locally_or_by_urls base_path allowed_extensions patterns [];
  if bool_decide (data_files = []) then
    let error_msg :=
      "Unable to resolve any data file that matches '" +:+ repr_list patterns
        +:+ "' at " +:+ resolved base_path in
    Raise (FileNotFoundError (with_extensions error_msg allowed_extensions))
  else Ok data_files.

(** The loop over [patterns] of [resolve_patterns_in_dataset_repository]. *)
Fixpoint collect_in_dataset_repository (dataset_info : DatasetInfo)
    (allowed_extensions : option (list string)) (patterns : list string)
    (data_files_urls : list DataFile) : result (list DataFile) :=
  match patterns with
  | [] => Ok data_files_urls
  | pattern :: rest =>
      rel_paths ← _resolve_single_pattern_in_dataset_repository
                    dataset_info pattern allowed_extensions;
      collect_in_dataset_repository dataset_info allowed_extensions rest
        (data_files_urls ++
           ((λ rel_path,
               Url (hf_hub_url (id dataset_info) (PurePath.as_posix rel_path)
                               (sha dataset_info))) <$> rel_paths))
  end.

Definition resolve_patterns_in_dataset_repository (dataset_info : DatasetInfo)
    (patterns : list string) (allowed_extensions : option (list string))
    : result (list DataFile) :=
  data_files_urls ←
    collect_in_dataset_repository dataset_info allowed_extensions patterns [];
  if bool_decide (data_files_urls = []) then
    let error_msg :=
      "Unable to resolve any data file that matches " +:+ repr_list patterns
        +:+ " in dataset repository " +:+ id dataset_info in
    Raise (FileNotFoundError (with_extensions error_msg allowed_extensions))
  else Ok data_files_urls.

(** ** Inference of the patterns of the splits

    [_get_data_files_patterns] keeps the pattern it tried last in the
    variable [pattern], for the message of its final error; [pattern] is
    [None] here as long as the variable is not bound. *)

(** The [for pattern in patterns] of one split: is there a pattern that
    resolves to some file? Also gives the variable [pattern] afterwards. *)
Fixpoint first_match (pattern_resolver : Resolver) (patterns : list string)
    (pattern : option string) : result bool * option string :=
  match patterns with
  | [] => (Ok false, pattern)
  | p :: rest =>
      match pattern_resolver p with
      | Ok data_files =>
          if 0 <? length data_files then (Ok true, Some p)
          else first_match pattern_resolver rest (Some p)
      | Raise e => (Raise e, Some p)
      end
  end.

(** The [for split, patterns in patterns_dict.items()] with its
    [try ... except FileNotFoundError: pass], from the list
    [non_empty_splits] built so far. *)
Fixpoint non_empty_splits (pattern_resolver : Resolver)
    (items : list (string * list string)) (splits : list string)
    (pattern : option string) : result (list string) * option string :=
  match items with
  | [] => (Ok splits, pattern)
  | (split, patterns) :: rest =>
      match first_match pattern_resolver patterns pattern with
      | (Ok true, pattern) =>
          non_empty_splits pattern_resolver rest (splits ++ [split]) pattern
      | (Ok false, pattern) | (Raise (FileNotFoundError _), pattern) =>
          non_empty_splits pattern_resolver rest splits pattern
      | (Raise e, pattern) => (Raise e, pattern)
      end
  end.

(** [{split: patterns_dict[split] for split in non_empty_splits}] *)
Definition restrict (patterns_dict : dict string (list string))
    (splits : list string) : result (dict string (list string)) :=
  of_items <$>
    mapM (λ split, patterns ← getitem patterns_dict split; Ok (split, patterns))
         splits.

(** The [for patterns_dict in ALL_DEFAULT_PATTERNS] and the final [raise]. *)
Fixpoint try_default_patterns (pattern_resolver : Resolver)
    (groups : list (dict string (list string))) (pattern : option string)
    : result (dict string (list string)) :=
  match groups with
  | [] =>
      match pattern with
      | Some pattern =>
          Raise (FileNotFoundError
                   ("Couldn't resolve pattern " +:+ pattern +:+ " with resolver "
                      +:+ repr pattern_resolver))
      | None => Raise (UnboundLocalError "pattern")
      end
  | patterns_dict :: rest =>
      match non_empty_splits pattern_resolver (items patterns_dict) [] pattern with
      | (Ok [], pattern) => try_default_patterns pattern_resolver rest pattern
      | (Ok splits, _) => restrict patterns_dict splits
      | (Raise e, _) => Raise e
      end
  end.

(** [set(string_to_dict(p, split_pattern)["split"] for p in data_files)],
    before the set is made. *)
Definition split_names (split_pattern : string) (data_files : list string)
    : result (list string) :=
  mapM (λ p, d ← string_to_dict p split_pattern; getitem d "split") data_files.

(** The [for split_pattern in ALL_SPLIT_PATTERNS], followed by the rest. *)
Fixpoint try_split_patterns (pattern_resolver : Resolver)
    (split_patterns : list string) (pattern : option string)
    : result (dict string (list string)) :=
  match split_patterns with
  | [] => try_default_patterns pattern_resolver ALL_DEFAULT_PATTERNS pattern
  | split_pattern :: rest =>
      let pattern := replace "{split}" "*" split_pattern in
      data_files ← pattern_resolver pattern;
      if 0 <? length data_files then
        let data_files := PurePath.as_posix <$> data_files in
        splits ← split_names split_pattern data_files;
        Ok (of_items
              ((λ split, (split, [format_split split_pattern split]))
                 <$> set_iter splits))
      else try_split_patterns pattern_resolver rest (Some pattern)
  end.

Definition _get_data_files_patterns (pattern_resolver : Resolver)
    : result (dict string (list string)) :=
  try_split_patterns pattern_resolver ALL_SPLIT_PATTERNS None.

Definition get_patterns_locally (base_path : string)
    : result (dict string (list string)) :=
  let resolver :=
    {| call := λ pattern, _resolve_single_pattern_locally base_path pattern None;
       repr := repr_partial "_resolve_single_pattern_locally" |} in
  match _get_data_files_patterns resolver with
  | Raise (FileNotFoundError _) =>
      Raise (FileNotFoundError
               ("The directory at " +:+ base_path
                  +:+ " doesn't contain any data file"))
  | outcome => outcome
  end.

Definition get_patterns_in_dataset_repository (dataset_info : DatasetInfo)
    : result (dict string (list string)) :=
  let resolver :=
    {| call := λ pattern,
         _resolve_single_pattern_in_dataset_repository dataset_info pattern None;
       repr := repr_partial "_resolve_single_pattern_in_dataset_repository" |} in
  match _get_data_files_patterns resolver with
  | Raise (FileNotFoundError _) =>
      Raise (FileNotFoundError
               ("The dataset repository at '" +:+ id dataset_info
                  +:+ "' doesn't contain any data file."))
  | outcome => outcome
  end.

(** ** Origin metadata *)

(** A tuple of strings: the time of last modification of a local file, the
    ETag of a remote one, or the id and the commit sha of a repository. *)
Definition OriginMetadata : Type := list string.

Definition _get_single_origin_metadata_locally_or_by_urls
    (use_auth_token : AuthToken) (data_file : DataFile) : result OriginMetadata :=
  match data_file with
  | Url data_file =>
      etag ← request_etag data_file use_auth_token;
      Ok [etag]
  | LocalPath data_file =>
      let data_file := PurePath.as_posix (resolve data_file) in
      mtime ← getmtime data_file;
      Ok [mtime]
  end.

(** [thread_map] gives the results in the order of [data_files], and lets
    the exception of a failed call through. *)
Definition _get_origin_metadata_locally_or_by_urls
    (data_files : list DataFile) (use_auth_token : AuthToken)
    : result (list OriginMetadata) :=
  mapM (_get_single_origin_metadata_locally_or_by_urls use_auth_token) data_files.

(** ** [DataFilesList] *)

Record DataFilesList : Type := {
  data_files : list DataFile;
  origin_metadata : list OriginMetadata
}.

Definition DataFilesList_from_hf_repo (patterns : list string)
    (dataset_info : DatasetInfo) (allowed_extensions : option (list string))
    : result DataFilesList :=
  data_files ←
    resolve_patterns_in_dataset_repository dataset_info patterns allowed_extensions;
  let origin_metadata :=
    (λ _, [id dataset_info; sha dataset_info]) <$> patterns in
  Ok {| data_files := data_files; origin_metadata := origin_metadata |}.

Definition DataFilesList_from_local_or_remote (patterns : list string)
    (base_path : option string) (allowed_extensions : option (list string))
    (use_auth_token : AuthToken) : result DataFilesList :=
  let base_path :=
    match base_path with
    | Some base_path => base_path
    | None => resolved ""
    end in
  data_files ←
    resolve_patterns_locally_or_by_urls base_path patterns allowed_extensions;
  origin_metadata ←
    _get_origin_metadata_locally_or_by_urls data_files use_auth_token;
  Ok {| data_files := data_files; origin_metadata := origin_metadata |}.

(** ** [DataFilesDict] *)

Definition DataFilesDict : Type := dict string DataFilesList.

(** The patterns of a split, or a list that is resolved already. *)
Inductive PatternsForKey : Type :=
  | Unresolved (patterns : list string)
  | Resolved (data_files : DataFilesList).

(** The loop [for key, patterns_for_key in patterns.items()], from the
    dict [out] built so far with the given constructor. *)
Fixpoint fill (from_patterns : list string → result DataFilesList)
    (items : list (string * PatternsForKey)) (out : DataFilesDict)
    : result DataFilesDict :=
  match items with
  | [] => Ok out
  | (key, patterns_for_key) :: rest =>
      value ← match patterns_for_key with
              | Unresolved patterns => from_patterns patterns
              | Resolved data_files => Ok data_files
              end;
      fill from_patterns rest (setitem out key value)
  end.

Definition DataFilesDict_from_local_or_remote
    (patterns : dict string PatternsForKey) (base_path : option string)
    (allowed_extensions : option (list string)) (use_auth_token : AuthToken)
    : result DataFilesDict :=
  fill (λ patterns_for_key,
          DataFilesList_from_local_or_remote patterns_for_key base_path
            allowed_extensions use_auth_token)
       (items patterns) [].

Definition DataFilesDict_from_hf_repo
    (patterns : dict string PatternsForKey) (dataset_info : DatasetInfo)
    (allowed_extensions : option (list string)) : result DataFilesDict :=
  fill (λ patterns_for_key,
          DataFilesList_from_hf_repo patterns_for_key dataset_info allowed_extensions)
       (items patterns) [].

(** [sorted(self.items())]: the items are pairs, and pairs are compared on
    their first components that differ. The keys of a dict differ, so the
    keys decide and the values are never compared. *)
Definition item_ltb (x y : string * DataFilesList) : bool := String.ltb x.1 y.1.

(** [__reduce__]: the class, here left out, and the argument from which
    pickling and hashing rebuild the dict. *)
Definition DataFilesDict_reduce (self : DataFilesDict) : DataFilesDict :=
  of_items (sorted item_ltb (items self)).

End data_files.

(** ** Collaborators to run the code with

    One choice of collaborators, to evaluate the code on example inputs: a
    file system that holds the regular files [files] (absolute paths, no
    links, current directory [/]), and plain versions of the helpers of
    [utils]. *)

Module Model.

(** Modelled from the spec: [is_remote_url] of [utils/file_utils.py], which
    is not part of the sources at hand. Whether a pattern is a URL is a
    function of the string: here, it starts with the scheme of a remote
    protocol. *)
Definition is_remote_url (url_or_filename : string) : bool :=
  existsb (λ scheme, startswith (scheme +:+ "://") url_or_filename)
          ["http"; "https"; "s3"; "gs"; "hdfs"; "ftp"].

(** Modelled from the spec: [is_relative_path] of [utils/file_utils.py],
    which is not part of the sources at hand. Whether a pattern is relative
    is a function of the string: here, it has no scheme and does not start
    at the root. *)
Definition is_relative_path (url_or_filename : string) : bool :=
  negb (contains_char ":"%char url_or_filename)
  && negb (startswith "/" url_or_filename).

(** Modelled from the spec: [hf_hub_url] of [utils/file_utils.py], which is
    not part of the sources at hand: the URL of a file of a repository from
    the id of the repository, the path of the file and the revision, as in
    the example of the docstring of [resolve_patterns_in_dataset_repository]. *)
Definition hf_hub_url (path name revision : string) : string :=
  "https://huggingface.co/datasets/" +:+ path +:+ "/resolve/" +:+ revision
    +:+ "/" +:+ name.

Definition chars (s : string) : list ascii := String.list_ascii_of_string s.

(** The longest non-empty prefix of [s] after which the rest of [s] matches
    the glob [post]; the candidates are tried from [n] characters down. *)
Fixpoint longest_field (post : string) (s : list ascii) (n : nat) : option string :=
  match n with
  | O => None
  | S n' =>
      if Fnmatch.fnmatchcase (String.string_of_list_ascii (drop n s)) post
      then Some (String.string_of_list_ascii (take n s))
      else longest_field post s n'
  end.

(** The first place of [s] where [pre], a field and a match of [post]
    follow each other. *)
Fixpoint find_field (pre post : string) (s : list ascii) : option string :=
  let here :=
    if bool_decide (take (String.length pre) s = chars pre) then
      let s' := drop (String.length pre) s in
      longest_field post s' (length s')
    else None in
  match here, s with
  | Some field, _ => Some field
  | None, [] => None
  | None, _ :: s' => find_field pre post s'
  end.

(** Modelled from the spec: [string_to_dict] of [utils/py_utils.py], which
    is not part of the sources at hand, for a template with the one field
    [{split}]. The template is reversed against the string: the field is
    what stands in the string between the text before [{split}] and a
    match of what follows [{split}] in the template. *)
Definition string_to_dict (s pattern : string) : result (dict string string) :=
  match split "{"%char pattern with
  | [pre; field_post] =>
      match split "}"%char field_post with
      | [field; post] =>
          match find_field pre post (chars s) with
          | Some value => Ok [(field, value)]
          | None =>
              Raise (ValueError ("String " +:+ s +:+ " doesn't match the pattern "
                                   +:+ pattern))
          end
      | _ => Raise (ValueError "unsupported pattern")
      end
  | _ => Raise (ValueError "unsupported pattern")
  end.

Section file_system.
Variable files : list string.

Definition paths : list PurePath := PurePath.of_string <$> files.

Definition is_file (p : PurePath) : bool := bool_decide (p ∈ paths).

Definition resolve (p : PurePath) : PurePath :=
  if decide (PurePath.root p = "") then PurePath.Build ("/" :: PurePath.parts p)
  else p.

(** The files below [base_path] whose last parts match the pattern. *)
Definition rglob (base_path pattern : string) : list PurePath :=
  let base := PurePath.parts (PurePath.of_string base_path) in
  filter (λ p,
            take (length base) (PurePath.parts p) = base
            ∧ PurePath.match_ (PurePath.Build (drop (length base) (PurePath.parts p)))
                              pattern = Ok true)
         paths.

Definition glob_glob (pattern : string) : list string :=
  PurePath.as_posix <$>
    (filter (λ p, PurePath.match_ p pattern = Ok true) paths).

Definition repr_str (s : string) : string := "'" +:+ s +:+ "'".
Definition repr_list (l : list string) : string :=
  "[" +:+ join ", " (repr_str <$> l) +:+ "]".

End file_system.

End Model.

(** The collaborators for a file system that holds [files]. *)
#[refine] Definition externals_of (files : list string) : Externals := {|
  is_relative_path := Model.is_relative_path;
  is_remote_url := Model.is_remote_url;
  hf_hub_url := Model.hf_hub_url;
  request_etag := λ url _, Ok ("W/" +:+ url);
  string_to_dict := Model.string_to_dict;
  rglob := Model.rglob files;
  glob_glob := Model.glob_glob files;
  is_file := Model.is_file files;
  resolve := Model.resolve;
  getmtime := λ _, Ok "0.0";
  set_iter := remove_dups;
  repr_list := Model.repr_list;
  repr_partial := λ name, "functools.partial(" +:+ name +:+ ")"
|}.
Proof. done. Defined.

(** ** Vocabulary of the properties *)

(** The wildcard characters, and a pattern that holds one. *)
Definition wildcard (c : ascii) : Prop :=
  c = "*"%char ∨ c = "["%char ∨ c = "]"%char.
Definition has_wildcard (pattern : string) : Prop :=
  ∃ c, wildcard c ∧ c ∈ String.list_ascii_of_string pattern.

(** [p <= q] for paths, as [sorted] sees it: [q] is not less than [p]. *)
Definition path_le : relation PurePath := not_after PurePath.ltb.

(** The final suffix of a file name, [.gz] for [a.csv.gz]. *)
Definition final_suffix (filepath : PurePath) : string :=
  List.last (PurePath.suffixes filepath) "".

(** Some suffix of the file, without its dot, is an allowed extension. *)
Definition some_suffix_allowed (allowed_extensions : list string)
    (filepath : PurePath) : Prop :=
  ∃ suffix, suffix ∈ PurePath.suffixes filepath ∧ tail suffix ∈ allowed_extensions.

(** What the last step of both resolvers gives, from the filtered list. *)
Definition conclude (pattern : string) (out : list PurePath)
    (r : result (list PurePath)) : Prop :=
  (out = [] ∧ ¬ has_wildcard pattern ∧ ∃ msg, r = Raise (FileNotFoundError msg))
  ∨ ((out ≠ [] ∨ has_wildcard pattern) ∧ r = Ok (sorted PurePath.ltb out)).

(** The value of an outcome, or a default. *)
Definition value_or {A} (d : A) (r : result A) : A :=
  match r with Ok a => a | Raise _ => d end.

(** What one pattern adds to the list of data files: the body of the loop of
    [resolve_patterns_locally_or_by_urls], and the one of
    [resolve_patterns_in_dataset_repository]. *)
Definition files_of_pattern `{!Externals} (base_path : string)
    (allowed_extensions : option (list string)) (pattern : string)
    : result (list DataFile) :=
  if is_remote_url pattern then Ok [Url pattern]
  else fmap (M:=list) LocalPath
         <$> _resolve_single_pattern_locally base_path pattern allowed_extensions.

Definition url_of `{!Externals} (dataset_info : DatasetInfo)
    (rel_path : PurePath) : DataFile :=
  Url (hf_hub_url (id dataset_info) (PurePath.as_posix rel_path) (sha dataset_info)).

Definition urls_of_pattern `{!Externals} (dataset_info : DatasetInfo)
    (allowed_extensions : option (list string)) (pattern : string)
    : result (list DataFile) :=
  fmap (M:=list) (url_of dataset_info)
    <$> _resolve_single_pattern_in_dataset_repository dataset_info pattern
          allowed_extensions.

(** [value if isinstance(value, list) else [value]] *)
Definition as_list {P} (value : PatternsValue P) : list P :=
  match value with
  | ListValue l => l
  | OtherValue v => [v]
  end.

(** The pattern of the sharded files, with any split:
    [SPLIT_PATTERN_SHARDED.replace("{split}", "*")]. *)
Definition sharded_glob : string := replace "{split}" "*" SPLIT_PATTERN_SHARDED.

(** The splits of a group of default patterns for which the resolver finds a
    file: what [non_empty_splits] is when the loop over the group is over. *)
Definition matching_splits (pattern_resolver : Resolver)
    (patterns_dict : dict string (list string)) : result (list string) :=
  (non_empty_splits pattern_resolver (items patterns_dict) [] None).1.

(** Some pattern of the split resolves to a file. *)
Definition has_match (pattern_resolver : Resolver)
    (item : string * list string) : Prop :=
  Exists (λ pattern, value_or [] (pattern_resolver pattern) ≠ []) item.2.

(** The patterns that the inference may try. *)
Definition tried_patterns : list string :=
  sharded_glob :: concat ((λ patterns_dict, concat patterns_dict.*2)
                            <$> ALL_DEFAULT_PATTERNS).

(** The resolvers that [get_patterns_locally] and
    [get_patterns_in_dataset_repository] hand to the inference. *)
Definition local_resolver `{!Externals} (base_path : string) : Resolver :=
  {| call := λ pattern, _resolve_single_pattern_locally base_path pattern None;
     repr := repr_partial "_resolve_single_pattern_locally" |}.

Definition repository_resolver `{!Externals} (dataset_info : DatasetInfo) : Resolver :=
  {| call := λ pattern,
       _resolve_single_pattern_in_dataset_repository dataset_info pattern None;
     repr := repr_partial "_resolve_single_pattern_in_dataset_repository" |}.

(** The items of a group of default patterns at the given splits. *)
Definition at_splits (splits : list string)
    (patterns_dict : dict string (list string)) : dict string (list string) :=
  filter (λ item, item.1 ∈ splits) patterns_dict.

(** ** [tests/utils.py] *)

Module TestUtils.

(** [c.lower()] for the letters [A] to [Z]. A character outside ASCII has no
    lower case among the letters of the words that [strtobool] accepts, so it
    may stay as it is. *)
Definition lower_char (c : ascii) : ascii :=
  let n := nat_of_ascii c in
  if (65 <=? n) && (n <=? 90) then ascii_of_nat (n + 32) else c.

(** [s.lower()] *)
Fixpoint lower (s : string) : string :=
  match s with
  | EmptyString => EmptyString
  | String c s' => String (lower_char c) (lower s')
  end.

(** [distutils.util.strtobool] *)
Definition strtobool (val : string) : result nat :=
  let val := lower val in
  if bool_decide (val ∈ ["y"; "yes"; "t"; "true"; "on"; "1"]) then Ok 1
  else if bool_decide (val ∈ ["n"; "no"; "f"; "false"; "off"; "0"]) then Ok 0
  else Raise (ValueError ("invalid truth value '" +:+ val +:+ "'")).

(** [os.environ[key]] with its [KeyError], and what follows it: the value of
    the flag is the default as it was given, or the number that [strtobool]
    reads. *)
Definition parse_flag_from_env {D} (environ : dict string string)
    (key : string) (default : D) : result (D + nat) :=
  match getitem environ key with
  | Raise (KeyError _) => Ok (inl default)
  | Raise e => Raise e
  | Ok value =>
      match strtobool value with
      | Raise (ValueError _) =>
          Raise (ValueError ("If set, " +:+ key +:+ " must be yes or no."))
      | Raise e => Raise e
      | Ok _value => Ok (inr _value)
      end
  end.

(** [_run_slow_tests = parse_flag_from_env("RUN_SLOW", default=False)],
    computed when the module is loaded. *)
Definition _run_slow_tests (environ : dict string string) : result (bool + nat) :=
  parse_flag_from_env environ "RUN_SLOW" false.

(** [not flag] for the values a flag takes. *)
Definition falsy (flag : bool + nat) : bool :=
  match flag with
  | inl b => negb b
  | inr n => bool_decide (n = 0)
  end.

(** A test case, left as it is or wrapped by [unittest.skip(reason)]. *)
Inductive Decorated (T : Type) : Type :=
  | Plain (test_case : T)
  | Skip (reason : string) (test_case : T).
Global Arguments Plain {T} test_case.
Global Arguments Skip {T} reason test_case.

(** [slow], with the value of [_run_slow_tests] of the module. *)
Definition slow {T} (_run_slow_tests : bool + nat) (test_case : T) : Decorated T :=
  if falsy _run_slow_tests then Skip "test is slow" test_case
  else Plain test_case.

End TestUtils.

(** ** More vocabulary *)

(** The name of a file of a repository as the hub gives it: components
    separated by [/], none of them empty or [.]. *)
Definition clean_name (rfilename : string) : Prop :=
  Forall (λ component, component ≠ "" ∧ component ≠ ".") (split "/"%char rfilename).

(** What one file of a repository adds to [matched_paths]: the body of the
    comprehension of [_resolve_single_pattern_in_dataset_repository]. *)
Definition matched_one (pattern : string) (filepath : PurePath)
    : result (list PurePath) :=
  keep ← (if decide (is_data_file_name filepath)
          then PurePath.match_ filepath pattern else Ok false);
  if (keep : bool) then
    relative ← PurePath.relative_to_root filepath; Ok [relative]
  else Ok [].

(** [DataFilesList.from_...(patterns_for_key, ...) if not
    isinstance(patterns_for_key, DataFilesList) else patterns_for_key] *)
Definition value_for_key (from_patterns : list string → result DataFilesList)
    (patterns_for_key : PatternsForKey) : result DataFilesList :=
  match patterns_for_key with
  | Unresolved patterns => from_patterns patterns
  | Resolved data_files => Ok data_files
  end.

(** The value of each key, with its key. *)
Definition item_for_key (from_patterns : list string → result DataFilesList)
    (item : string * PatternsForKey) : result (string * DataFilesList) :=
  (λ value, (item.1, value)) <$> value_for_key from_patterns item.2.

(** A dict of lists of data files, as the patterns of a dict constructor. *)
Definition as_resolved (d : DataFilesDict) : dict string PatternsForKey :=
  (λ item, (item.1, Resolved item.2)) <$> d.

(** The output of [sanitize_patterns], as its input. *)
Definition as_argument {P} (d : dict string (list P)) : PatternsArg string P :=
  DictArg ((λ item, (item.1, ListValue item.2)) <$> d).

(** The messages of the errors of [resolve_patterns_locally_or_by_urls] and
    [resolve_patterns_in_dataset_repository] when no file is found. *)
Definition nothing_resolved_locally `{!Externals} (base_path : string)
    (patterns : list string) (allowed_extensions : option (list string)) : string :=
  with_extensions
    ("Unable to resolve any data file that matches '" +:+ repr_list patterns
       +:+ "' at " +:+ resolved base_path)
    allowed_extensions.

Definition nothing_resolved_in_repository `{!Externals} (dataset_info : DatasetInfo)
    (patterns : list string) (allowed_extensions : option (list string)) : string :=
  with_extensions
    ("Unable to resolve any data file that matches " +:+ repr_list patterns
       +:+ " in dataset repository " +:+ id dataset_info)
    allowed_extensions.

(** ** The runtime: facts *)

Lemma contains_char_spec (c : ascii) (s : string) :
  contains_char c s = true ↔ c ∈ String.list_ascii_of_string s.
Proof.
  induction s as [|c' s IH]; simpl.
  - split; [done | by intros ?%elem_of_nil].
  - destruct (decide (c = c')) as [->|Hne].
    + split; [intros _; by left | done].
    + rewrite IH. split; [by right | ].
      intros [?|?]%elem_of_cons; [done | assumption].
Qed.

Lemma contains_wildcards_spec (pattern : string) :
  contains_wildcards pattern = true ↔ has_wildcard pattern.
Proof.
  unfold contains_wildcards, has_wildcard, wildcard. simpl.
  rewrite !orb_true_iff, !contains_char_spec. split.
  - intros [H|[H|[H|H]]]; [eexists; split; [|exact H]; tauto.. | done].
  - intros (c & [->|[->| ->]] & H); tauto.
Qed.

Lemma contains_wildcards_false (pattern : string) :
  contains_wildcards pattern = false ↔ ¬ has_wildcard pattern.
Proof.
  rewrite <- contains_wildcards_spec. by destruct (contains_wildcards pattern).
Qed.

(** *** The order of strings and of paths *)

Lemma String_ltb_leb (x y : string) : String.ltb y x = negb (String.leb x y).
Proof.
  unfold String.ltb, String.leb. rewrite (String.compare_antisym x y).
  by destruct (String.compare y x).
Qed.

Lemma String_ltb_false (x y : string) : String.ltb y x = false ↔ String.le x y.
Proof.
  rewrite String_ltb_leb. unfold String.le.
  destruct (String.leb x y); simpl; split; done.
Qed.

Lemma parts_ltb_total (l1 l2 : list string) :
  PurePath.parts_ltb l2 l1 = false ∨ PurePath.parts_ltb l1 l2 = false.
Proof.
  revert l2. induction l1 as [|x l1 IH]; intros [|y l2]; simpl; auto.
  destruct (decide (y = x)) as [->|Hne].
  - rewrite decide_True by done. apply IH.
  - rewrite decide_False by done. rewrite !String_ltb_false.
    destruct (total String.le x y); auto.
Qed.

Lemma parts_ltb_trans (l1 l2 l3 : list string) :
  PurePath.parts_ltb l2 l1 = false → PurePath.parts_ltb l3 l2 = false →
  PurePath.parts_ltb l3 l1 = false.
Proof.
  revert l2 l3. induction l1 as [|x l1 IH]; intros [|y l2] [|z l3]; simpl; try done.
  destruct (decide (y = x)) as [Hyx|Hyx], (decide (z = y)) as [Hzy|Hzy],
    (decide (z = x)) as [Hzx|Hzx]; try congruence; rewrite ?String_ltb_false.
  - apply IH.
  - intros Hxy Hyz. subst z. destruct Hyx. by apply (anti_symm String.le).
  - intros Hxy Hyz. by trans y.
Qed.

Global Instance path_le_total : Total path_le.
Proof. intros p q. apply parts_ltb_total. Qed.

Global Instance path_le_trans : Transitive path_le.
Proof. intros p q r. apply parts_ltb_trans. Qed.

Global Instance path_le_dec : RelDecision path_le.
Proof. unfold path_le. apply _. Defined.

Lemma sorted_paths_Sorted (l : list PurePath) :
  StronglySorted path_le (sorted PurePath.ltb l).
Proof. apply (StronglySorted_merge_sort path_le). Qed.

Lemma sorted_Permutation {A} (ltb : A → A → bool) (l : list A) :
  sorted ltb l ≡ₚ l.
Proof. apply merge_sort_Permutation. Qed.

(** ** The models of the libraries on some inputs *)

Example fnmatchcase_examples :
  Fnmatch.fnmatchcase "train-00000-of-00002.parquet"
    "*-[0-9][0-9][0-9][0-9][0-9]-of-[0-9][0-9][0-9][0-9][0-9].*" = true
  ∧ Fnmatch.fnmatchcase "train.csv" "*test*" = false
  ∧ Fnmatch.fnmatchcase "a[b" "a[?" = true
  ∧ Fnmatch.fnmatchcase "x" "[!a-c]" = true
  ∧ Fnmatch.fnmatchcase "b" "[!a-c]" = false.
Proof. vm_compute. done. Qed.

Example pathlib_examples :
  PurePath.suffixes (PurePath.of_string "/data/a.csv.gz") = [".csv"; ".gz"]
  ∧ PurePath.name (PurePath.of_string "/") = ""
  ∧ PurePath.suffixes (PurePath.of_string "x/.bashrc") = []
  ∧ PurePath.suffixes (PurePath.of_string "a..b") = ["."; ".b"]
  ∧ PurePath.of_string "//a/./b//c/" = PurePath.Build ["//"; "a"; "b"; "c"]
  ∧ PurePath.as_posix (PurePath.of_string "/a/b") = "/a/b"
  ∧ PurePath.match_ (PurePath.of_string "/x/data/train-00000-of-00002.parquet")
      sharded_glob = Ok true
  ∧ PurePath.match_ (PurePath.of_string "/train.csv") "*/*" = Ok true
  ∧ PurePath.match_ (PurePath.of_string "/train.csv") "*train*/*" = Ok false
  ∧ PurePath.match_ (PurePath.of_string "/a/train.csv") "/*.csv" = Ok false
  ∧ PurePath.match_ (PurePath.of_string "/a/train.csv") "" = Raise (ValueError "empty pattern")
  ∧ sorted PurePath.ltb (PurePath.of_string <$> ["b"; "a/b"; "a-b"; "a"])
    = PurePath.of_string <$> ["a"; "a/b"; "a-b"; "b"].
Proof. vm_compute. repeat split. Qed.

Example string_to_dict_examples :
  Model.string_to_dict "data/train-00000-of-00002.parquet" SPLIT_PATTERN_SHARDED
    = Ok [("split", "train")]
  ∧ Model.string_to_dict "/x/data/a-b-00000-of-00002.c-00001-of-00002.d"
      SPLIT_PATTERN_SHARDED
    = Ok [("split", "a-b-00000-of-00002.c")]
  ∧ is_Ok (Model.string_to_dict "data/-00000-of-00002.parquet" SPLIT_PATTERN_SHARDED)
    = false.
Proof. vm_compute. done. Qed.

(** ** The extension filter *)

Section extension_filter.
Context `{!Externals}.

Lemma has_allowed_extension_spec (allowed_extensions : list string)
    (filepath : PurePath) :
  has_allowed_extension allowed_extensions filepath = true
  ↔ some_suffix_allowed allowed_extensions filepath.
Proof.
  unfold has_allowed_extension, some_suffix_allowed.
  rewrite existsb_exists. split.
  - intros (suffix & Hin & Hok). exists suffix.
    by rewrite <- list_elem_of_In, bool_decide_eq_true in *.
  - intros (suffix & Hin & Hok). exists suffix.
    by rewrite <- list_elem_of_In, bool_decide_eq_true.
Qed.

Lemma elem_of_keep_allowed_extensions (allowed_extensions : list string)
    (matched_paths : list PurePath) (filepath : PurePath) :
  filepath ∈ keep_allowed_extensions (Some allowed_extensions) matched_paths
  ↔ filepath ∈ matched_paths ∧ some_suffix_allowed allowed_extensions filepath.
Proof.
  unfold keep_allowed_extensions.
  rewrite list_elem_of_filter, has_allowed_extension_spec. tauto.
Qed.

(** The test [not out and not contains_wildcards(pattern)], case by case. *)
Ltac case_empty_without_wildcard pattern :=
  let Hw := fresh "Hw" in
  let Hout := fresh "Hout" in
  destruct (contains_wildcards pattern) eqn:Hw;
  [ rewrite andb_false_r; right; split; [|done];
    right; by apply contains_wildcards_spec
  | apply contains_wildcards_false in Hw; rewrite andb_true_r;
    case_bool_decide as Hout;
    [ left; rewrite Hout; eauto | right; auto ] ].

Lemma _resolve_single_pattern_locally_conclude
    (base_path pattern : string) (allowed_extensions : option (list string)) :
  conclude pattern
    (keep_allowed_extensions allowed_extensions
       (matched_paths_locally base_path pattern))
    (_resolve_single_pattern_locally base_path pattern allowed_extensions).
Proof.
  unfold conclude, _resolve_single_pattern_locally.
  case_empty_without_wildcard pattern.
Qed.

Lemma _resolve_single_pattern_in_dataset_repository_conclude
    (dataset_info : DatasetInfo) (pattern : string)
    (allowed_extensions : option (list string)) (matched_paths : list PurePath) :
  matched_paths_in_repository pattern (all_data_files dataset_info) = Ok matched_paths →
  conclude pattern
    (keep_allowed_extensions allowed_extensions matched_paths)
    (_resolve_single_pattern_in_dataset_repository dataset_info pattern
       allowed_extensions).
Proof.
  intros Hmatched.
  unfold conclude, _resolve_single_pattern_in_dataset_repository.
  rewrite Hmatched. simpl.
  case_empty_without_wildcard pattern.
Qed.

End extension_filter.

(** C4. A pattern without wildcard character whose files, after the
    ignore-list, the dotfiles and the extension filter, are none, makes
    the resolution of the pattern raise [FileNotFoundError], locally and in
    a repository; a pattern with a wildcard character then resolves to the
    empty list, without error. *)
Theorem empty_result_raises_unless_wildcard `{!Externals}
    (pattern : string) (allowed_extensions : option (list string)) :
  (∀ base_path,
     keep_allowed_extensions allowed_extensions
       (matched_paths_locally base_path pattern) = [] →
     (¬ has_wildcard pattern →
      ∃ msg, _resolve_single_pattern_locally base_path pattern allowed_extensions
             = Raise (FileNotFoundError msg))
     ∧ (has_wildcard pattern →
        _resolve_single_pattern_locally base_path pattern allowed_extensions = Ok []))
  ∧ (∀ dataset_info matched_paths,
       matched_paths_in_repository pattern (all_data_files dataset_info)
         = Ok matched_paths →
       keep_allowed_extensions allowed_extensions matched_paths = [] →
       (¬ has_wildcard pattern →
        ∃ msg, _resolve_single_pattern_in_dataset_repository dataset_info pattern
                 allowed_extensions = Raise (FileNotFoundError msg))
       ∧ (has_wildcard pattern →
          _resolve_single_pattern_in_dataset_repository dataset_info pattern
            allowed_extensions = Ok [])).
Proof.
  split.
  - intros base_path Hempty.
    destruct (_resolve_single_pattern_locally_conclude base_path pattern
                allowed_extensions) as [(_ & Hno & Hraise)|([Hne|Hw] & Hok)].
    + split; [done | intros Hw; by destruct Hno].
    + by destruct Hne.
    + rewrite Hempty in Hok. split; [intros Hno; by destruct Hno | done].
  - intros dataset_info matched_paths Hmatched Hempty.
    destruct (_resolve_single_pattern_in_dataset_repository_conclude dataset_info
                pattern allowed_extensions matched_paths Hmatched)
      as [(_ & Hno & Hraise)|([Hne|Hw] & Hok)].
    + split; [done | intros Hw; by destruct Hno].
    + by destruct Hne.
    + rewrite Hempty in Hok. split; [intros Hno; by destruct Hno | done].
Qed.

Lemma empty_result_raises_unless_wildcard_witness :
  let E := externals_of [] in
  let empty_repo := {| id := "user/empty"; sha := "0ca0d9f"; siblings := [] |} in
  (keep_allowed_extensions None (matched_paths_locally "/data" "missing.csv") = []
   ∧ ¬ has_wildcard "missing.csv"
   ∧ ∃ msg, _resolve_single_pattern_locally "/data" "missing.csv" None
            = Raise (FileNotFoundError msg))
  ∧ (keep_allowed_extensions None (matched_paths_locally "/data" "*.csv") = []
     ∧ has_wildcard "*.csv"
     ∧ _resolve_single_pattern_locally "/data" "*.csv" None = Ok [])
  ∧ (∃ msg, _resolve_single_pattern_in_dataset_repository empty_repo "missing.csv" None
            = Raise (FileNotFoundError msg))
  ∧ _resolve_single_pattern_in_dataset_repository empty_repo "*.csv" None = Ok [].
Proof.
  intros E empty_repo.
  assert (Hno : ¬ has_wildcard "missing.csv")
    by (by apply contains_wildcards_false).
  assert (Hyes : has_wildcard "*.csv") by (by apply contains_wildcards_spec).
  destruct (empty_result_raises_unless_wildcard "missing.csv" None) as [Hl Hr].
  destruct (empty_result_raises_unless_wildcard "*.csv" None) as [Hl' Hr'].
  destruct (Hl "/data" eq_refl) as [Hraise _].
  destruct (Hl' "/data" eq_refl) as [_ Hok].
  destruct (Hr empty_repo [] eq_refl eq_refl) as [Hraise' _].
  destruct (Hr' empty_repo [] eq_refl eq_refl) as [_ Hok'].
  repeat split; auto.
Defined.

(** C2 (amended). With an allow-list of extensions, the resolution of a
    pattern, locally and in a repository, keeps exactly the matched files
    that have some suffix, the final one or an earlier one, which without its
    dot is in the allow-list. The files that are dropped raise nothing: a
    [FileNotFoundError] comes only when no file is kept and the pattern has
    no wildcard character. What the enumeration of the files may raise by
    itself, on a pattern that it refuses, is another matter: the files are
    those of an enumeration that returned. *)
Theorem extension_filter_keeps_files_with_an_allowed_suffix `{!Externals}
    (pattern : string) (allowed_extensions : list string) :
  (∀ base_path,
     let matched_paths := matched_paths_locally base_path pattern in
     let r := _resolve_single_pattern_locally base_path pattern
                (Some allowed_extensions) in
     (∀ out, r = Ok out →
        out ≡ₚ keep_allowed_extensions (Some allowed_extensions) matched_paths
        ∧ ∀ filepath, filepath ∈ out
            ↔ filepath ∈ matched_paths
              ∧ some_suffix_allowed allowed_extensions filepath)
     ∧ (∀ msg, r = Raise (FileNotFoundError msg) →
          ¬ has_wildcard pattern
          ∧ ∀ filepath, filepath ∈ matched_paths →
              ¬ some_suffix_allowed allowed_extensions filepath))
  ∧ (∀ dataset_info matched_paths,
       matched_paths_in_repository pattern (all_data_files dataset_info)
         = Ok matched_paths →
       let r := _resolve_single_pattern_in_dataset_repository dataset_info pattern
                  (Some allowed_extensions) in
       (∀ out, r = Ok out →
          out ≡ₚ keep_allowed_extensions (Some allowed_extensions) matched_paths
          ∧ ∀ filepath, filepath ∈ out
              ↔ filepath ∈ matched_paths
                ∧ some_suffix_allowed allowed_extensions filepath)
       ∧ (∀ msg, r = Raise (FileNotFoundError msg) →
            ¬ has_wildcard pattern
            ∧ ∀ filepath, filepath ∈ matched_paths →
                ¬ some_suffix_allowed allowed_extensions filepath)).
Proof.
  assert (Hgen : ∀ matched_paths r,
    conclude pattern (keep_allowed_extensions (Some allowed_extensions) matched_paths) r →
    (∀ out, r = Ok out →
       out ≡ₚ keep_allowed_extensions (Some allowed_extensions) matched_paths
       ∧ ∀ filepath, filepath ∈ out
           ↔ filepath ∈ matched_paths
             ∧ some_suffix_allowed allowed_extensions filepath)
    ∧ (∀ msg, r = Raise (FileNotFoundError msg) →
         ¬ has_wildcard pattern
         ∧ ∀ filepath, filepath ∈ matched_paths →
             ¬ some_suffix_allowed allowed_extensions filepath)).
  { intros matched_paths r [(Hempty & Hno & msg & ->)|(_ & ->)]; split.
    - intros out [=].
    - intros msg' _. split; [done|]. intros filepath Hin Hsome.
      assert (filepath ∈ keep_allowed_extensions (Some allowed_extensions) matched_paths)
        as Hkept by (by apply elem_of_keep_allowed_extensions).
      rewrite Hempty in Hkept. by apply elem_of_nil in Hkept.
    - intros out [= <-]. split; [apply sorted_Permutation|].
      intros filepath. rewrite sorted_Permutation.
      apply elem_of_keep_allowed_extensions.
    - intros msg [=]. }
  split.
  - intros base_path. apply Hgen, _resolve_single_pattern_locally_conclude.
  - intros dataset_info matched_paths Hmatched.
    by apply Hgen, _resolve_single_pattern_in_dataset_repository_conclude.
Qed.

Lemma extension_filter_keeps_files_with_an_allowed_suffix_witness :
  let E := externals_of ["/d/a.csv"; "/d/b.json"; "/d/c.txt"] in
  let repo :=
    {| id := "user/demo"; sha := "0ca0d9f";
       siblings := [ {| rfilename := "a.csv" |}; {| rfilename := "b.json" |};
                     {| rfilename := "c.txt" |} ] |} in
  let local := PurePath.of_string <$> ["/d/a.csv"; "/d/b.json"] in
  let remote := PurePath.of_string <$> ["a.csv"; "b.json"] in
  (_resolve_single_pattern_locally "/d" "*" (Some ["csv"; "json"]) = Ok local
   ∧ ∀ filepath, filepath ∈ local
       ↔ filepath ∈ matched_paths_locally "/d" "*"
         ∧ some_suffix_allowed ["csv"; "json"] filepath)
  ∧ (matched_paths_in_repository "*" (all_data_files repo)
       = Ok (PurePath.of_string <$> ["a.csv"; "b.json"; "c.txt"])
     ∧ _resolve_single_pattern_in_dataset_repository repo "*" (Some ["csv"; "json"])
       = Ok remote
     ∧ ∀ filepath, filepath ∈ remote
         ↔ filepath ∈ PurePath.of_string <$> ["a.csv"; "b.json"; "c.txt"]
           ∧ some_suffix_allowed ["csv"; "json"] filepath).
Proof.
  intros E repo local remote.
  destruct (extension_filter_keeps_files_with_an_allowed_suffix "*" ["csv"; "json"])
    as [Hlocal Hremote].
  split.
  - split; [reflexivity|].
    destruct (Hlocal "/d") as [Hok _]. by apply (Hok local).
  - split; [reflexivity|]. split; [reflexivity|].
    destruct (Hremote repo (fmap (M:=list) PurePath.of_string ["a.csv"; "b.json"; "c.txt"])
                eq_refl) as [Hok _].
    by apply (Hok remote).
Defined.

(** C2 as stated fails: with the allow-list [csv], the file [a.csv.gz] is
    kept, in a repository and locally, though its final suffix is [.gz]. *)
Lemma extension_filter_is_not_on_the_final_suffix :
  let E := externals_of ["/d/a.csv.gz"] in
  let repo :=
    {| id := "user/demo"; sha := "0ca0d9f";
       siblings := [ {| rfilename := "a.csv.gz" |} ] |} in
  _resolve_single_pattern_in_dataset_repository repo "*" (Some ["csv"])
    = Ok [PurePath.of_string "a.csv.gz"]
  ∧ _resolve_single_pattern_locally "/d" "*" (Some ["csv"])
    = Ok [PurePath.of_string "/d/a.csv.gz"]
  ∧ final_suffix (PurePath.of_string "a.csv.gz") = ".gz"
  ∧ final_suffix (PurePath.of_string "/d/a.csv.gz") = ".gz"
  ∧ tail ".gz" ∉ ["csv"].
Proof.
  intros E repo. repeat split; try reflexivity.
  by intros [=]%list_elem_of_singleton.
Qed.

(** ** Lists of patterns *)

Section mapM.
Context {A B : Type} (f : A → result B).

Lemma mapM_Ok_inv (d : B) (l : list A) (k : list B) :
  mapM f l = Ok k →
  Forall (λ x, is_Ok (f x) = true) l ∧ k = (λ x, value_or d (f x)) <$> l.
Proof.
  revert k. induction l as [|x l IH]; intros k; simpl.
  - intros [= <-]. by split.
  - destruct (f x) as [y|e] eqn:Hx; simpl; [|done].
    destruct (mapM f l) as [k'|e]; simpl; [|done].
    intros [= <-]. destruct (IH k' eq_refl) as [Hall ->].
    split; [constructor; [by rewrite Hx | assumption] | done].
Qed.

Lemma mapM_Ok_intro (d : B) (l : list A) :
  Forall (λ x, is_Ok (f x) = true) l →
  mapM f l = Ok ((λ x, value_or d (f x)) <$> l).
Proof.
  induction 1 as [|x l Hx _ IH]; simpl; [done|].
  rewrite IH. by destruct (f x).
Qed.

Lemma mapM_Ok_Forall2 (l : list A) (k : list B) :
  mapM f l = Ok k ↔ Forall2 (λ x y, f x = Ok y) l k.
Proof.
  revert k. induction l as [|x l IH]; intros k; simpl.
  - split; [intros [= <-]; constructor | by inversion 1].
  - split.
    + destruct (f x) as [y|e] eqn:Hx; simpl; [|done].
      destruct (mapM f l) as [k'|e]; simpl; [|done].
      intros [= <-]. constructor; [done | by apply IH].
    + inversion 1 as [|? y ? k' Hx Hrest]; subst. rewrite Hx. simpl.
      apply IH in Hrest. by rewrite Hrest.
Qed.

Lemma mapM_Ok_length (l : list A) (k : list B) :
  mapM f l = Ok k → length k = length l.
Proof. rewrite mapM_Ok_Forall2. intros H. symmetry. by eapply Forall2_length. Qed.

Lemma mapM_Raise_app (l1 l2 : list A) (e : exn) :
  mapM f (l1 ++ l2) = Raise e →
  mapM f l1 = Raise e ∨ (is_Ok (mapM f l1) = true ∧ mapM f l2 = Raise e).
Proof.
  induction l1 as [|x l1 IH]; simpl; [auto|].
  destruct (f x) as [y|e']; simpl; [|auto].
  destruct (mapM f (l1 ++ l2)) as [k|e'] eqn:Happ; simpl; [done|].
  intros [= ->]. destruct (IH eq_refl) as [->|[Hok ->]]; [auto|].
  right. split; [|done]. by destruct (mapM f l1).
Qed.

Lemma mapM_Ok_app (l1 l2 : list A) (k1 k2 : list B) :
  mapM f l1 = Ok k1 → mapM f l2 = Ok k2 → mapM f (l1 ++ l2) = Ok (k1 ++ k2).
Proof.
  rewrite !mapM_Ok_Forall2. apply Forall2_app.
Qed.

(** The order of the arguments does not decide whether all calls succeed,
    and permutes the results. *)
Lemma mapM_Ok_Permutation (l l' : list A) (k : list B) :
  mapM f l = Ok k → l' ≡ₚ l → ∃ k', mapM f l' = Ok k' ∧ k' ≡ₚ k.
Proof.
  destruct k as [|d k0].
  - intros Hk Hperm. apply mapM_Ok_length in Hk as Hlen.
    destruct l; [|done]. apply Permutation_nil_r in Hperm as ->. by exists [].
  - intros [Hall ->]%(mapM_Ok_inv d) Hperm.
    exists ((λ x, value_or d (f x)) <$> l'). split.
    + apply mapM_Ok_intro. by rewrite Hperm.
    + by rewrite Hperm.
Qed.

End mapM.

Section pattern_lists.
Context `{!Externals}.

Lemma files_of_pattern_url (base_path : string)
    (allowed_extensions : option (list string)) (pattern : string) :
  is_remote_url pattern = true →
  files_of_pattern base_path allowed_extensions pattern = Ok [Url pattern].
Proof. unfold files_of_pattern. by intros ->. Qed.

Lemma files_of_pattern_local (base_path : string)
    (allowed_extensions : option (list string)) (pattern : string) :
  is_remote_url pattern = false →
  files_of_pattern base_path allowed_extensions pattern
  = fmap (M:=list) LocalPath
      <$> _resolve_single_pattern_locally base_path pattern allowed_extensions.
Proof. unfold files_of_pattern. by intros ->. Qed.

Lemma collect_locally_or_by_urls_spec (base_path : string)
    (allowed_extensions : option (list string)) (patterns : list string)
    (data_files : list DataFile) :
  collect_locally_or_by_urls base_path allowed_extensions patterns data_files
  = (chunks ← mapM (files_of_pattern base_path allowed_extensions) patterns;
     Ok (data_files ++ concat chunks)).
Proof.
  revert data_files. induction patterns as [|pattern rest IH]; intros data_files.
  - simpl. by rewrite app_nil_r.
  - cbn [collect_locally_or_by_urls mapM].
    destruct (is_remote_url pattern) eqn:Hurl.
    + rewrite (files_of_pattern_url _ _ _ Hurl).
      etrans; [apply IH|]. simpl.
      destruct (mapM _ rest) as [chunks|e]; simpl; [|done].
      by rewrite <- app_assoc.
    + rewrite (files_of_pattern_local _ _ _ Hurl).
      destruct (_resolve_single_pattern_locally _ _ _) as [paths|e]; simpl; [|done].
      etrans; [apply IH|].
      destruct (mapM _ rest) as [chunks|e]; simpl; [|done].
      by rewrite <- app_assoc.
Qed.

Lemma collect_in_dataset_repository_spec (dataset_info : DatasetInfo)
    (allowed_extensions : option (list string)) (patterns : list string)
    (data_files_urls : list DataFile) :
  collect_in_dataset_repository dataset_info allowed_extensions patterns
    data_files_urls
  = (chunks ← mapM (urls_of_pattern dataset_info allowed_extensions) patterns;
     Ok (data_files_urls ++ concat chunks)).
Proof.
  revert data_files_urls.
  induction patterns as [|pattern rest IH]; intros data_files_urls.
  - simpl. by rewrite app_nil_r.
  - cbn [collect_in_dataset_repository mapM].
    assert (urls_of_pattern dataset_info allowed_extensions pattern
            = fmap (M:=list) (url_of dataset_info)
                <$> _resolve_single_pattern_in_dataset_repository dataset_info
                      pattern allowed_extensions) as -> by done.
    destruct (_resolve_single_pattern_in_dataset_repository _ _ _)
      as [paths|e]; simpl; [|done].
    etrans; [apply IH|].
    destruct (mapM _ rest) as [chunks|e]; simpl; [|done].
    by rewrite <- app_assoc.
Qed.

(** Both resolvers of lists succeed exactly when every pattern resolves and
    some pattern gives a file, and then give the files of the patterns one
    after the other. *)
Lemma resolve_patterns_locally_or_by_urls_Ok (base_path : string)
    (patterns : list string) (allowed_extensions : option (list string))
    (out : list DataFile) :
  resolve_patterns_locally_or_by_urls base_path patterns allowed_extensions = Ok out
  ↔ ∃ chunks,
      mapM (files_of_pattern base_path allowed_extensions) patterns = Ok chunks
      ∧ out = concat chunks ∧ out ≠ [].
Proof.
  unfold resolve_patterns_locally_or_by_urls.
  rewrite collect_locally_or_by_urls_spec.
  destruct (mapM _ patterns) as [chunks|e]; simpl.
  - case_bool_decide as Hempty.
    + split; [done|]. intros (? & [= <-] & -> & ?). done.
    + split.
      * intros [= <-]. by exists chunks.
      * intros (? & [= <-] & -> & ?). done.
  - split; [done|]. intros (? & [=] & _).
Qed.

Lemma resolve_patterns_in_dataset_repository_Ok (dataset_info : DatasetInfo)
    (patterns : list string) (allowed_extensions : option (list string))
    (out : list DataFile) :
  resolve_patterns_in_dataset_repository dataset_info patterns allowed_extensions
    = Ok out
  ↔ ∃ chunks,
      mapM (urls_of_pattern dataset_info allowed_extensions) patterns = Ok chunks
      ∧ out = concat chunks ∧ out ≠ [].
Proof.
  unfold resolve_patterns_in_dataset_repository.
  rewrite collect_in_dataset_repository_spec.
  destruct (mapM _ patterns) as [chunks|e]; simpl.
  - case_bool_decide as Hempty.
    + split; [done|]. intros (? & [= <-] & -> & ?). done.
    + split.
      * intros [= <-]. by exists chunks.
      * intros (? & [= <-] & -> & ?). done.
  - split; [done|]. intros (? & [=] & _).
Qed.

End pattern_lists.

Lemma concat_Permutation {A} (k k' : list (list A)) :
  k ≡ₚ k' → concat k ≡ₚ concat k'.
Proof.
  induction 1 as [|c k k' _ IH|c c' k|k k' k'' _ IH _ IH']; simpl.
  - done.
  - by rewrite IH.
  - rewrite !app_assoc. by rewrite (Permutation_app_comm c c').
  - by rewrite IH.
Qed.

Section mapM_more.
Context {A B C : Type}.

Lemma mapM_ext_Forall (f g : A → result B) (l : list A) :
  Forall (λ x, f x = g x) l → mapM f l = mapM g l.
Proof. induction 1 as [|x l Hx _ IH]; simpl; [done|]. by rewrite Hx, IH. Qed.

Lemma mapM_fmap_Ok (f : A → result B) (g : B → C) (l : list A) (k : list C) :
  mapM (λ x, g <$> f x) l = Ok k → ∃ k0, mapM f l = Ok k0 ∧ k = g <$> k0.
Proof.
  revert k. induction l as [|x l IH]; intros k; simpl.
  - intros [= <-]. by exists [].
  - destruct (f x) as [y|e]; simpl; [|done].
    destruct (mapM (λ x, g <$> f x) l) as [k'|e]; simpl; [|done].
    intros [= <-]. destruct (IH k' eq_refl) as (k0 & -> & ->).
    by exists (y :: k0).
Qed.

Lemma concat_mapM_Permutation (f : A → result (list B)) (l l' : list A)
    (k : list (list B)) :
  mapM f l = Ok k → l' ≡ₚ l →
  ∃ k', mapM f l' = Ok k' ∧ concat k' ≡ₚ concat k.
Proof.
  intros Hk Hperm.
  destruct (mapM_Ok_Permutation f l l' k Hk Hperm) as (k' & Hk' & Hperm').
  exists k'. split; [done|]. by apply concat_Permutation.
Qed.

End mapM_more.

Lemma concat_fmap_fmap {A B} (g : A → B) (k : list (list A)) :
  concat (fmap (M:=list) g <$> k) = g <$> concat k.
Proof.
  induction k as [|c k IH]; [done|].
  rewrite fmap_cons. cbn [concat]. by rewrite fmap_app, IH.
Qed.

Section sortedness.
Context `{!Externals}.

Lemma _resolve_single_pattern_locally_sorted (base_path pattern : string)
    (allowed_extensions : option (list string)) (out : list PurePath) :
  _resolve_single_pattern_locally base_path pattern allowed_extensions = Ok out →
  StronglySorted path_le out.
Proof.
  unfold _resolve_single_pattern_locally.
  destruct (_ && _); [done|]. intros [= <-]. apply sorted_paths_Sorted.
Qed.

Lemma _resolve_single_pattern_in_dataset_repository_sorted
    (dataset_info : DatasetInfo) (pattern : string)
    (allowed_extensions : option (list string)) (out : list PurePath) :
  _resolve_single_pattern_in_dataset_repository dataset_info pattern
    allowed_extensions = Ok out →
  StronglySorted path_le out.
Proof.
  unfold _resolve_single_pattern_in_dataset_repository.
  destruct (matched_paths_in_repository _ _) as [matched_paths|e]; simpl; [|done].
  destruct (_ && _); [done|]. intros [= <-]. apply sorted_paths_Sorted.
Qed.

(** The files of a list of patterns, from a function [resolve] that
    resolves one pattern to sorted paths and a function [file] that makes a
    data file of a path. *)
Lemma chunks_of_patterns (resolve_one : string → result (list PurePath))
    (file : PurePath → DataFile) (patterns : list string) (out : list DataFile) :
  (∀ pattern chunk, resolve_one pattern = Ok chunk → StronglySorted path_le chunk) →
  (∃ chunks,
     mapM (λ pattern, fmap (M:=list) file <$> resolve_one pattern) patterns = Ok chunks
     ∧ out = concat chunks ∧ out ≠ []) →
  ∃ chunks,
    Forall2 (λ pattern chunk,
               resolve_one pattern = Ok chunk ∧ StronglySorted path_le chunk)
            patterns chunks
    ∧ out = file <$> concat chunks
    ∧ ∀ patterns', patterns' ≡ₚ patterns →
        ∃ chunks',
          mapM (λ pattern, fmap (M:=list) file <$> resolve_one pattern) patterns'
            = Ok chunks'
          ∧ concat chunks' ≠ [] ∧ concat chunks' ≡ₚ out.
Proof.
  intros Hsorted (chunks & Hchunks & -> & Hne).
  destruct (mapM_fmap_Ok _ _ _ _ Hchunks) as (chunks0 & Hchunks0 & ->).
  exists chunks0. split; [|split].
  - apply mapM_Ok_Forall2 in Hchunks0.
    eapply Forall2_impl; [exact Hchunks0|]. intros pattern chunk Hok.
    simpl in Hok. split; [done | by eapply Hsorted].
  - apply concat_fmap_fmap.
  - intros patterns' Hperm.
    destruct (concat_mapM_Permutation _ _ _ _ Hchunks Hperm) as (chunks' & Hok & Hp).
    exists chunks'. split; [done|]. split; [|done].
    intros Hnil. rewrite Hnil in Hp. by apply Permutation_nil in Hp.
Qed.

End sortedness.

(** C3 (amended). The files of a list of patterns that are no URLs are the
    files of the first pattern, then those of the second, and so on: the
    files of each pattern are sorted, the list as a whole follows the order
    of the patterns. Another order of the same patterns gives the same
    files, each as often, in an order that may differ. This holds locally
    and in a repository. *)
Theorem resolved_files_follow_the_order_of_patterns `{!Externals}
    (patterns : list string) (allowed_extensions : option (list string)) :
  (∀ base_path out,
     Forall (λ pattern, is_remote_url pattern = false) patterns →
     resolve_patterns_locally_or_by_urls base_path patterns allowed_extensions
       = Ok out →
     ∃ chunks,
       Forall2 (λ pattern chunk,
                  _resolve_single_pattern_locally base_path pattern
                    allowed_extensions = Ok chunk
                  ∧ StronglySorted path_le chunk)
               patterns chunks
       ∧ out = LocalPath <$> concat chunks
       ∧ ∀ patterns', patterns' ≡ₚ patterns →
           ∃ out',
             resolve_patterns_locally_or_by_urls base_path patterns'
               allowed_extensions = Ok out'
             ∧ out' ≡ₚ out)
  ∧ (∀ dataset_info out,
       resolve_patterns_in_dataset_repository dataset_info patterns
         allowed_extensions = Ok out →
       ∃ chunks,
         Forall2 (λ pattern chunk,
                    _resolve_single_pattern_in_dataset_repository dataset_info
                      pattern allowed_extensions = Ok chunk
                    ∧ StronglySorted path_le chunk)
                 patterns chunks
         ∧ out = url_of dataset_info <$> concat chunks
         ∧ ∀ patterns', patterns' ≡ₚ patterns →
             ∃ out',
               resolve_patterns_in_dataset_repository dataset_info patterns'
                 allowed_extensions = Ok out'
               ∧ out' ≡ₚ out).
Proof.
  split.
  - intros base_path out Hlocal Hout.
    apply resolve_patterns_locally_or_by_urls_Ok in Hout.
    assert (Hext : ∀ l, Forall (λ pattern, is_remote_url pattern = false) l →
      mapM (files_of_pattern base_path allowed_extensions) l
      = mapM (λ pattern, fmap (M:=list) LocalPath
                <$> _resolve_single_pattern_locally base_path pattern
                      allowed_extensions) l).
    { intros l Hl. apply mapM_ext_Forall.
      eapply Forall_impl; [exact Hl|]. intros. by apply files_of_pattern_local. }
    rewrite Hext in Hout by done.
    destruct (chunks_of_patterns
                (λ pattern, _resolve_single_pattern_locally base_path pattern
                              allowed_extensions)
                LocalPath patterns out) as (chunks & Hall & -> & Hperm).
    { intros ??. apply _resolve_single_pattern_locally_sorted. }
    { exact Hout. }
    exists chunks. split; [done|]. split; [done|].
    intros patterns' Hp. destruct (Hperm _ Hp) as (chunks' & Hok & Hne & Hpc).
    exists (concat chunks'). split; [|done].
    apply resolve_patterns_locally_or_by_urls_Ok. exists chunks'.
    rewrite Hext by (by rewrite Hp). done.
  - intros dataset_info out Hout.
    apply resolve_patterns_in_dataset_repository_Ok in Hout.
    destruct (chunks_of_patterns
                (λ pattern, _resolve_single_pattern_in_dataset_repository
                              dataset_info pattern allowed_extensions)
                (url_of dataset_info) patterns out) as (chunks & Hall & -> & Hperm).
    { intros ??. apply _resolve_single_pattern_in_dataset_repository_sorted. }
    { exact Hout. }
    exists chunks. split; [done|]. split; [done|].
    intros patterns' Hp. destruct (Hperm _ Hp) as (chunks' & Hok & Hne & Hpc).
    exists (concat chunks'). split; [|done].
    apply resolve_patterns_in_dataset_repository_Ok. by exists chunks'.
Qed.

Lemma resolved_files_follow_the_order_of_patterns_witness :
  let E := externals_of ["/d/a1.csv"; "/d/a2.csv"; "/d/b1.csv"] in
  let repo :=
    {| id := "user/demo"; sha := "0ca0d9f";
       siblings := [ {| rfilename := "a1.csv" |}; {| rfilename := "a2.csv" |};
                     {| rfilename := "b1.csv" |} ] |} in
  let out := LocalPath ∘ PurePath.of_string <$> ["/d/b1.csv"; "/d/a1.csv"; "/d/a2.csv"] in
  let urls := url_of repo ∘ PurePath.of_string <$> ["b1.csv"; "a1.csv"; "a2.csv"] in
  (Forall (λ pattern, is_remote_url pattern = false) ["b*"; "a*"]
   ∧ resolve_patterns_locally_or_by_urls "/d" ["b*"; "a*"] None = Ok out
   ∧ ∃ out', resolve_patterns_locally_or_by_urls "/d" ["a*"; "b*"] None = Ok out'
             ∧ out' ≡ₚ out)
  ∧ (resolve_patterns_in_dataset_repository repo ["b*"; "a*"] None = Ok urls
     ∧ ∃ out', resolve_patterns_in_dataset_repository repo ["a*"; "b*"] None = Ok out'
               ∧ out' ≡ₚ urls).
Proof.
  intros E repo out urls.
  assert (Hlocal : Forall (λ pattern, is_remote_url pattern = false) ["b*"; "a*"])
    by (by repeat constructor).
  destruct (resolved_files_follow_the_order_of_patterns ["b*"; "a*"] None)
    as [Hl Hr].
  split.
  - split; [exact Hlocal|]. split; [reflexivity|].
    destruct (Hl "/d" out Hlocal eq_refl) as (chunks & _ & _ & Hperm).
    apply Hperm, perm_swap.
  - split; [reflexivity|].
    destruct (Hr repo urls eq_refl) as (chunks & _ & _ & Hperm).
    apply Hperm, perm_swap.
Defined.

(** C3 as stated fails: the files of [b.csv] come before those of [a.csv]
    when the patterns are given in this order, so the list is not sorted as
    a whole, and the other order of the two patterns gives another list. *)
Lemma resolved_files_are_not_sorted_as_a_whole :
  let E := externals_of ["/d/a.csv"; "/d/b.csv"] in
  let repo :=
    {| id := "user/demo"; sha := "0ca0d9f";
       siblings := [ {| rfilename := "a.csv" |}; {| rfilename := "b.csv" |} ] |} in
  let a := PurePath.of_string "/d/a.csv" in
  let b := PurePath.of_string "/d/b.csv" in
  let url_a := "https://huggingface.co/datasets/user/demo/resolve/0ca0d9f/a.csv" in
  let url_b := "https://huggingface.co/datasets/user/demo/resolve/0ca0d9f/b.csv" in
  Forall (λ pattern, is_remote_url pattern = false) ["b.csv"; "a.csv"]
  ∧ resolve_patterns_locally_or_by_urls "/d" ["b.csv"; "a.csv"] None
    = Ok [LocalPath b; LocalPath a]
  ∧ resolve_patterns_locally_or_by_urls "/d" ["a.csv"; "b.csv"] None
    = Ok [LocalPath a; LocalPath b]
  ∧ PurePath.ltb a b = true
  ∧ resolve_patterns_in_dataset_repository repo ["b.csv"; "a.csv"] None
    = Ok [Url url_b; Url url_a]
  ∧ resolve_patterns_in_dataset_repository repo ["a.csv"; "b.csv"] None
    = Ok [Url url_a; Url url_b]
  ∧ String.ltb url_a url_b = true.
Proof.
  intros E repo a b url_a url_b. split; [by repeat constructor|].
  repeat split; reflexivity.
Qed.

(** C10. A pattern that is a remote URL is returned as it is, as a [Url]:
    alone it is the whole result, whatever the file system holds and
    whatever the allowed extensions are, and among other patterns it stands
    at its place between their files. It raises nothing: an error of the
    resolution is the error of another pattern. *)
Theorem url_pattern_is_returned_as_is `{!Externals}
    (base_path : string) (allowed_extensions : option (list string))
    (pattern : string) :
  is_remote_url pattern = true →
  resolve_patterns_locally_or_by_urls base_path [pattern] allowed_extensions
    = Ok [Url pattern]
  ∧ (∀ before after files_before files_after,
       mapM (files_of_pattern base_path allowed_extensions) before = Ok files_before →
       mapM (files_of_pattern base_path allowed_extensions) after = Ok files_after →
       resolve_patterns_locally_or_by_urls base_path (before ++ pattern :: after)
         allowed_extensions
       = Ok (concat files_before ++ Url pattern :: concat files_after))
  ∧ (∀ before after e,
       resolve_patterns_locally_or_by_urls base_path (before ++ pattern :: after)
         allowed_extensions = Raise e →
       mapM (files_of_pattern base_path allowed_extensions) before = Raise e
       ∨ mapM (files_of_pattern base_path allowed_extensions) after = Raise e).
Proof.
  intros Hurl.
  assert (Hone : ∀ after chunks,
    mapM (files_of_pattern base_path allowed_extensions) after = Ok chunks →
    mapM (files_of_pattern base_path allowed_extensions) (pattern :: after)
    = Ok ([Url pattern] :: chunks)).
  { intros after chunks Hafter. cbn [mapM].
    rewrite (files_of_pattern_url _ _ _ Hurl), Hafter. done. }
  split; [|split].
  - apply resolve_patterns_locally_or_by_urls_Ok. exists [[Url pattern]].
    split; [by apply (Hone [] []) | done].
  - intros before after files_before files_after Hbefore Hafter.
    apply resolve_patterns_locally_or_by_urls_Ok.
    exists (files_before ++ [Url pattern] :: files_after). split; [|split].
    + apply mapM_Ok_app; [done | by apply Hone].
    + by rewrite concat_app.
    + intros Hnil. apply app_eq_nil in Hnil as [_ [=]].
  - intros before after e. unfold resolve_patterns_locally_or_by_urls.
    rewrite collect_locally_or_by_urls_spec.
    destruct (mapM _ (before ++ pattern :: after)) as [chunks|e'] eqn:Hall; simpl.
    + case_bool_decide as Hnil; [|done].
      apply mapM_Ok_Forall2, Forall2_app_inv_l in Hall
        as (cb & ca & _ & Hca & ->).
      inversion Hca as [|? chunk ? ca' Hchunk _]; subst.
      rewrite (files_of_pattern_url _ _ _ Hurl) in Hchunk.
      injection Hchunk as <-. rewrite concat_app in Hnil. simpl in Hnil.
      apply app_eq_nil in Hnil as [_ [=]].
    + intros [= ->]. apply mapM_Raise_app in Hall as [?|[_ Hrest]]; [auto|].
      right. cbn [mapM] in Hrest.
      rewrite (files_of_pattern_url _ _ _ Hurl) in Hrest. simpl in Hrest.
      by destruct (mapM _ after).
Qed.

Lemma url_pattern_is_returned_as_is_witness :
  let E := externals_of [] in
  let url := "https://example.org/missing.csv" in
  is_remote_url url = true
  ∧ resolve_patterns_locally_or_by_urls "/d" [url] (Some ["json"]) = Ok [Url url].
Proof.
  intros E url. split; [reflexivity|].
  by apply (url_pattern_is_returned_as_is "/d" (Some ["json"]) url).
Defined.

(** ** Dicts *)

Section dict_facts.
Context {K V : Type} `{EqDecision K}.
Implicit Types (d : dict K V) (l : list (K * V)).

Lemma setitem_fresh d k v : k ∉ keys d → setitem d k v = d ++ [(k, v)].
Proof.
  unfold keys. induction d as [|[k' v'] d IH]; csimpl; [done|].
  intros [Hne Hnotin]%not_elem_of_cons.
  rewrite decide_False by done. by rewrite IH.
Qed.

Lemma keys_setitem_present d k v : k ∈ keys d → keys (setitem d k v) = keys d.
Proof.
  unfold keys. induction d as [|[k' v'] d IH]; csimpl.
  - by intros ?%elem_of_nil.
  - destruct (decide (k = k')) as [->|Hne]; [done|].
    intros [?|Hin]%elem_of_cons; [done|]. csimpl. by rewrite IH.
Qed.

Lemma elem_of_keys_setitem d k v k' :
  k' ∈ keys (setitem d k v) ↔ k' = k ∨ k' ∈ keys d.
Proof.
  destruct (decide (k ∈ keys d)) as [Hin|Hnotin].
  - rewrite keys_setitem_present by done. split; [auto|]. by intros [->|?].
  - rewrite setitem_fresh by done. unfold keys. rewrite fmap_app, elem_of_app.
    csimpl. rewrite list_elem_of_singleton. tauto.
Qed.

Lemma wf_setitem d k v : wf d → wf (setitem d k v).
Proof.
  unfold wf. intros Hwf. destruct (decide (k ∈ keys d)) as [Hin|Hnotin].
  - by rewrite keys_setitem_present.
  - rewrite setitem_fresh by done. unfold keys in *. rewrite fmap_app. csimpl.
    apply NoDup_app. split; [done|]. split; [|apply NoDup_singleton].
    intros k' Hk' ->%list_elem_of_singleton. done.
Qed.

Lemma get_setitem d k v k' :
  get (setitem d k v) k' = if decide (k' = k) then Some v else get d k'.
Proof.
  induction d as [|[k0 v0] d IH]; csimpl.
  - by destruct (decide (k' = k)).
  - destruct (decide (k = k0)) as [->|Hne]; csimpl.
    + by destruct (decide (k' = k0)).
    + destruct (decide (k' = k0)) as [->|Hne'].
      * by rewrite decide_False by done.
      * apply IH.
Qed.

Lemma get_Some_elem_of d k v : wf d → get d k = Some v ↔ (k, v) ∈ d.
Proof.
  unfold wf, keys. induction d as [|[k0 v0] d IH]; csimpl.
  - intros _. split; [done | by intros ?%elem_of_nil].
  - intros [Hnotin Hwf]%NoDup_cons.
    destruct (decide (k = k0)) as [->|Hne].
    + split; [intros [= ->]; by left|].
      intros [[= ->]|Hin]%elem_of_cons; [done|].
      destruct Hnotin. by apply (list_elem_of_fmap_2 fst) in Hin.
    + rewrite IH by done. split; [by right|].
      intros [[= -> ->]|Hin]%elem_of_cons; done.
Qed.

Lemma wf_assign_all d l : wf d → wf (assign_all d l).
Proof.
  revert d. induction l as [|[k v] l IH]; intros d Hwf; csimpl; [done|].
  by apply IH, wf_setitem.
Qed.

Lemma elem_of_keys_assign_all d l k :
  k ∈ keys (assign_all d l) ↔ k ∈ keys d ∨ k ∈ l.*1.
Proof.
  revert d. induction l as [|[k' v] l IH]; intros d; csimpl.
  - rewrite elem_of_nil. tauto.
  - rewrite IH, elem_of_keys_setitem, elem_of_cons. tauto.
Qed.

Lemma assign_all_fresh d l : NoDup (keys d ++ l.*1) → assign_all d l = d ++ l.
Proof.
  revert d. induction l as [|[k v] l IH]; intros d; csimpl.
  - intros _. by rewrite app_nil_r.
  - intros Hnodup.
    assert (k ∉ keys d) as Hfresh.
    { apply NoDup_app in Hnodup as (_ & Hdisj & _).
      intros Hin. apply (Hdisj k Hin). by left. }
    rewrite setitem_fresh by done. rewrite IH.
    + by rewrite <- app_assoc.
    + unfold keys in *. rewrite fmap_app, <- app_assoc. done.
Qed.

Lemma get_assign_all_Some d l k v :
  get (assign_all d l) k = Some v → get d k = Some v ∨ (k, v) ∈ l.
Proof.
  revert d. induction l as [|[k' v'] l IH]; intros d; csimpl; [auto|].
  intros [Hget|Hin]%IH; [|right; by right].
  rewrite get_setitem in Hget. destruct (decide (k = k')) as [->|Hne]; [|auto].
  injection Hget as ->. right. by left.
Qed.

Lemma of_items_NoDup l : NoDup l.*1 → of_items l = l.
Proof. intros Hnodup. by apply (assign_all_fresh [] l). Qed.

Lemma wf_of_items l : wf (of_items l).
Proof. apply (wf_assign_all [] l), NoDup_nil_2. Qed.

Lemma elem_of_keys_of_items l k : k ∈ keys (of_items l) ↔ k ∈ l.*1.
Proof.
  unfold of_items. rewrite elem_of_keys_assign_all. unfold keys. csimpl. rewrite elem_of_nil. tauto.
Qed.

Lemma get_of_items_Some l k v : get (of_items l) k = Some v → (k, v) ∈ l.
Proof. intros [?|?]%(get_assign_all_Some [] l); done. Qed.

End dict_facts.

(** ** Patterns given by the user *)

(** C8. [sanitize_patterns] raises nothing on a [str], a list or a dict, and
    always gives a dict from split names to lists of patterns: a [str] and a
    list go to the one split [train]; of a dict, the keys go through [str],
    a value that is a list is kept and any other value becomes the list of
    itself. *)
Theorem sanitize_patterns_formats_every_shape {K P : Type} (str : K → string) :
  (∀ pattern : P,
     sanitize_patterns str (StrArg pattern) = Ok [("train", [pattern])])
  ∧ (∀ patterns : list P,
       sanitize_patterns str (ListArg patterns) = Ok [("train", patterns)])
  ∧ (∀ d : dict K (PatternsValue P),
       ∃ out,
         sanitize_patterns str (DictArg d) = Ok out
         ∧ wf out
         ∧ (∀ split, split ∈ keys out ↔ ∃ key, key ∈ keys d ∧ split = str key)
         ∧ (∀ split patterns,
              get out split = Some patterns →
              ∃ key value, (key, value) ∈ d ∧ split = str key
                           ∧ patterns = as_list value)
         ∧ (NoDup (str <$> keys d) →
            out = (λ '(key, value), (str key, as_list value)) <$> d)).
Proof.
  split; [done|]. split; [done|]. intros d.
  set (formatted := (λ '(key, value), (str key, as_list value)) <$> d).
  assert (Hkeys : formatted.*1 = str <$> keys d).
  { unfold formatted, keys. rewrite <- !list_fmap_compose.
    apply list_fmap_ext; by intros ? [key value] ?. }
  exists (of_items formatted). split; [|split; [|split; [|split]]].
  - reflexivity.
  - apply wf_of_items.
  - intros split. rewrite elem_of_keys_of_items, Hkeys, list_elem_of_fmap.
    split; intros (key & ? & ?); by exists key.
  - intros split patterns Hget%get_of_items_Some.
    apply list_elem_of_fmap in Hget as ([key value] & [= -> ->] & Hin).
    by exists key, value.
  - intros Hnodup. apply of_items_NoDup. by rewrite Hkeys.
Qed.

Lemma sanitize_patterns_formats_every_shape_witness :
  let str := λ key : string, key in
  let d : dict string (PatternsValue string) :=
    [("train", OtherValue "train.csv"); ("test", ListValue ["a.csv"; "b.csv"])] in
  NoDup (str <$> keys d)
  ∧ sanitize_patterns str (DictArg d)
    = Ok [("train", ["train.csv"]); ("test", ["a.csv"; "b.csv"])].
Proof.
  intros str d.
  assert (Hnodup : NoDup (str <$> keys d))
    by (apply (bool_decide_unpack _); vm_compute; exact I).
  split; [exact Hnodup|].
  destruct (sanitize_patterns_formats_every_shape (P:=string) str)
    as (_ & _ & Hdict).
  destruct (Hdict d) as (out & -> & _ & _ & _ & Hout).
  by rewrite (Hout Hnodup).
Defined.

(** ** The reduction of a [DataFilesDict] *)

Lemma not_after_item_ltb (x y : string * DataFilesList) :
  not_after item_ltb x y ↔ String.le x.1 y.1.
Proof. unfold not_after, item_ltb. apply String_ltb_false. Qed.

Global Instance item_le_total : Total (not_after item_ltb).
Proof.
  intros x y. rewrite !not_after_item_ltb. apply (total String.le).
Qed.

Global Instance item_le_trans : Transitive (not_after item_ltb).
Proof.
  intros x y z. rewrite !not_after_item_ltb. apply (transitivity (R:=String.le)).
Qed.

Lemma wf_NoDup (d : DataFilesDict) : wf d → NoDup d.
Proof. apply (NoDup_fmap_1 fst). Qed.

(** Two dicts with the same value, or none, at every key hold the same
    items. *)
Lemma same_content_Permutation (d1 d2 : DataFilesDict) :
  wf d1 → wf d2 → (∀ split, get d1 split = get d2 split) → d1 ≡ₚ d2.
Proof.
  intros Hwf1 Hwf2 Hsame. apply NoDup_Permutation; [by apply wf_NoDup..|].
  intros [split files]. rewrite <- !get_Some_elem_of by done. by rewrite Hsame.
Qed.

(** The sorted items depend on the items only, not on their order. *)
Lemma sorted_items_unique (d1 d2 : DataFilesDict) :
  wf d1 → d1 ≡ₚ d2 → sorted item_ltb d1 = sorted item_ltb d2.
Proof.
  intros Hwf Hperm.
  apply (StronglySorted_unique_strong (not_after item_ltb)).
  - intros [k1 v1] [k2 v2] Hin1 Hin2 Hle1 Hle2.
    rewrite sorted_Permutation in Hin1. rewrite sorted_Permutation, <- Hperm in Hin2.
    apply not_after_item_ltb in Hle1, Hle2. simpl in *.
    assert (k1 = k2) as -> by (by apply (anti_symm String.le)).
    apply get_Some_elem_of in Hin1, Hin2; [|done..]. congruence.
  - apply (StronglySorted_merge_sort (not_after item_ltb)).
  - apply (StronglySorted_merge_sort (not_after item_ltb)).
  - by rewrite !sorted_Permutation.
Qed.

(** The reduction holds the items of the dict, in the order of the keys. *)
Lemma DataFilesDict_reduce_sorted (d : DataFilesDict) :
  wf d →
  DataFilesDict_reduce d = sorted item_ltb d
  ∧ DataFilesDict_reduce d ≡ₚ d
  ∧ StronglySorted String.le (keys (DataFilesDict_reduce d)).
Proof.
  intros Hwf. unfold DataFilesDict_reduce, items.
  rewrite of_items_NoDup.
  - split; [done|]. split; [apply sorted_Permutation|].
    pose proof (StronglySorted_merge_sort (not_after item_ltb) d) as Hsorted.
    fold (sorted item_ltb d) in Hsorted. unfold keys.
    induction Hsorted as [|x l _ IH Hall]; csimpl; constructor; [done|].
    apply Forall_fmap. eapply Forall_impl; [exact Hall|].
    intros y. apply not_after_item_ltb.
  - unfold wf, keys in Hwf. by rewrite sorted_Permutation.
Qed.

(** C7. Two [DataFilesDict] that hold the same list of data files at every
    split, whatever the order in which their keys were inserted, have the
    same reduction, and so the same hash, the hash being computed from the
    reduction. *)
Theorem reduction_ignores_the_order_of_keys (d1 d2 : DataFilesDict) :
  wf d1 → wf d2 →
  (∀ split, get d1 split = get d2 split) →
  DataFilesDict_reduce d1 = DataFilesDict_reduce d2
  ∧ ∀ (Hash : Type) (hash : DataFilesDict → Hash),
      hash (DataFilesDict_reduce d1) = hash (DataFilesDict_reduce d2).
Proof.
  intros Hwf1 Hwf2 Hsame.
  assert (DataFilesDict_reduce d1 = DataFilesDict_reduce d2) as Heq.
  { unfold DataFilesDict_reduce, items. f_equal.
    by apply sorted_items_unique, same_content_Permutation. }
  split; [done|]. intros Hash hash. by rewrite Heq.
Qed.

Lemma reduction_ignores_the_order_of_keys_witness :
  let train := {| data_files := [Url "https://example.org/train.csv"];
                  origin_metadata := [["etag-1"]] |} in
  let test := {| data_files := [Url "https://example.org/test.csv"];
                 origin_metadata := [["etag-2"]] |} in
  let d1 : DataFilesDict := setitem (setitem [] "train" train) "test" test in
  let d2 : DataFilesDict := setitem (setitem [] "test" test) "train" train in
  d1 ≠ d2
  ∧ wf d1 ∧ wf d2
  ∧ (∀ split, get d1 split = get d2 split)
  ∧ DataFilesDict_reduce d1 = [("test", test); ("train", train)]
  ∧ DataFilesDict_reduce d2 = [("test", test); ("train", train)].
Proof.
  intros train test d1 d2.
  assert (Hwf1 : wf d1) by (by repeat apply wf_setitem; apply NoDup_nil_2).
  assert (Hwf2 : wf d2) by (by repeat apply wf_setitem; apply NoDup_nil_2).
  assert (Hsame : ∀ split, get d1 split = get d2 split).
  { intros split. unfold d1, d2. rewrite !get_setitem.
    repeat case_decide; congruence. }
  destruct (reduction_ignores_the_order_of_keys d1 d2 Hwf1 Hwf2 Hsame) as [Heq _].
  split; [done|]. do 3 (split; [done|]).
  split; [reflexivity | by rewrite <- Heq].
Defined.

(** ** Data files and their origin metadata *)

Section origin_metadata.
Context `{!Externals}.

(** Locally, every data file has its own metadata. *)
Lemma DataFilesList_from_local_or_remote_length (patterns : list string)
    (base_path : option string) (allowed_extensions : option (list string))
    (use_auth_token : AuthToken) (files : DataFilesList) :
  DataFilesList_from_local_or_remote patterns base_path allowed_extensions
    use_auth_token = Ok files →
  length (origin_metadata files) = length (data_files files).
Proof.
  unfold DataFilesList_from_local_or_remote.
  destruct (resolve_patterns_locally_or_by_urls _ _ _) as [resolved_files|e];
    simpl; [|done].
  destruct (_get_origin_metadata_locally_or_by_urls _ _) as [metadata|e] eqn:Hmeta;
    simpl; [|done].
  intros [= <-]. simpl. by apply mapM_Ok_length in Hmeta.
Qed.

(** In a repository, every pattern has the metadata of the repository. *)
Lemma DataFilesList_from_hf_repo_origin_metadata (patterns : list string)
    (dataset_info : DatasetInfo) (allowed_extensions : option (list string))
    (files : DataFilesList) :
  DataFilesList_from_hf_repo patterns dataset_info allowed_extensions = Ok files →
  origin_metadata files
  = replicate (length patterns) [id dataset_info; sha dataset_info].
Proof.
  unfold DataFilesList_from_hf_repo.
  destruct (resolve_patterns_in_dataset_repository _ _ _) as [urls|e];
    simpl; [|done].
  intros [= <-]. simpl. induction patterns as [|pattern rest IH]; [done|].
  csimpl. by rewrite IH.
Qed.

End origin_metadata.

(** C1, at an input where the code departs from it: the one pattern [*]
    resolves to the two files of the repository, and [from_hf_repo] pairs
    them with a single origin metadata, the one of the pattern. The second
    file has no metadata at its index. *)
Theorem from_hf_repo_gives_one_origin_metadata_per_pattern :
  let E := externals_of [] in
  let repo :=
    {| id := "user/demo"; sha := "0ca0d9f";
       siblings := [ {| rfilename := "a.csv" |}; {| rfilename := "b.csv" |} ] |} in
  ∃ files,
    DataFilesList_from_hf_repo ["*"] repo None = Ok files
    ∧ data_files files
      = [Url "https://huggingface.co/datasets/user/demo/resolve/0ca0d9f/a.csv";
         Url "https://huggingface.co/datasets/user/demo/resolve/0ca0d9f/b.csv"]
    ∧ origin_metadata files = [["user/demo"; "0ca0d9f"]]
    ∧ length (data_files files) ≠ length (origin_metadata files)
    ∧ origin_metadata files !! 1 = None.
Proof. intros E repo. eexists. split; [reflexivity|]. by repeat split. Qed.

(** ** Inference of the patterns of the splits *)

Section inference.
Context (pattern_resolver : Resolver).

(** The variable [pattern] has no part in what the loops find. *)
Lemma first_match_fst (patterns : list string) (pattern pattern' : option string) :
  (first_match pattern_resolver patterns pattern).1
  = (first_match pattern_resolver patterns pattern').1.
Proof.
  revert pattern pattern'.
  induction patterns as [|p rest IH]; intros pattern pattern'; simpl; [done|].
  destruct (pattern_resolver p) as [files|e]; [|done].
  by destruct (0 <? length files).
Qed.

Lemma first_match_bound (patterns : list string) (pattern : option string) :
  is_Some pattern → is_Some (first_match pattern_resolver patterns pattern).2.
Proof.
  revert pattern. induction patterns as [|p rest IH]; intros pattern; simpl; [done|].
  intros _. destruct (pattern_resolver p) as [files|e]; [|by eexists].
  destruct (0 <? length files); [by eexists|]. apply IH. by eexists.
Qed.

Lemma non_empty_splits_fst (items : list (string * list string))
    (splits : list string) (pattern pattern' : option string) :
  (non_empty_splits pattern_resolver items splits pattern).1
  = (non_empty_splits pattern_resolver items splits pattern').1.
Proof.
  revert splits pattern pattern'.
  induction items as [|[split patterns] rest IH]; intros splits pattern pattern';
    simpl; [done|].
  pose proof (first_match_fst patterns pattern pattern') as Hfst.
  destruct (first_match pattern_resolver patterns pattern) as [found p1],
    (first_match pattern_resolver patterns pattern') as [found' p2].
  simpl in Hfst. subst found'.
  destruct found as [[|]|[]]; simpl; auto.
Qed.

Lemma non_empty_splits_bound (items : list (string * list string))
    (splits : list string) (pattern : option string) :
  is_Some pattern →
  is_Some (non_empty_splits pattern_resolver items splits pattern).2.
Proof.
  revert splits pattern.
  induction items as [|[split patterns] rest IH]; intros splits pattern Hbound;
    simpl; [done|].
  pose proof (first_match_bound patterns pattern Hbound) as Hnext.
  destruct (first_match pattern_resolver patterns pattern) as [found p1].
  simpl in Hnext. destruct found as [[|]|[]]; simpl; auto.
Qed.

(** The splits found so far stay in front. *)
Lemma non_empty_splits_acc (items : list (string * list string))
    (splits : list string) (pattern : option string) :
  (non_empty_splits pattern_resolver items splits pattern).1
  = (splits ++.) <$> (non_empty_splits pattern_resolver items [] pattern).1.
Proof.
  revert splits pattern.
  induction items as [|[split patterns] rest IH]; intros splits pattern; simpl.
  - by rewrite app_nil_r.
  - destruct (first_match pattern_resolver patterns pattern) as [found p1].
    destruct found as [[|]|[]]; simpl; auto.
    rewrite (IH (splits ++ [split])), (IH [split]).
    destruct (non_empty_splits pattern_resolver rest [] p1).1; simpl; [|done].
    by rewrite <- app_assoc.
Qed.

(** One step of the loop over the splits of a group. *)
Lemma matching_splits_cons (split : string) (patterns : list string)
    (rest : dict string (list string)) :
  matching_splits pattern_resolver ((split, patterns) :: rest)
  = match (first_match pattern_resolver patterns None).1 with
    | Ok true => (split ::.) <$> matching_splits pattern_resolver rest
    | Ok false | Raise (FileNotFoundError _) => matching_splits pattern_resolver rest
    | Raise e => Raise e
    end.
Proof.
  unfold matching_splits, items. simpl.
  destruct (first_match pattern_resolver patterns None) as [found p1]. simpl.
  destruct found as [[|]|[]]; simpl; try done;
    try apply non_empty_splits_fst.
  rewrite non_empty_splits_acc. simpl. f_equal. apply non_empty_splits_fst.
Qed.

Lemma matching_splits_sublist (patterns_dict : dict string (list string))
    (splits : list string) :
  matching_splits pattern_resolver patterns_dict = Ok splits →
  splits `sublist_of` keys patterns_dict.
Proof.
  revert splits. unfold keys.
  induction patterns_dict as [|[split patterns] rest IH]; intros splits.
  - intros [= <-]. constructor.
  - rewrite matching_splits_cons. csimpl.
    destruct (first_match pattern_resolver patterns None).1 as [[|]|[]];
      try done; try (intros ?; by apply sublist_cons, IH).
    destruct (matching_splits pattern_resolver rest) as [splits'|e]; [|done].
    intros [= <-]. by apply sublist_skip, IH.
Qed.

(** With a resolver that raises nothing on the patterns of a split, the
    split is found if and only if one of its patterns resolves to a file. *)
Lemma first_match_total (patterns : list string) :
  Forall (λ pattern, is_Ok (pattern_resolver pattern) = true) patterns →
  (first_match pattern_resolver patterns None).1
  = Ok (bool_decide
          (Exists (λ pattern, value_or [] (pattern_resolver pattern) ≠ []) patterns)).
Proof.
  induction 1 as [|p rest Hp _ IH]; cbn [first_match fst].
  - rewrite bool_decide_eq_false_2; [done | by intros ?%Exists_nil].
  - destruct (pattern_resolver p) as [files|e] eqn:Hfiles; [|done].
    destruct files as [|file files]; cbn [length Nat.ltb Nat.leb fst].
    + rewrite (first_match_fst rest _ None), IH. f_equal.
      apply bool_decide_ext. rewrite Exists_cons, Hfiles. simpl. tauto.
    + rewrite bool_decide_eq_true_2; [done|]. apply Exists_cons_hd.
      by rewrite Hfiles.
Qed.

Lemma matching_splits_total (patterns_dict : dict string (list string)) :
  Forall (λ item,
            Forall (λ pattern, is_Ok (pattern_resolver pattern) = true) item.2)
         patterns_dict →
  matching_splits pattern_resolver patterns_dict
  = Ok (filter (has_match pattern_resolver) patterns_dict).*1.
Proof.
  induction 1 as [|[split patterns] rest Htotal _ IH]; [done|].
  rewrite matching_splits_cons, first_match_total, IH by done.
  case_bool_decide as Hmatch.
  - by rewrite filter_cons_True.
  - by rewrite filter_cons_False.
Qed.

(** No pattern of the group resolves to a file: no split is found. *)
Lemma matching_splits_empty (patterns_dict : dict string (list string)) :
  Forall (λ item, Forall (λ pattern, pattern_resolver pattern = Ok []) item.2)
         patterns_dict →
  matching_splits pattern_resolver patterns_dict = Ok [].
Proof.
  intros Hempty. rewrite matching_splits_total.
  - f_equal. induction Hempty as [|item rest Hitem _ IH]; [done|].
    rewrite filter_cons_False; [done|]. unfold has_match.
    rewrite <- Forall_Exists_neg. eapply Forall_impl; [exact Hitem|].
    intros pattern ->. simpl. tauto.
  - eapply Forall_impl; [exact Hempty|]. intros item Hitem.
    eapply Forall_impl; [exact Hitem|]. by intros pattern ->.
Qed.

End inference.

Lemma filter_ext_elem_of {A} (P Q : A → Prop) `{!∀ x, Decision (P x)}
    `{!∀ x, Decision (Q x)} (l : list A) :
  (∀ x, x ∈ l → P x ↔ Q x) → filter P l = filter Q l.
Proof.
  induction l as [|x l IH]; intros Hext; [done|].
  assert (filter P l = filter Q l) as Hrest.
  { apply IH. intros y Hy. apply Hext. by right. }
  destruct (decide (P x)) as [HP|HP].
  - rewrite !filter_cons_True, Hrest; [done | | done]. apply Hext; [by left|done].
  - rewrite !filter_cons_False, Hrest; [done | | done].
    intros HQ. apply HP, Hext; [by left|done].
Qed.

(** The comprehension over the splits that were found gives the items of
    these splits, in the order of the group. *)
Lemma restrict_sublist (patterns_dict : dict string (list string))
    (splits : list string) :
  wf patterns_dict →
  splits `sublist_of` keys patterns_dict →
  restrict patterns_dict splits
  = Ok (filter (λ item, item.1 ∈ splits) patterns_dict).
Proof.
  intros Hwf Hsub.
  assert (Haux : ∀ part splits,
    (∀ item, item ∈ part → get patterns_dict item.1 = Some item.2) →
    NoDup part.*1 → splits `sublist_of` part.*1 →
    mapM (λ split, patterns ← getitem patterns_dict split; Ok (split, patterns))
         splits
    = Ok (filter (λ item, item.1 ∈ splits) part)).
  { clear splits Hsub. induction part as [|[split patterns] part IH];
      intros splits Hget Hnodup Hsub.
    - apply sublist_nil_r in Hsub as ->. done.
    - csimpl in *. apply NoDup_cons in Hnodup as [Hfresh Hnodup].
      assert (Hget' : ∀ item, item ∈ part → get patterns_dict item.1 = Some item.2).
      { intros item Hitem. apply Hget. by right. }
      apply sublist_cons_r in Hsub as [Hsub|(splits' & -> & Hsub)].
      + rewrite filter_cons_False.
        * by apply IH.
        * simpl. intros Hin. apply Hfresh. by eapply elem_of_sublist.
      + rewrite filter_cons_True by (simpl; by left).
        cbn [mapM].
        assert (getitem patterns_dict split = Ok patterns) as ->.
        { pose proof (Hget (split, patterns)) as Hitem. simpl in Hitem.
          unfold getitem. rewrite Hitem; [done | by left]. }
        simpl.
        rewrite (IH splits') by done. simpl. do 2 f_equal.
        apply filter_ext_elem_of. intros [split' patterns'] Hitem. simpl.
        rewrite elem_of_cons. split; [auto|]. intros [->|?]; [|done].
        destruct Hfresh. by apply (list_elem_of_fmap_2 fst) in Hitem. }
  unfold restrict. rewrite (Haux patterns_dict splits); [| |done..].
  - simpl. f_equal. apply of_items_NoDup.
    apply (sublist_NoDup _ (keys patterns_dict)); [exact Hwf|].
    apply fmap_sublist, sublist_filter.
  - intros [split patterns] Hitem. by apply get_Some_elem_of.
Qed.

Section default_patterns.
Context (pattern_resolver : Resolver).

(** A group in which no split is found is passed over. *)
Lemma try_default_patterns_skip (patterns_dict : dict string (list string))
    (rest : list (dict string (list string))) (pattern : option string) :
  matching_splits pattern_resolver patterns_dict = Ok [] →
  is_Some pattern →
  ∃ pattern',
    is_Some pattern'
    ∧ try_default_patterns pattern_resolver (patterns_dict :: rest) pattern
      = try_default_patterns pattern_resolver rest pattern'.
Proof.
  unfold matching_splits. intros Hnone Hbound. simpl.
  rewrite (non_empty_splits_fst _ _ _ _ pattern) in Hnone.
  pose proof (non_empty_splits_bound pattern_resolver (items patterns_dict) []
                pattern Hbound) as Hnext.
  destruct (non_empty_splits _ _ _ _) as [found pattern']. simpl in *.
  subst found. by exists pattern'.
Qed.

(** A group in which some split is found decides. *)
Lemma try_default_patterns_found (patterns_dict : dict string (list string))
    (rest : list (dict string (list string))) (pattern : option string)
    (splits : list string) :
  matching_splits pattern_resolver patterns_dict = Ok splits →
  splits ≠ [] →
  try_default_patterns pattern_resolver (patterns_dict :: rest) pattern
  = restrict patterns_dict splits.
Proof.
  unfold matching_splits. intros Hsome Hne. simpl.
  rewrite (non_empty_splits_fst _ _ _ _ pattern) in Hsome.
  destruct (non_empty_splits _ _ _ _) as [found pattern']. simpl in *.
  subst found. by destruct splits.
Qed.

Lemma try_default_patterns_skip_all (earlier rest : list (dict string (list string)))
    (pattern : option string) :
  Forall (λ patterns_dict, matching_splits pattern_resolver patterns_dict = Ok [])
         earlier →
  is_Some pattern →
  ∃ pattern',
    is_Some pattern'
    ∧ try_default_patterns pattern_resolver (earlier ++ rest) pattern
      = try_default_patterns pattern_resolver rest pattern'.
Proof.
  intros Hnone. revert pattern.
  induction Hnone as [|patterns_dict earlier Hhead _ IH]; intros pattern Hbound.
  - by exists pattern.
  - destruct (try_default_patterns_skip patterns_dict (earlier ++ rest) pattern
                Hhead Hbound) as (pattern1 & Hbound1 & Hskip).
    rewrite <- app_comm_cons, Hskip. by apply IH.
Qed.

(** The inference starts with the sharded pattern, and goes on with the
    default patterns if it resolves to no file. *)
Lemma _get_data_files_patterns_unfold `{!Externals} :
  _get_data_files_patterns pattern_resolver
  = (data_files ← pattern_resolver sharded_glob;
     if 0 <? length data_files then
       splits ← split_names SPLIT_PATTERN_SHARDED (PurePath.as_posix <$> data_files);
       Ok (of_items
             ((λ split, (split, [format_split SPLIT_PATTERN_SHARDED split]))
                <$> set_iter splits))
     else try_default_patterns pattern_resolver ALL_DEFAULT_PATTERNS
            (Some sharded_glob)).
Proof.
  unfold _get_data_files_patterns, ALL_SPLIT_PATTERNS, sharded_glob.
  cbn [try_split_patterns]. done.
Qed.

End default_patterns.

Lemma wf_default_patterns (patterns_dict : dict string (list string)) :
  patterns_dict ∈ ALL_DEFAULT_PATTERNS → wf patterns_dict.
Proof.
  unfold ALL_DEFAULT_PATTERNS. rewrite !elem_of_cons, elem_of_nil.
  intros [->|[->|[->|[]]]]; by apply (bool_decide_unpack _).
Qed.

Lemma tried_patterns_default (patterns_dict : dict string (list string))
    (item : string * list string) (pattern : string) :
  patterns_dict ∈ ALL_DEFAULT_PATTERNS → item ∈ patterns_dict →
  pattern ∈ item.2 → pattern ∈ tried_patterns.
Proof.
  intros Hgroup Hitem Hpattern. unfold tried_patterns. right.
  apply list_elem_of_In, in_concat. exists (concat patterns_dict.*2). split.
  - apply list_elem_of_In, list_elem_of_fmap. by exists patterns_dict.
  - apply in_concat. exists item.2. split; [|by apply list_elem_of_In].
    apply list_elem_of_In, list_elem_of_fmap. by exists item.
Qed.

Section strategies.
Context `{!Externals} (pattern_resolver : Resolver).

(** Among the groups of default patterns, the first one in which a split is
    found decides, whatever the groups after it would find. *)
Lemma default_patterns_priority
    (earlier later : list (dict string (list string)))
    (patterns_dict : dict string (list string)) (splits : list string) :
  ALL_DEFAULT_PATTERNS = earlier ++ patterns_dict :: later →
  pattern_resolver sharded_glob = Ok [] →
  Forall (λ patterns_dict, matching_splits pattern_resolver patterns_dict = Ok [])
         earlier →
  matching_splits pattern_resolver patterns_dict = Ok splits →
  splits ≠ [] →
  _get_data_files_patterns pattern_resolver = Ok (at_splits splits patterns_dict).
Proof.
  intros Hgroups Hsharded Hearlier Hsplits Hne.
  rewrite _get_data_files_patterns_unfold, Hsharded, Hgroups. simpl.
  destruct (try_default_patterns_skip_all pattern_resolver earlier
              (patterns_dict :: later) (Some sharded_glob) Hearlier)
    as (pattern' & _ & ->); [by eexists|].
  rewrite (try_default_patterns_found _ _ _ _ splits) by done.
  apply restrict_sublist.
  - apply wf_default_patterns. rewrite Hgroups, elem_of_app. right. by left.
  - by apply (matching_splits_sublist pattern_resolver).
Qed.

(** No pattern resolves to a file: the inference fails. *)
Lemma _get_data_files_patterns_nothing :
  Forall (λ pattern, pattern_resolver pattern = Ok []) tried_patterns →
  ∃ msg, _get_data_files_patterns pattern_resolver = Raise (FileNotFoundError msg).
Proof.
  intros Hnothing. rewrite Forall_forall in Hnothing.
  rewrite _get_data_files_patterns_unfold, Hnothing by (by left).
  cbn [mbind result_bind length Nat.ltb Nat.leb].
  destruct (try_default_patterns_skip_all pattern_resolver ALL_DEFAULT_PATTERNS []
              (Some sharded_glob)) as (pattern' & [pattern Hbound] & Hskip).
  - apply Forall_forall. intros patterns_dict Hgroup.
    apply matching_splits_empty, Forall_forall. intros item Hitem.
    apply Forall_forall. intros pattern Hpattern.
    by eapply Hnothing, tried_patterns_default.
  - by eexists.
  - rewrite app_nil_r in Hskip. rewrite Hskip, Hbound. simpl. by eexists.
Qed.

End strategies.



(** The sharded pattern of a split. *)
Lemma format_split_sharded (split : string) :
  format_split SPLIT_PATTERN_SHARDED split
  = "data/" +:+ split
      +:+ "-[0-9][0-9][0-9][0-9][0-9]-of-[0-9][0-9][0-9][0-9][0-9].*".
Proof. reflexivity. Qed.

Lemma sharded_glob_eq :
  sharded_glob = "data/*-[0-9][0-9][0-9][0-9][0-9]-of-[0-9][0-9][0-9][0-9][0-9].*".
Proof. reflexivity. Qed.

(** C6 (amended). When the sharded pattern, with any split, resolves to
    some files, and the name of the split is read back from each of these
    files, the inference gives a dict whose keys are the names that were
    read, each once, and whose value at a split is the one sharded pattern
    of this split. *)
Theorem sharded_files_give_their_splits `{!Externals}
    (pattern_resolver : Resolver) (data_files : list PurePath)
    (names : list string) :
  pattern_resolver sharded_glob = Ok data_files →
  data_files ≠ [] →
  Forall2 (λ data_file name,
             ∃ fields,
               string_to_dict (PurePath.as_posix data_file) SPLIT_PATTERN_SHARDED
                 = Ok fields
               ∧ get fields "split" = Some name)
          data_files names →
  ∃ patterns,
    _get_data_files_patterns pattern_resolver = Ok patterns
    ∧ wf patterns
    ∧ keys patterns ≡ₚ remove_dups names
    ∧ (∀ split, split ∈ keys patterns ↔ split ∈ names)
    ∧ (∀ split, split ∈ names →
         get patterns split
         = Some ["data/" +:+ split
                   +:+ "-[0-9][0-9][0-9][0-9][0-9]-of-[0-9][0-9][0-9][0-9][0-9].*"]).
Proof.
  intros Hsharded Hne Hnames.
  assert (split_names SPLIT_PATTERN_SHARDED (PurePath.as_posix <$> data_files)
          = Ok names) as Hsplit_names.
  { unfold split_names. apply mapM_Ok_Forall2, Forall2_fmap_l.
    eapply Forall2_impl; [exact Hnames|].
    intros data_file name (fields & Hfields & Hget). unfold compose.
    rewrite Hfields. cbn [mbind result_bind]. unfold getitem. by rewrite Hget. }
  set (template := λ split : string,
         (split, [format_split SPLIT_PATTERN_SHARDED split])).
  assert (Hkeys : (template <$> set_iter names).*1 = set_iter names).
  { rewrite <- list_fmap_compose. apply list_fmap_id. }
  assert (Hnodup : NoDup (set_iter names)).
  { rewrite set_iter_perm. apply NoDup_remove_dups. }
  exists (template <$> set_iter names). split; [|split; [|split; [|split]]].
  - rewrite _get_data_files_patterns_unfold, Hsharded.
    cbn [mbind result_bind]. destruct data_files; [done|].
    cbn [length Nat.ltb Nat.leb]. rewrite Hsplit_names. cbn [mbind result_bind].
    f_equal. apply of_items_NoDup. by rewrite Hkeys.
  - unfold wf, keys. by rewrite Hkeys.
  - unfold keys. rewrite Hkeys. apply set_iter_perm.
  - intros split. unfold keys.
    by rewrite Hkeys, set_iter_perm, elem_of_remove_dups.
  - intros split Hin. rewrite <- format_split_sharded.
    apply get_Some_elem_of; [unfold wf, keys; by rewrite Hkeys|].
    apply list_elem_of_fmap. exists split. split; [done|].
    by rewrite set_iter_perm, elem_of_remove_dups.
Qed.

Lemma sharded_files_give_their_splits_witness :
  let E := externals_of [] in
  let repo :=
    {| id := "user/demo"; sha := "0ca0d9f";
       siblings := [ {| rfilename := "data/train-00000-of-00002.parquet" |};
                     {| rfilename := "data/train-00001-of-00002.parquet" |};
                     {| rfilename := "data/test-00000-of-00001.parquet" |} ] |} in
  let data_files :=
    PurePath.of_string <$> [ "data/test-00000-of-00001.parquet";
                             "data/train-00000-of-00002.parquet";
                             "data/train-00001-of-00002.parquet" ] in
  let sharded split :=
    "data/" +:+ split +:+ "-[0-9][0-9][0-9][0-9][0-9]-of-[0-9][0-9][0-9][0-9][0-9].*" in
  repository_resolver repo sharded_glob = Ok data_files
  ∧ ∃ patterns,
      get_patterns_in_dataset_repository repo = Ok patterns
      ∧ keys patterns ≡ₚ ["train"; "test"]
      ∧ get patterns "train" = Some [sharded "train"]
      ∧ get patterns "test" = Some [sharded "test"].
Proof.
  intros E repo data_files sharded. split; [vm_compute; reflexivity|].
  destruct (sharded_files_give_their_splits (repository_resolver repo)
              data_files ["test"; "train"; "train"])
    as (patterns & Hpatterns & _ & Hkeys & _ & Hget).
  - vm_compute; reflexivity.
  - done.
  - repeat constructor; eexists; (split; [vm_compute; reflexivity|]);
      vm_compute; reflexivity.
  - exists patterns. split; [|split; [|split]].
    + unfold get_patterns_in_dataset_repository.
      fold (repository_resolver repo). by rewrite Hpatterns.
    + rewrite Hkeys. apply perm_swap.
    + apply Hget. right. by left.
    + apply Hget. by left.
Defined.

(** C6 as stated fails: the file [data/-00000-of-00001.parquet] matches the
    sharded pattern, the star standing for no character, but no name of a
    split is read back from it; the inference then raises the error of the
    reading, in a repository and locally, and returns no dict. *)
Lemma sharded_file_without_a_split_name_raises :
  let E := externals_of ["/d/data/-00000-of-00001.parquet"] in
  let repo :=
    {| id := "user/demo"; sha := "0ca0d9f";
       siblings := [ {| rfilename := "data/-00000-of-00001.parquet" |} ] |} in
  let unread name :=
    ValueError ("String " +:+ name +:+ " doesn't match the pattern "
                  +:+ SPLIT_PATTERN_SHARDED) in
  repository_resolver repo sharded_glob
    = Ok [PurePath.of_string "data/-00000-of-00001.parquet"]
  ∧ string_to_dict "data/-00000-of-00001.parquet" SPLIT_PATTERN_SHARDED
    = Raise (unread "data/-00000-of-00001.parquet")
  ∧ get_patterns_in_dataset_repository repo
    = Raise (unread "data/-00000-of-00001.parquet")
  ∧ local_resolver "/d" sharded_glob
    = Ok [PurePath.of_string "/d/data/-00000-of-00001.parquet"]
  ∧ get_patterns_locally "/d"
    = Raise (unread "/d/data/-00000-of-00001.parquet").
Proof. intros E repo unread. repeat split; vm_compute; reflexivity. Qed.

(** C9. When none of the patterns that the inference tries, the pattern [*]
    for all files included, resolves to a file, [get_patterns_locally] and
    [get_patterns_in_dataset_repository] raise [FileNotFoundError], with a
    message that holds the directory, or the id of the repository. *)
Theorem no_data_file_error_names_the_location `{!Externals} :
  (∀ base_path,
     Forall (λ pattern,
               _resolve_single_pattern_locally base_path pattern None = Ok [])
            tried_patterns →
     get_patterns_locally base_path
     = Raise (FileNotFoundError
                ("The directory at " +:+ base_path
                   +:+ " doesn't contain any data file")))
  ∧ (∀ dataset_info,
       Forall (λ pattern,
                 _resolve_single_pattern_in_dataset_repository dataset_info
                   pattern None = Ok [])
              tried_patterns →
       get_patterns_in_dataset_repository dataset_info
       = Raise (FileNotFoundError
                  ("The dataset repository at '" +:+ id dataset_info
                     +:+ "' doesn't contain any data file."))).
Proof.
  split.
  - intros base_path Hnothing.
    destruct (_get_data_files_patterns_nothing (local_resolver base_path) Hnothing)
      as [msg Hraise].
    unfold get_patterns_locally. fold (local_resolver base_path).
    by rewrite Hraise.
  - intros dataset_info Hnothing.
    destruct (_get_data_files_patterns_nothing (repository_resolver dataset_info)
                Hnothing) as [msg Hraise].
    unfold get_patterns_in_dataset_repository.
    fold (repository_resolver dataset_info). by rewrite Hraise.
Qed.

Lemma no_data_file_error_names_the_location_witness :
  let E := externals_of [] in
  let repo := {| id := "user/empty"; sha := "0ca0d9f"; siblings := [] |} in
  (Forall (λ pattern, _resolve_single_pattern_locally "/data" pattern None = Ok [])
          tried_patterns
   ∧ get_patterns_locally "/data"
     = Raise (FileNotFoundError
                "The directory at /data doesn't contain any data file"))
  ∧ (Forall (λ pattern,
               _resolve_single_pattern_in_dataset_repository repo pattern None
               = Ok [])
            tried_patterns
     ∧ get_patterns_in_dataset_repository repo
       = Raise (FileNotFoundError
                  "The dataset repository at 'user/empty' doesn't contain any data file.")).
Proof.
  intros E repo.
  destruct no_data_file_error_names_the_location as [Hlocal Hrepo].
  assert (Hl : Forall (λ pattern,
                         _resolve_single_pattern_locally "/data" pattern None = Ok [])
                      tried_patterns)
    by (repeat constructor; vm_compute; reflexivity).
  assert (Hr : Forall (λ pattern,
                         _resolve_single_pattern_in_dataset_repository repo pattern
                           None = Ok [])
                      tried_patterns)
    by (repeat constructor; vm_compute; reflexivity).
  split; (split; [assumption|]).
  - exact (Hlocal "/data" Hl).
  - exact (Hrepo repo Hr).
Defined.

(** ** More on lists of patterns *)

Section mapM_failure.
Context {A B : Type} (f : A → result B).

Lemma mapM_Raise_first (before after : list A) (x : A) (e : exn) :
  Forall (λ y, is_Ok (f y) = true) before → f x = Raise e →
  mapM f (before ++ x :: after) = Raise e.
Proof.
  intros Hbefore Hx. induction Hbefore as [|y before Hy _ IH]; simpl.
  - by rewrite Hx.
  - destruct (f y); [|done]. simpl. by rewrite IH.
Qed.

Lemma mapM_Raise_inv (l : list A) (e : exn) :
  mapM f l = Raise e →
  ∃ before x after,
    l = before ++ x :: after
    ∧ Forall (λ y, is_Ok (f y) = true) before ∧ f x = Raise e.
Proof.
  induction l as [|y l IH]; simpl; [done|].
  destruct (f y) as [b|e'] eqn:Hy; simpl.
  - destruct (mapM f l) as [k|e'] eqn:Hl; simpl; [done|].
    intros [= ->]. destruct (IH eq_refl) as (before & x & after & -> & Hall & Hx).
    exists (y :: before), x, after. split; [done|]. split; [|done].
    constructor; [by rewrite Hy | done].
  - intros [= ->]. by exists [], y, l.
Qed.

End mapM_failure.

Section more_pattern_lists.
Context `{!Externals}.

Lemma resolve_patterns_locally_or_by_urls_eq (base_path : string)
    (patterns : list string) (allowed_extensions : option (list string)) :
  resolve_patterns_locally_or_by_urls base_path patterns allowed_extensions
  = match mapM (files_of_pattern base_path allowed_extensions) patterns with
    | Ok chunks =>
        if bool_decide (concat chunks = [])
        then Raise (FileNotFoundError
                      (nothing_resolved_locally base_path patterns allowed_extensions))
        else Ok (concat chunks)
    | Raise e => Raise e
    end.
Proof.
  unfold resolve_patterns_locally_or_by_urls.
  rewrite collect_locally_or_by_urls_spec.
  by destruct (mapM _ patterns).
Qed.

Lemma resolve_patterns_in_dataset_repository_eq (dataset_info : DatasetInfo)
    (patterns : list string) (allowed_extensions : option (list string)) :
  resolve_patterns_in_dataset_repository dataset_info patterns allowed_extensions
  = match mapM (urls_of_pattern dataset_info allowed_extensions) patterns with
    | Ok chunks =>
        if bool_decide (concat chunks = [])
        then Raise (FileNotFoundError
                      (nothing_resolved_in_repository dataset_info patterns
                         allowed_extensions))
        else Ok (concat chunks)
    | Raise e => Raise e
    end.
Proof.
  unfold resolve_patterns_in_dataset_repository.
  rewrite collect_in_dataset_repository_spec.
  by destruct (mapM _ patterns).
Qed.

Lemma concat_replicate_nil {A} (n : nat) : concat (replicate n (@nil A)) = [].
Proof. induction n; simpl; done. Qed.

Lemma mapM_all_nil {A B} (f : A → result (list B)) (l : list A) :
  Forall (λ x, f x = Ok []) l → ∃ chunks, mapM f l = Ok chunks ∧ concat chunks = [].
Proof.
  induction 1 as [|x l Hx _ (chunks & IH & Hnil)]; simpl.
  - by exists [].
  - rewrite Hx, IH. simpl. by exists ([] :: chunks).
Qed.

End more_pattern_lists.

(** X1. Both resolvers of lists of patterns give a list that is not empty,
    or raise: when every pattern resolves to no file, and so when there is
    no pattern at all, they raise [FileNotFoundError] with the message that
    names the patterns and the place. *)
Theorem resolved_lists_are_never_empty `{!Externals}
    (patterns : list string) (allowed_extensions : option (list string)) :
  (∀ base_path,
     (∀ out,
        resolve_patterns_locally_or_by_urls base_path patterns allowed_extensions
          = Ok out → out ≠ [])
     ∧ (Forall (λ pattern,
                  is_remote_url pattern = false
                  ∧ _resolve_single_pattern_locally base_path pattern
                      allowed_extensions = Ok [])
               patterns →
        resolve_patterns_locally_or_by_urls base_path patterns allowed_extensions
        = Raise (FileNotFoundError
                   (nothing_resolved_locally base_path patterns allowed_extensions))))
  ∧ (∀ dataset_info,
       (∀ out,
          resolve_patterns_in_dataset_repository dataset_info patterns
            allowed_extensions = Ok out → out ≠ [])
       ∧ (Forall (λ pattern,
                    _resolve_single_pattern_in_dataset_repository dataset_info
                      pattern allowed_extensions = Ok [])
                 patterns →
          resolve_patterns_in_dataset_repository dataset_info patterns
            allowed_extensions
          = Raise (FileNotFoundError
                     (nothing_resolved_in_repository dataset_info patterns
                        allowed_extensions)))).
Proof.
  split.
  - intros base_path. split.
    + intros out (chunks & _ & _ & Hne)%resolve_patterns_locally_or_by_urls_Ok. done.
    + intros Hnone. rewrite resolve_patterns_locally_or_by_urls_eq.
      destruct (mapM_all_nil (files_of_pattern base_path allowed_extensions) patterns)
        as (chunks & -> & ->); [|done].
      eapply Forall_impl; [exact Hnone|]. intros pattern [Hlocal Hfiles].
      by rewrite files_of_pattern_local, Hfiles.
  - intros dataset_info. split.
    + intros out (chunks & _ & _ & Hne)%resolve_patterns_in_dataset_repository_Ok. done.
    + intros Hnone. rewrite resolve_patterns_in_dataset_repository_eq.
      destruct (mapM_all_nil (urls_of_pattern dataset_info allowed_extensions) patterns)
        as (chunks & -> & ->); [|done].
      eapply Forall_impl; [exact Hnone|]. intros pattern Hfiles.
      unfold urls_of_pattern. by rewrite Hfiles.
Qed.

Lemma resolved_lists_are_never_empty_witness :
  let E := externals_of [] in
  let repo := {| id := "user/empty"; sha := "0ca0d9f"; siblings := [] |} in
  resolve_patterns_locally_or_by_urls "/data" [] None
  = Raise (FileNotFoundError "Unable to resolve any data file that matches '[]' at /data")
  ∧ resolve_patterns_locally_or_by_urls "/data" ["*.csv"; "*.json"] (Some ["csv"])
    = Raise (FileNotFoundError
               "Unable to resolve any data file that matches '['*.csv', '*.json']' at /data with any supported extension ['csv']")
  ∧ resolve_patterns_in_dataset_repository repo ["*"] None
    = Raise (FileNotFoundError
               "Unable to resolve any data file that matches ['*'] in dataset repository user/empty").
Proof.
  intros E repo.
  destruct (resolved_lists_are_never_empty [] None) as [Hl _].
  destruct (resolved_lists_are_never_empty ["*.csv"; "*.json"] (Some ["csv"]))
    as [Hl' _].
  destruct (resolved_lists_are_never_empty ["*"] None) as [_ Hr].
  split; [|split].
  - apply (Hl "/data"). constructor.
  - apply (Hl' "/data"). by repeat constructor.
  - apply (Hr repo). by repeat constructor.
Defined.

(** X2. Resolving a list of patterns made of two lists that both resolve
    gives the files of the first list followed by the files of the second:
    nothing is sorted across patterns and nothing is removed, a file that
    two patterns match comes twice. *)
Theorem resolution_of_appended_patterns `{!Externals}
    (patterns1 patterns2 : list string) (allowed_extensions : option (list string)) :
  (∀ base_path out1 out2,
     resolve_patterns_locally_or_by_urls base_path patterns1 allowed_extensions
       = Ok out1 →
     resolve_patterns_locally_or_by_urls base_path patterns2 allowed_extensions
       = Ok out2 →
     resolve_patterns_locally_or_by_urls base_path (patterns1 ++ patterns2)
       allowed_extensions = Ok (out1 ++ out2))
  ∧ (∀ dataset_info out1 out2,
       resolve_patterns_in_dataset_repository dataset_info patterns1
         allowed_extensions = Ok out1 →
       resolve_patterns_in_dataset_repository dataset_info patterns2
         allowed_extensions = Ok out2 →
       resolve_patterns_in_dataset_repository dataset_info (patterns1 ++ patterns2)
         allowed_extensions = Ok (out1 ++ out2)).
Proof.
  split.
  - intros base_path out1 out2
      (chunks1 & Hchunks1 & -> & Hne)%resolve_patterns_locally_or_by_urls_Ok
      (chunks2 & Hchunks2 & -> & _)%resolve_patterns_locally_or_by_urls_Ok.
    apply resolve_patterns_locally_or_by_urls_Ok. exists (chunks1 ++ chunks2).
    split; [by apply mapM_Ok_app|]. rewrite concat_app. split; [done|].
    intros [? _]%app_eq_nil. done.
  - intros dataset_info out1 out2
      (chunks1 & Hchunks1 & -> & Hne)%resolve_patterns_in_dataset_repository_Ok
      (chunks2 & Hchunks2 & -> & _)%resolve_patterns_in_dataset_repository_Ok.
    apply resolve_patterns_in_dataset_repository_Ok. exists (chunks1 ++ chunks2).
    split; [by apply mapM_Ok_app|]. rewrite concat_app. split; [done|].
    intros [? _]%app_eq_nil. done.
Qed.

Lemma resolution_of_appended_patterns_witness :
  let E := externals_of ["/d/a.csv"; "/d/b.csv"] in
  let a := LocalPath (PurePath.of_string "/d/a.csv") in
  let b := LocalPath (PurePath.of_string "/d/b.csv") in
  resolve_patterns_locally_or_by_urls "/d" ["*.csv"] None = Ok [a; b]
  ∧ resolve_patterns_locally_or_by_urls "/d" ["a*"] None = Ok [a]
  ∧ resolve_patterns_locally_or_by_urls "/d" ["*.csv"; "a*"] None = Ok [a; b; a].
Proof.
  intros E a b. split; [reflexivity|]. split; [reflexivity|].
  destruct (resolution_of_appended_patterns ["*.csv"] ["a*"] None) as [Hlocal _].
  by apply (Hlocal "/d" [a; b] [a]).
Defined.

(** X3. The resolution of a list of patterns stops at the first pattern that
    raises: its error is the error of the whole, whatever the patterns
    after it are, and the files of the patterns before it are lost. *)
Theorem first_failing_pattern_decides `{!Externals}
    (before after : list string) (pattern : string)
    (allowed_extensions : option (list string)) (e : exn) :
  (∀ base_path,
     Forall (λ earlier,
               is_remote_url earlier = true
               ∨ is_Ok (_resolve_single_pattern_locally base_path earlier
                          allowed_extensions) = true)
            before →
     is_remote_url pattern = false →
     _resolve_single_pattern_locally base_path pattern allowed_extensions = Raise e →
     resolve_patterns_locally_or_by_urls base_path (before ++ pattern :: after)
       allowed_extensions = Raise e)
  ∧ (∀ dataset_info,
       Forall (λ earlier,
                 is_Ok (_resolve_single_pattern_in_dataset_repository dataset_info
                          earlier allowed_extensions) = true)
              before →
       _resolve_single_pattern_in_dataset_repository dataset_info pattern
         allowed_extensions = Raise e →
       resolve_patterns_in_dataset_repository dataset_info
         (before ++ pattern :: after) allowed_extensions = Raise e).
Proof.
  split.
  - intros base_path Hbefore Hlocal Hraise.
    rewrite resolve_patterns_locally_or_by_urls_eq.
    rewrite (mapM_Raise_first _ before after pattern e); [done| |].
    + eapply Forall_impl; [exact Hbefore|]. intros earlier [Hurl|Hok].
      * by rewrite files_of_pattern_url.
      * unfold files_of_pattern. destruct (is_remote_url earlier); [done|].
        by destruct (_resolve_single_pattern_locally base_path earlier _).
    + by rewrite files_of_pattern_local, Hraise.
  - intros dataset_info Hbefore Hraise.
    rewrite resolve_patterns_in_dataset_repository_eq.
    rewrite (mapM_Raise_first _ before after pattern e); [done| |].
    + eapply Forall_impl; [exact Hbefore|]. intros earlier Hok.
      unfold urls_of_pattern. simpl in Hok.
      by destruct (_resolve_single_pattern_in_dataset_repository _ earlier _).
    + unfold urls_of_pattern. by rewrite Hraise.
Qed.

Lemma first_failing_pattern_decides_witness :
  let E := externals_of ["/d/a.csv"] in
  let e := FileNotFoundError "Unable to find 'missing.csv' at /d" in
  is_Ok (_resolve_single_pattern_locally "/d" "a.csv" None) = true
  ∧ _resolve_single_pattern_locally "/d" "missing.csv" None = Raise e
  ∧ resolve_patterns_locally_or_by_urls "/d" ["a.csv"; "missing.csv"; "*"] None
    = Raise e.
Proof.
  intros E e. split; [reflexivity|]. split; [reflexivity|].
  destruct (first_failing_pattern_decides ["a.csv"] ["*"] "missing.csv" None e)
    as [Hlocal _].
  apply (Hlocal "/d"); [|reflexivity..]. constructor; [by right | constructor].
Defined.

(** ** Strings and paths: facts *)

Lemma split_cons_inv (sep : ascii) (s : string) : split sep s ≠ [].
Proof.
  destruct s as [|c s]; simpl; [done|].
  destruct (decide (c = sep)); [done|]. by destruct (split sep s).
Qed.

(** A field holds no separator. *)
Lemma split_no_sep (sep : ascii) (s field : string) :
  field ∈ split sep s → contains_char sep field = false.
Proof.
  revert field. induction s as [|c s IH]; intros field; simpl.
  - by intros ->%list_elem_of_singleton.
  - destruct (decide (c = sep)) as [->|Hne].
    + intros [->|Hin]%elem_of_cons; [done | by apply IH].
    + destruct (split sep s) as [|first fields] eqn:Hsplit.
      * by destruct (split_cons_inv sep s).
      * intros [->|Hin]%elem_of_cons.
        -- simpl. rewrite decide_False by done. apply IH. by left.
        -- apply IH. by right.
Qed.

(** Without separator, the string is its only field. *)
Lemma split_without_sep (sep : ascii) (s : string) :
  contains_char sep s = false → split sep s = [s].
Proof.
  induction s as [|c s IH]; simpl; [done|].
  destruct (decide (sep = c)) as [->|Hne]; [done|].
  intros Hs. rewrite decide_False by done. by rewrite IH.
Qed.

(** [sep.join(s.split(sep)) == s] *)
Lemma join_split (sep : ascii) (s : string) :
  join (String sep "") (split sep s) = s.
Proof.
  induction s as [|c s IH]; simpl; [done|].
  destruct (decide (c = sep)) as [->|Hne].
  - destruct (split sep s) as [|first fields] eqn:Hsplit.
    + by destruct (split_cons_inv sep s).
    + simpl. simpl in IH. by rewrite IH.
  - destruct (split sep s) as [|first fields] eqn:Hsplit.
    + by destruct (split_cons_inv sep s).
    + simpl in *. destruct fields; simpl in *; by rewrite <- IH.
Qed.

Lemma startswith_sep_false (sep : ascii) (s : string) :
  contains_char sep s = false → startswith (String sep "") s = false.
Proof.
  destruct s as [|c s]; simpl; [done|].
  destruct (decide (sep = c)) as [->|Hne]; [done|]. intros _.
  unfold startswith. simpl. destruct (ascii_dec sep c); [done|]. done.
Qed.

Lemma endswith_dot_without_dot (s : string) :
  contains_char "."%char s = false → endswith_dot s = false.
Proof.
  induction s as [|c s IH]; simpl; [done|].
  destruct (decide ("."%char = c)) as [<-|Hne]; [done|]. intros Hs.
  destruct s; [by rewrite bool_decide_eq_false_2 | by apply IH].
Qed.

Lemma lstrip_without (c : ascii) (s : string) :
  contains_char c s = false → lstrip c s = s.
Proof.
  destruct s as [|c' s]; simpl; [done|]. by destruct (decide (c = c')).
Qed.

(** A name without dot has no suffix. *)
Lemma suffixes_without_dot (p : PurePath) :
  contains_char "."%char (PurePath.name p) = false → PurePath.suffixes p = [].
Proof.
  intros Hname. unfold PurePath.suffixes.
  rewrite endswith_dot_without_dot, lstrip_without, split_without_sep by done.
  done.
Qed.

Lemma startswith_nonempty (p s : string) : startswith p s = true → p ≠ "" → s ≠ "".
Proof. intros Hs Hp ->. destruct p; [done|]. done. Qed.

(** The parts of the path of a file of a repository: the root, then names
    that hold no [/] and are neither empty nor [.]. *)
Lemma of_string_rooted (s : string) :
  ∃ r names,
    PurePath.parts (PurePath.of_string ("/" +:+ s)) = r :: names
    ∧ (r = "/" ∨ r = "//")
    ∧ Forall (λ n, contains_char "/"%char n = false ∧ n ≠ "" ∧ n ≠ ".") names.
Proof.
  unfold PurePath.of_string, PurePath.splitroot.
  assert (startswith "/" ("/" +:+ s) = true) as ->
    by (unfold startswith; simpl; by destruct s).
  set (stripped := lstrip "/"%char ("/" +:+ s)).
  assert (Hnames : Forall (λ n, contains_char "/"%char n = false ∧ n ≠ "" ∧ n ≠ ".")
                     (filter (λ x, x ≠ "" ∧ x ≠ ".") (split "/"%char stripped))).
  { apply Forall_forall. intros n [[? ?] Hin]%list_elem_of_filter.
    split; [by eapply split_no_sep | done]. }
  destruct (decide (_ = 2)).
  - exists "//", (filter (λ x, x ≠ "" ∧ x ≠ ".") (split "/"%char stripped)).
    split; [done|]. split; [by right | done].
  - exists "/", (filter (λ x, x ≠ "" ∧ x ≠ ".") (split "/"%char stripped)).
    split; [done|]. split; [by left | done].
Qed.

Section rooted.
Context (p : PurePath) (r : string) (names : list string).
Hypothesis Hparts : PurePath.parts p = r :: names.
Hypothesis Hroot : r = "/" ∨ r = "//".
Hypothesis Hnames : Forall (λ n, contains_char "/"%char n = false) names.

Lemma rooted_root : PurePath.root p = r.
Proof. unfold PurePath.root. rewrite Hparts. by destruct Hroot as [-> | ->]. Qed.

Lemma unrooted_root : PurePath.root (PurePath.Build names) = "".
Proof.
  unfold PurePath.root. simpl. destruct Hnames as [|n rest Hn _]; [done|].
  by rewrite (startswith_sep_false "/"%char n).
Qed.

Lemma rooted_relative (q : PurePath) :
  PurePath.relative_to_root p = Ok q → r = "/" ∧ q = PurePath.Build names.
Proof.
  unfold PurePath.relative_to_root. rewrite rooted_root, Hparts.
  destruct (decide (r = "/")) as [->|]; [|done]. by intros [= <-].
Qed.

Lemma rooted_name : PurePath.name (PurePath.Build names) = PurePath.name p.
Proof.
  unfold PurePath.name. rewrite unrooted_root, rooted_root, Hparts. simpl.
  assert (r ≠ "") by (by destruct Hroot as [-> | ->]).
  rewrite (decide_False (P := r = "")) by done.
  destruct names as [|n rest]; [done|].
  rewrite !decide_False by done. done.
Qed.

End rooted.

Section repository_files.
Context `{!Externals}.

Lemma all_data_files_rooted (dataset_info : DatasetInfo) (filepath : PurePath) :
  filepath ∈ all_data_files dataset_info →
  ∃ r names,
    PurePath.parts filepath = r :: names
    ∧ (r = "/" ∨ r = "//")
    ∧ Forall (λ n, contains_char "/"%char n = false) names.
Proof.
  unfold all_data_files.
  intros (dataset_file & -> & _)%list_elem_of_fmap.
  destruct (of_string_rooted (rfilename dataset_file)) as (r & names & ? & ? & Hnames).
  exists r, names. split; [done|]. split; [done|].
  eapply Forall_impl; [exact Hnames|]. by intros n [? _].
Qed.

(** The relative path of a file of a repository has the name of the file. *)
Lemma relative_name (dataset_info : DatasetInfo) (filepath relative : PurePath) :
  filepath ∈ all_data_files dataset_info →
  PurePath.relative_to_root filepath = Ok relative →
  PurePath.name relative = PurePath.name filepath
  ∧ PurePath.root relative = "".
Proof.
  intros (r & names & Hparts & Hroot & Hnames)%all_data_files_rooted Hrelative.
  destruct (rooted_relative filepath r names Hparts Hroot relative Hrelative)
    as [_ ->].
  split; [by eapply rooted_name | by eapply unrooted_root].
Qed.

End repository_files.

(** ** The files that a pattern matches in a repository *)

Lemma matched_paths_in_repository_eq (pattern : string) (files : list PurePath) :
  matched_paths_in_repository pattern files
  = @concat _ <$> mapM (matched_one pattern) files.
Proof.
  induction files as [|filepath rest IH]; [done|].
  cbn [matched_paths_in_repository mapM]. rewrite IH. unfold matched_one.
  destruct (decide (is_data_file_name filepath)); simpl.
  - destruct (PurePath.match_ filepath pattern) as [[|]|e]; simpl; [| |done].
    + destruct (PurePath.relative_to_root filepath) as [relative|e]; simpl; [|done].
      by destruct (mapM _ rest).
    + by destruct (mapM _ rest).
  - by destruct (mapM _ rest).
Qed.

Lemma matched_one_elem_of (pattern : string) (filepath relative : PurePath) :
  (∃ chunk, matched_one pattern filepath = Ok chunk ∧ relative ∈ chunk)
  ↔ is_data_file_name filepath
    ∧ PurePath.match_ filepath pattern = Ok true
    ∧ PurePath.relative_to_root filepath = Ok relative.
Proof.
  unfold matched_one. destruct (decide (is_data_file_name filepath)) as [Hname|Hname].
  - destruct (PurePath.match_ filepath pattern) as [[|]|e]; simpl.
    + destruct (PurePath.relative_to_root filepath) as [q|e]; simpl.
      * split.
        -- intros (chunk & [= <-] & ->%list_elem_of_singleton). done.
        -- intros (_ & _ & [= ->]). exists [relative]. split; [done | by left].
      * split; [by intros (? & ? & _) | by intros (_ & _ & ?)].
    + split; [intros (chunk & [= <-] & ?%elem_of_nil); done | by intros (_ & ? & _)].
    + split; [by intros (? & ? & _) | by intros (_ & ? & _)].
  - simpl. split; [intros (chunk & [= <-] & ?%elem_of_nil); done | by intros (? & _)].
Qed.

Lemma elem_of_concat_mapM {A B} (f : A → result (list B)) (l : list A)
    (chunks : list (list B)) (y : B) :
  mapM f l = Ok chunks →
  y ∈ concat chunks ↔ ∃ x, x ∈ l ∧ ∃ chunk, f x = Ok chunk ∧ y ∈ chunk.
Proof.
  rewrite mapM_Ok_Forall2. induction 1 as [|x chunk l chunks Hx _ IH]; simpl.
  - split; [by intros ?%elem_of_nil | by intros (x & ?%elem_of_nil & _)].
  - rewrite elem_of_app, IH. split.
    + intros [Hy|(x' & Hin & Hrest)].
      * exists x. split; [by left | by exists chunk].
      * exists x'. split; [by right | done].
    + intros (x' & [->|Hin]%elem_of_cons & chunk' & Hx' & Hy).
      * left. congruence.
      * right. exists x'. split; [done | by exists chunk'].
Qed.

Lemma elem_of_matched_paths_in_repository (pattern : string)
    (files matched_paths : list PurePath) (relative : PurePath) :
  matched_paths_in_repository pattern files = Ok matched_paths →
  relative ∈ matched_paths
  ↔ ∃ filepath,
      filepath ∈ files ∧ is_data_file_name filepath
      ∧ PurePath.match_ filepath pattern = Ok true
      ∧ PurePath.relative_to_root filepath = Ok relative.
Proof.
  rewrite matched_paths_in_repository_eq.
  destruct (mapM (matched_one pattern) files) as [chunks|e] eqn:Hchunks; [|done].
  intros [= <-]. rewrite (elem_of_concat_mapM _ _ _ _ Hchunks).
  by setoid_rewrite matched_one_elem_of.
Qed.

(** ** One pattern: the files it gives *)

Lemma parts_ltb_antisym (l1 l2 : list string) :
  PurePath.parts_ltb l2 l1 = false → PurePath.parts_ltb l1 l2 = false → l1 = l2.
Proof.
  revert l2. induction l1 as [|x l1 IH]; intros [|y l2]; simpl; try done.
  destruct (decide (y = x)) as [->|Hne].
  - rewrite decide_True by done. intros ? ?. f_equal. by apply IH.
  - rewrite decide_False by done. rewrite !String_ltb_false. intros ? ?.
    destruct Hne. by apply (anti_symm String.le).
Qed.

Global Instance path_le_antisym : AntiSymm (=) path_le.
Proof.
  intros [l1] [l2] H1 H2. f_equal. by apply parts_ltb_antisym.
Qed.

(** The sorted list of paths depends on the paths only, not on their order. *)
Lemma sorted_paths_unique (l1 l2 : list PurePath) :
  l1 ≡ₚ l2 → sorted PurePath.ltb l1 = sorted PurePath.ltb l2.
Proof.
  intros Hperm. apply (StronglySorted_unique path_le).
  - apply sorted_paths_Sorted.
  - apply sorted_paths_Sorted.
  - by rewrite !sorted_Permutation.
Qed.

Lemma StronglySorted_filter {A} (R : relation A) (P : A → Prop)
    `{!∀ x, Decision (P x)} (l : list A) :
  StronglySorted R l → StronglySorted R (filter P l).
Proof.
  induction 1 as [|x l _ IH Hall]; [constructor|].
  rewrite filter_cons. destruct (decide (P x)); [|done].
  constructor; [done|]. apply Forall_forall. intros y [_ Hy]%list_elem_of_filter.
  rewrite Forall_forall in Hall. by apply Hall.
Qed.

(** Sorting and filtering paths commute. *)
Lemma sorted_paths_filter (P : PurePath → Prop) `{!∀ p, Decision (P p)}
    (l : list PurePath) :
  sorted PurePath.ltb (filter P l) = filter P (sorted PurePath.ltb l).
Proof.
  apply (StronglySorted_unique path_le).
  - apply sorted_paths_Sorted.
  - apply StronglySorted_filter, sorted_paths_Sorted.
  - by rewrite !sorted_Permutation.
Qed.

Lemma keep_allowed_extensions_Permutation
    (allowed_extensions : option (list string)) (l1 l2 : list PurePath) :
  l1 ≡ₚ l2 →
  keep_allowed_extensions allowed_extensions l1
  ≡ₚ keep_allowed_extensions allowed_extensions l2.
Proof. intros Hperm. destruct allowed_extensions; simpl; by rewrite Hperm. Qed.

Lemma keep_allowed_extensions_sublist
    (allowed_extensions : option (list string)) (l : list PurePath) :
  keep_allowed_extensions allowed_extensions l `sublist_of` l.
Proof. destruct allowed_extensions; simpl; [apply sublist_filter | done]. Qed.

Lemma elem_of_keep_allowed (allowed_extensions : option (list string))
    (matched_paths : list PurePath) (filepath : PurePath) :
  filepath ∈ keep_allowed_extensions allowed_extensions matched_paths
  ↔ filepath ∈ matched_paths
    ∧ ∀ extensions, allowed_extensions = Some extensions →
        some_suffix_allowed extensions filepath.
Proof.
  destruct allowed_extensions as [extensions|].
  - rewrite elem_of_keep_allowed_extensions. split.
    + intros [? ?]. split; [done|]. by intros ? [= <-].
    + intros [? Hall]. split; [done|]. by apply Hall.
  - simpl. split; [|by intros [? _]]. intros ?. split; [done|]. done.
Qed.

Section one_pattern.
Context `{!Externals}.

Lemma _resolve_single_pattern_locally_Ok (base_path pattern : string)
    (allowed_extensions : option (list string)) (out : list PurePath) :
  _resolve_single_pattern_locally base_path pattern allowed_extensions = Ok out →
  out = sorted PurePath.ltb
          (keep_allowed_extensions allowed_extensions
             (matched_paths_locally base_path pattern)).
Proof.
  unfold _resolve_single_pattern_locally. cbv zeta.
  destruct (_ && _); [done|]. by intros [= <-].
Qed.

Lemma _resolve_single_pattern_in_dataset_repository_Ok
    (dataset_info : DatasetInfo) (pattern : string)
    (allowed_extensions : option (list string)) (out : list PurePath) :
  _resolve_single_pattern_in_dataset_repository dataset_info pattern
    allowed_extensions = Ok out →
  ∃ matched_paths,
    matched_paths_in_repository pattern (all_data_files dataset_info)
      = Ok matched_paths
    ∧ out = sorted PurePath.ltb
              (keep_allowed_extensions allowed_extensions matched_paths).
Proof.
  unfold _resolve_single_pattern_in_dataset_repository.
  destruct (matched_paths_in_repository _ _) as [matched_paths|e]; [|done].
  simpl. destruct (_ && _); [done|]. intros [= <-]. by exists matched_paths.
Qed.

Lemma elem_of_matched_paths_locally (base_path pattern : string)
    (resolved_path : PurePath) :
  resolved_path ∈ matched_paths_locally base_path pattern
  ↔ ∃ filepath,
      filepath ∈ (if is_relative_path pattern then rglob base_path pattern
                  else PurePath.of_string <$> glob_glob pattern)
      ∧ is_data_file_name filepath ∧ is_file filepath = true
      ∧ resolved_path = resolve filepath.
Proof.
  unfold matched_paths_locally. cbv zeta. rewrite list_elem_of_fmap. split.
  - intros (filepath & -> & [[? ?] ?]%list_elem_of_filter). by exists filepath.
  - intros (filepath & ? & ? & ? & ->). exists filepath. split; [done|].
    by apply list_elem_of_filter.
Qed.

Lemma elem_of_all_data_files (dataset_info : DatasetInfo) (filepath : PurePath) :
  filepath ∈ all_data_files dataset_info
  ↔ ∃ dataset_file,
      dataset_file ∈ siblings dataset_info
      ∧ filepath = PurePath.of_string ("/" +:+ rfilename dataset_file).
Proof.
  unfold all_data_files. rewrite list_elem_of_fmap. split.
  - intros (dataset_file & -> & ?). by exists dataset_file.
  - intros (dataset_file & ? & ->). by exists dataset_file.
Qed.

Lemma some_suffix_allowed_mono (narrow wide : list string) (filepath : PurePath) :
  (∀ extension, extension ∈ narrow → extension ∈ wide) →
  some_suffix_allowed narrow filepath → some_suffix_allowed wide filepath.
Proof. intros Hsub (suffix & ? & ?). exists suffix. auto. Qed.

(** The files that a narrow allow-list keeps are kept by a wider one, and
    by no allow-list at all: the narrow filter is a filter of the wide one. *)
Lemma keep_allowed_extensions_mono (narrow : list string)
    (wide : option (list string)) (matched_paths : list PurePath) :
  (∀ extensions, wide = Some extensions →
     ∀ extension, extension ∈ narrow → extension ∈ extensions) →
  keep_allowed_extensions (Some narrow) matched_paths
  = keep_allowed_extensions (Some narrow)
      (keep_allowed_extensions wide matched_paths).
Proof.
  intros Hsub. destruct wide as [extensions|]; [|done]. simpl.
  rewrite list_filter_filter. apply filter_ext_elem_of. intros filepath _.
  rewrite !has_allowed_extension_spec. split; [|by intros [? _]].
  intros ?. split; [done|]. eapply some_suffix_allowed_mono; [|done].
  by apply Hsub.
Qed.

(** The last step of both resolvers, with a wider allow-list. *)
Lemma conclude_mono (pattern : string) (narrow : list string)
    (wide : option (list string)) (matched_paths : list PurePath) :
  (∀ extensions, wide = Some extensions →
     ∀ extension, extension ∈ narrow → extension ∈ extensions) →
  bool_decide (keep_allowed_extensions (Some narrow) matched_paths = [])
    && negb (contains_wildcards pattern) = false →
  bool_decide (keep_allowed_extensions wide matched_paths = [])
    && negb (contains_wildcards pattern) = false
  ∧ sorted PurePath.ltb (keep_allowed_extensions (Some narrow) matched_paths)
    `sublist_of` sorted PurePath.ltb (keep_allowed_extensions wide matched_paths).
Proof.
  intros Hsub Hnarrow. rewrite (keep_allowed_extensions_mono narrow wide) in * by done.
  split.
  - destruct (contains_wildcards pattern); [by rewrite andb_false_r|].
    rewrite andb_true_r in *. apply bool_decide_eq_false in Hnarrow.
    apply bool_decide_eq_false. intros Hnil. by rewrite Hnil in Hnarrow.
  - unfold keep_allowed_extensions at 1. rewrite sorted_paths_filter.
    apply sublist_filter.
Qed.

End one_pattern.

(** X4. The files that one pattern gives, when it gives any result. On disk:
    the resolved paths of the regular files that the glob enumerates and
    whose name, before the path is resolved, is not ignored and does not
    start with a dot. In a repository: the paths, relative to its root, of
    the files whose name is not ignored and does not start with a dot and
    whose path matches the pattern. With an allow-list, some suffix of the
    path that is returned is allowed in addition. *)
Theorem one_pattern_gives_the_matching_files `{!Externals}
    (pattern : string) (allowed_extensions : option (list string)) :
  (∀ base_path out,
     _resolve_single_pattern_locally base_path pattern allowed_extensions = Ok out →
     ∀ resolved_path,
       resolved_path ∈ out
       ↔ ∃ filepath,
           filepath ∈ (if is_relative_path pattern then rglob base_path pattern
                       else PurePath.of_string <$> glob_glob pattern)
           ∧ is_data_file_name filepath ∧ is_file filepath = true
           ∧ resolved_path = resolve filepath
           ∧ ∀ extensions, allowed_extensions = Some extensions →
               some_suffix_allowed extensions resolved_path)
  ∧ (∀ dataset_info out,
       _resolve_single_pattern_in_dataset_repository dataset_info pattern
         allowed_extensions = Ok out →
       ∀ relative,
         relative ∈ out
         ↔ ∃ dataset_file,
             dataset_file ∈ siblings dataset_info
             ∧ is_data_file_name (PurePath.of_string ("/" +:+ rfilename dataset_file))
             ∧ PurePath.match_ (PurePath.of_string ("/" +:+ rfilename dataset_file))
                 pattern = Ok true
             ∧ PurePath.relative_to_root
                 (PurePath.of_string ("/" +:+ rfilename dataset_file)) = Ok relative
             ∧ ∀ extensions, allowed_extensions = Some extensions →
                 some_suffix_allowed extensions relative).
Proof.
  split.
  - intros base_path out Hout resolved_path.
    apply _resolve_single_pattern_locally_Ok in Hout as ->.
    rewrite sorted_Permutation, elem_of_keep_allowed, elem_of_matched_paths_locally.
    split.
    + intros [(filepath & ? & ? & ? & ->) ?]. by exists filepath.
    + intros (filepath & ? & ? & ? & -> & ?). split; [|done]. by exists filepath.
  - intros dataset_info out Hout relative.
    apply _resolve_single_pattern_in_dataset_repository_Ok in Hout
      as (matched_paths & Hmatched & ->).
    rewrite sorted_Permutation, elem_of_keep_allowed,
      (elem_of_matched_paths_in_repository _ _ _ _ Hmatched).
    split.
    + intros [(filepath & (dataset_file & ? & ->)%elem_of_all_data_files & ? & ? & ?) ?].
      by exists dataset_file.
    + intros (dataset_file & ? & ? & ? & ? & ?). split; [|done].
      eexists. split; [|done]. apply elem_of_all_data_files. by exists dataset_file.
Qed.

Lemma one_pattern_gives_the_matching_files_witness :
  let E := externals_of ["/d/a.csv"; "/d/README.md"; "/d/.hidden"] in
  let repo :=
    {| id := "user/demo"; sha := "0ca0d9f";
       siblings := [ {| rfilename := "a.csv" |}; {| rfilename := "README.md" |};
                     {| rfilename := ".hidden" |} ] |} in
  (_resolve_single_pattern_locally "/d" "*" None = Ok [PurePath.of_string "/d/a.csv"]
   ∧ ∀ resolved_path,
       resolved_path ∈ [PurePath.of_string "/d/a.csv"]
       ↔ ∃ filepath,
           filepath ∈ (if is_relative_path "*" then rglob "/d" "*"
                       else PurePath.of_string <$> glob_glob "*")
           ∧ is_data_file_name filepath ∧ is_file filepath = true
           ∧ resolved_path = resolve filepath
           ∧ ∀ extensions, None = Some extensions →
               some_suffix_allowed extensions resolved_path)
  ∧ (_resolve_single_pattern_in_dataset_repository repo "*" None
       = Ok [PurePath.of_string "a.csv"]
     ∧ ∀ relative,
         relative ∈ [PurePath.of_string "a.csv"]
         ↔ ∃ dataset_file,
             dataset_file ∈ siblings repo
             ∧ is_data_file_name (PurePath.of_string ("/" +:+ rfilename dataset_file))
             ∧ PurePath.match_ (PurePath.of_string ("/" +:+ rfilename dataset_file))
                 "*" = Ok true
             ∧ PurePath.relative_to_root
                 (PurePath.of_string ("/" +:+ rfilename dataset_file)) = Ok relative
             ∧ ∀ extensions, None = Some extensions →
                 some_suffix_allowed extensions relative).
Proof.
  intros E repo.
  destruct (one_pattern_gives_the_matching_files "*" None)
    as [Hlocal Hrepo].
  split.
  - split; [by vm_compute|]. apply Hlocal. by vm_compute.
  - split; [by vm_compute|]. apply Hrepo. by vm_compute.
Defined.

(** X5. The paths that a pattern gives in a repository are relative, and
    their names are neither ignored nor start with a dot: [README.md],
    [config.json], [dataset_infos.json], [dummy_data.zip],
    [dataset_dict.json] and the hidden files are never data files. *)
Theorem repository_files_are_relative_and_not_ignored `{!Externals}
    (dataset_info : DatasetInfo) (pattern : string)
    (allowed_extensions : option (list string)) (out : list PurePath) :
  _resolve_single_pattern_in_dataset_repository dataset_info pattern
    allowed_extensions = Ok out →
  Forall (λ relative,
            PurePath.root relative = ""
            ∧ (PurePath.name relative ∉ FILES_TO_IGNORE)
            ∧ startswith "." (PurePath.name relative) = false)
         out.
Proof.
  intros Hout.
  apply _resolve_single_pattern_in_dataset_repository_Ok in Hout
    as (matched_paths & Hmatched & ->).
  apply Forall_forall. intros relative.
  rewrite sorted_Permutation, elem_of_keep_allowed,
    (elem_of_matched_paths_in_repository _ _ _ _ Hmatched).
  intros [(filepath & Hin & [Hignored Hdot] & _ & Hrelative) _].
  destruct (relative_name _ _ _ Hin Hrelative) as [-> ->]. done.
Qed.

Lemma repository_files_are_relative_and_not_ignored_witness :
  let E := externals_of [] in
  let repo :=
    {| id := "user/demo"; sha := "0ca0d9f";
       siblings := [ {| rfilename := "data/a.csv" |}; {| rfilename := "README.md" |};
                     {| rfilename := "data/.hidden" |} ] |} in
  _resolve_single_pattern_in_dataset_repository repo "**/*" None
    = Ok [PurePath.of_string "data/a.csv"]
  ∧ Forall (λ relative,
              PurePath.root relative = ""
              ∧ (PurePath.name relative ∉ FILES_TO_IGNORE)
              ∧ startswith "." (PurePath.name relative) = false)
           [PurePath.of_string "data/a.csv"].
Proof.
  intros E repo. split; [by vm_compute|].
  apply (repository_files_are_relative_and_not_ignored repo "**/*" None).
  by vm_compute.
Defined.

(** X6. The order in which a repository lists its files has no effect on
    the files that a pattern gives, and neither have its id and its commit:
    two repositories that hold the same files give the same list. *)
Theorem order_of_siblings_does_not_matter `{!Externals}
    (dataset_info dataset_info' : DatasetInfo) (pattern : string)
    (allowed_extensions : option (list string)) (out : list PurePath) :
  siblings dataset_info' ≡ₚ siblings dataset_info →
  _resolve_single_pattern_in_dataset_repository dataset_info pattern
    allowed_extensions = Ok out →
  _resolve_single_pattern_in_dataset_repository dataset_info' pattern
    allowed_extensions = Ok out.
Proof.
  intros Hperm. unfold _resolve_single_pattern_in_dataset_repository.
  rewrite !matched_paths_in_repository_eq.
  destruct (mapM (matched_one pattern) (all_data_files dataset_info))
    as [chunks|e] eqn:Hchunks; [|done].
  assert (all_data_files dataset_info' ≡ₚ all_data_files dataset_info) as Hfiles
    by (unfold all_data_files; by rewrite Hperm).
  destruct (concat_mapM_Permutation _ _ _ _ Hchunks Hfiles)
    as (chunks' & -> & Hconcat).
  csimpl.
  pose proof (keep_allowed_extensions_Permutation allowed_extensions _ _ Hconcat)
    as Hkept.
  destruct (contains_wildcards pattern).
  - rewrite !andb_false_r. intros [= <-]. f_equal. by apply sorted_paths_unique.
  - rewrite !andb_true_r. case_bool_decide as Hnil; [done|]. intros [= <-].
    rewrite bool_decide_eq_false_2.
    + f_equal. by apply sorted_paths_unique.
    + intros Hnil'. rewrite Hnil' in Hkept. by apply Permutation_nil_l in Hkept.
Qed.

Lemma order_of_siblings_does_not_matter_witness :
  let E := externals_of [] in
  let repo :=
    {| id := "user/demo"; sha := "0ca0d9f";
       siblings := [ {| rfilename := "b.csv" |}; {| rfilename := "a.csv" |} ] |} in
  let repo' :=
    {| id := "user/copy"; sha := "1db1e0a";
       siblings := [ {| rfilename := "a.csv" |}; {| rfilename := "b.csv" |} ] |} in
  siblings repo' ≡ₚ siblings repo
  ∧ _resolve_single_pattern_in_dataset_repository repo' "*.csv" None
    = Ok (PurePath.of_string <$> ["a.csv"; "b.csv"]).
Proof.
  intros E repo repo'.
  assert (siblings repo' ≡ₚ siblings repo) as Hperm by apply Permutation_swap.
  split; [exact Hperm|].
  apply (order_of_siblings_does_not_matter repo repo' "*.csv" None _ Hperm).
  by vm_compute.
Defined.

(** X7. Widening the allow-list of extensions, or dropping it, never loses
    a file and never turns a result into an error: the files of the
    narrower list are among those of the wider one, in the same order. *)
Theorem wider_allow_list_keeps_more `{!Externals}
    (pattern : string) (narrow : list string) (wide : option (list string)) :
  (∀ extensions, wide = Some extensions →
     ∀ extension, extension ∈ narrow → extension ∈ extensions) →
  (∀ base_path out,
     _resolve_single_pattern_locally base_path pattern (Some narrow) = Ok out →
     ∃ more,
       _resolve_single_pattern_locally base_path pattern wide = Ok more
       ∧ out `sublist_of` more)
  ∧ (∀ dataset_info out,
       _resolve_single_pattern_in_dataset_repository dataset_info pattern
         (Some narrow) = Ok out →
       ∃ more,
         _resolve_single_pattern_in_dataset_repository dataset_info pattern wide
           = Ok more
         ∧ out `sublist_of` more).
Proof.
  intros Hsub. split.
  - intros base_path out. unfold _resolve_single_pattern_locally. cbv zeta.
    destruct (bool_decide _ && _) eqn:Hnarrow; [done|]. intros [= <-].
    destruct (conclude_mono pattern narrow wide _ Hsub Hnarrow) as [-> ?].
    by eexists.
  - intros dataset_info out. unfold _resolve_single_pattern_in_dataset_repository.
    destruct (matched_paths_in_repository _ _) as [matched_paths|e]; [|done].
    csimpl. destruct (bool_decide _ && _) eqn:Hnarrow; [done|]. intros [= <-].
    destruct (conclude_mono pattern narrow wide _ Hsub Hnarrow) as [-> ?].
    by eexists.
Qed.

Lemma wider_allow_list_keeps_more_witness :
  let E := externals_of ["/d/a.csv"; "/d/b.json"; "/d/c.txt"] in
  let repo :=
    {| id := "user/demo"; sha := "0ca0d9f";
       siblings := [ {| rfilename := "a.csv" |}; {| rfilename := "b.json" |};
                     {| rfilename := "c.txt" |} ] |} in
  (∀ extensions, Some ["json"; "csv"] = Some extensions →
     ∀ extension, extension ∈ ["csv"] → extension ∈ extensions)
  ∧ (_resolve_single_pattern_locally "/d" "*" (Some ["csv"])
       = Ok [PurePath.of_string "/d/a.csv"]
     ∧ ∃ more,
         _resolve_single_pattern_locally "/d" "*" (Some ["json"; "csv"]) = Ok more
         ∧ [PurePath.of_string "/d/a.csv"] `sublist_of` more)
  ∧ (_resolve_single_pattern_in_dataset_repository repo "*" (Some ["csv"])
       = Ok [PurePath.of_string "a.csv"]
     ∧ ∃ more,
         _resolve_single_pattern_in_dataset_repository repo "*" (Some ["json"; "csv"])
           = Ok more
         ∧ [PurePath.of_string "a.csv"] `sublist_of` more).
Proof.
  intros E repo.
  assert (∀ extensions, Some ["json"; "csv"] = Some extensions →
            ∀ extension, extension ∈ ["csv"] → extension ∈ extensions) as Hsub.
  { intros extensions [= <-] extension ->%list_elem_of_singleton.
    right. by left. }
  destruct (wider_allow_list_keeps_more "*" ["csv"] (Some ["json"; "csv"]) Hsub)
    as [Hlocal Hrepo].
  split; [exact Hsub|]. split.
  - split; [by vm_compute|]. apply Hlocal. by vm_compute.
  - split; [by vm_compute|]. apply Hrepo. by vm_compute.
Defined.

(** X8. With an allow-list of extensions, whatever it holds, a file whose
    name has no dot is never returned. *)
Theorem allow_list_drops_names_without_a_dot `{!Externals}
    (pattern : string) (allowed_extensions : list string) :
  (∀ base_path out,
     _resolve_single_pattern_locally base_path pattern (Some allowed_extensions)
       = Ok out →
     Forall (λ filepath, contains_char "."%char (PurePath.name filepath) = true) out)
  ∧ (∀ dataset_info out,
       _resolve_single_pattern_in_dataset_repository dataset_info pattern
         (Some allowed_extensions) = Ok out →
       Forall (λ filepath, contains_char "."%char (PurePath.name filepath) = true)
              out).
Proof.
  assert (∀ matched_paths,
            Forall (λ filepath,
                      contains_char "."%char (PurePath.name filepath) = true)
                   (sorted PurePath.ltb
                      (keep_allowed_extensions (Some allowed_extensions)
                         matched_paths))) as Hkept.
  { intros matched_paths. apply Forall_forall. intros filepath.
    rewrite sorted_Permutation, elem_of_keep_allowed_extensions.
    intros [_ (suffix & Hsuffix & _)].
    destruct (contains_char "."%char (PurePath.name filepath)) eqn:Hdot; [done|].
    rewrite (suffixes_without_dot _ Hdot) in Hsuffix. by apply elem_of_nil in Hsuffix. }
  split.
  - intros base_path out Hout.
    apply _resolve_single_pattern_locally_Ok in Hout as ->. apply Hkept.
  - intros dataset_info out Hout.
    apply _resolve_single_pattern_in_dataset_repository_Ok in Hout
      as (matched_paths & _ & ->).
    apply Hkept.
Qed.

Lemma allow_list_drops_names_without_a_dot_witness :
  let E := externals_of ["/d/train"; "/d/train.csv"] in
  let repo :=
    {| id := "user/demo"; sha := "0ca0d9f";
       siblings := [ {| rfilename := "train" |}; {| rfilename := "train.csv" |} ] |} in
  (_resolve_single_pattern_locally "/d" "train*" (Some [""; "csv"])
     = Ok [PurePath.of_string "/d/train.csv"]
   ∧ Forall (λ filepath, contains_char "."%char (PurePath.name filepath) = true)
            [PurePath.of_string "/d/train.csv"])
  ∧ (_resolve_single_pattern_in_dataset_repository repo "train*" (Some [""; "csv"])
       = Ok [PurePath.of_string "train.csv"]
     ∧ Forall (λ filepath, contains_char "."%char (PurePath.name filepath) = true)
              [PurePath.of_string "train.csv"]).
Proof.
  intros E repo.
  destruct (allow_list_drops_names_without_a_dot "train*" [""; "csv"])
    as [Hlocal Hrepo].
  split.
  - split; [by vm_compute|]. apply (Hlocal "/d"). by vm_compute.
  - split; [by vm_compute|]. apply (Hrepo repo). by vm_compute.
Defined.



(** ** The URLs of the files of a repository *)

Lemma filter_all {A} (P : A → Prop) `{!∀ x, Decision (P x)} (l : list A) :
  Forall P l → filter P l = l.
Proof.
  induction 1 as [|x l ? _ IH]; [done|].
  rewrite filter_cons, decide_True by done. by rewrite IH.
Qed.

Lemma lstrip_not_first (c : ascii) (s : string) :
  startswith (String c "") s = false → lstrip c s = s.
Proof.
  destruct s as [|c' s]; [done|]. unfold startswith. cbn [String.prefix lstrip].
  destruct (decide (c = c')) as [->|Hne]; [|done].
  destruct (Ascii.ascii_dec c' c'); [|done]. by destruct s.
Qed.

Lemma clean_name_first (rfilename : string) :
  clean_name rfilename → startswith "/" rfilename = false.
Proof.
  unfold clean_name. destruct rfilename as [|c s]; [done|]. cbn [split].
  destruct (decide (c = "/"%char)) as [->|Hne].
  - intros [[? _] _]%Forall_cons. done.
  - intros _. unfold startswith. cbn [String.prefix].
    destruct (Ascii.ascii_dec "/" c) as [<-|]; [by destruct Hne | done].
Qed.

Lemma of_string_clean (rfilename : string) :
  clean_name rfilename →
  PurePath.of_string ("/" +:+ rfilename)
  = PurePath.Build ("/" :: split "/"%char rfilename).
Proof.
  intros Hclean. unfold PurePath.of_string, PurePath.splitroot.
  assert (startswith "/" ("/" +:+ rfilename) = true) as ->
    by (unfold startswith; simpl; by destruct rfilename).
  assert (lstrip "/"%char ("/" +:+ rfilename) = rfilename) as ->.
  { change ("/" +:+ rfilename) with (String "/"%char rfilename). simpl.
    by apply lstrip_not_first, clean_name_first. }
  change ("/" +:+ rfilename) with (String "/"%char rfilename).
  rewrite decide_False by (simpl; lia).
  rewrite decide_False by done. by rewrite filter_all.
Qed.

(** The name of a file of a repository is read back from its relative
    path. *)
Lemma clean_name_round_trip (rfilename : string) (relative : PurePath) :
  clean_name rfilename →
  PurePath.relative_to_root (PurePath.of_string ("/" +:+ rfilename)) = Ok relative →
  PurePath.as_posix relative = rfilename.
Proof.
  intros Hclean. rewrite of_string_clean by done.
  unfold PurePath.relative_to_root, PurePath.root. simpl. intros [= <-].
  unfold PurePath.as_posix, PurePath.root. simpl.
  pose proof (split_cons_inv "/"%char rfilename) as Hnonempty.
  pose proof (join_split "/"%char rfilename) as Hjoin.
  destruct (split "/"%char rfilename) as [|first rest] eqn:Hsplit; [done|].
  assert (contains_char "/"%char first = false) as Hfirst.
  { apply (split_no_sep "/"%char rfilename). rewrite Hsplit. by left. }
  by rewrite (startswith_sep_false "/"%char first Hfirst).
Qed.

(** X10. The URLs that patterns give in a repository are those of files of
    the repository: when the names of the files are clean (components
    separated by single slashes, none of them a dot), every URL is the URL
    of the hub for the id of the repository, the name of one of its files as
    the repository gives it, and its commit. *)
Theorem repository_urls_name_the_files `{!Externals}
    (dataset_info : DatasetInfo) (patterns : list string)
    (allowed_extensions : option (list string)) (out : list DataFile) :
  Forall (λ dataset_file, clean_name (rfilename dataset_file))
         (siblings dataset_info) →
  resolve_patterns_in_dataset_repository dataset_info patterns allowed_extensions
    = Ok out →
  Forall (λ data_file,
            ∃ dataset_file,
              dataset_file ∈ siblings dataset_info
              ∧ data_file
                = Url (hf_hub_url (id dataset_info) (rfilename dataset_file)
                                  (sha dataset_info)))
         out.
Proof.
  intros Hclean
    (chunks & Hchunks & -> & _)%resolve_patterns_in_dataset_repository_Ok.
  apply Forall_forall. intros data_file.
  rewrite (elem_of_concat_mapM _ _ _ _ Hchunks).
  intros (pattern & _ & chunk & Hchunk & Hin). unfold urls_of_pattern in Hchunk.
  destruct (_resolve_single_pattern_in_dataset_repository _ _ _)
    as [rel_paths|e] eqn:Hpaths; [|done].
  injection Hchunk as <-. apply list_elem_of_fmap in Hin as (relative & -> & Hin).
  apply _resolve_single_pattern_in_dataset_repository_Ok in Hpaths
    as (matched_paths & Hmatched & ->).
  rewrite sorted_Permutation, elem_of_keep_allowed,
    (elem_of_matched_paths_in_repository _ _ _ _ Hmatched) in Hin.
  destruct Hin as [(filepath & Hfile & _ & _ & Hrelative) _].
  apply elem_of_all_data_files in Hfile as (dataset_file & Hsibling & ->).
  exists dataset_file. split; [done|]. unfold url_of.
  rewrite (clean_name_round_trip (rfilename dataset_file)); [done| |done].
  rewrite Forall_forall in Hclean. by apply Hclean.
Qed.

Lemma repository_urls_name_the_files_witness :
  let E := externals_of [] in
  let repo :=
    {| id := "user/demo"; sha := "0ca0d9f";
       siblings := [ {| rfilename := "data/train.csv" |};
                     {| rfilename := "data/sub/test.csv" |} ] |} in
  Forall (λ dataset_file, clean_name (rfilename dataset_file)) (siblings repo)
  ∧ resolve_patterns_in_dataset_repository repo ["**/*.csv"] None
    = Ok [Url "https://huggingface.co/datasets/user/demo/resolve/0ca0d9f/data/sub/test.csv";
          Url "https://huggingface.co/datasets/user/demo/resolve/0ca0d9f/data/train.csv"]
  ∧ Forall (λ data_file,
              ∃ dataset_file,
                dataset_file ∈ siblings repo
                ∧ data_file
                  = Url (hf_hub_url (id repo) (rfilename dataset_file) (sha repo)))
           [Url "https://huggingface.co/datasets/user/demo/resolve/0ca0d9f/data/sub/test.csv";
            Url "https://huggingface.co/datasets/user/demo/resolve/0ca0d9f/data/train.csv"].
Proof.
  intros E repo.
  assert (Forall (λ dataset_file, clean_name (rfilename dataset_file))
                 (siblings repo)) as Hclean.
  { unfold clean_name. repeat constructor; done. }
  split; [exact Hclean|]. split; [by vm_compute|].
  apply (repository_urls_name_the_files repo ["**/*.csv"] None _ Hclean).
  by vm_compute.
Defined.

(** ** What the inference returns *)

Lemma contains_char_app (c : ascii) (s1 s2 : string) :
  contains_char c (s1 +:+ s2) = contains_char c s1 || contains_char c s2.
Proof.
  induction s1 as [|c' s1 IH]; [done|].
  change (String c' s1 +:+ s2) with (String c' (s1 +:+ s2)). simpl.
  by destruct (decide (c = c')).
Qed.

Lemma format_split_sharded_wildcard (split : string) :
  has_wildcard (format_split SPLIT_PATTERN_SHARDED split).
Proof.
  rewrite format_split_sharded. exists "*"%char. split; [by left|].
  apply contains_char_spec. rewrite !contains_char_app.
  rewrite (orb_comm (contains_char _ split)). by rewrite orb_true_r.
Qed.

Lemma default_patterns_wildcards (patterns_dict : dict string (list string))
    (item : string * list string) :
  patterns_dict ∈ ALL_DEFAULT_PATTERNS → item ∈ patterns_dict →
  item.2 ≠ [] ∧ Forall (λ pattern, contains_wildcards pattern = true) item.2.
Proof.
  assert (Forall (λ patterns_dict : dict string (list string),
                    Forall (λ item : string * list string,
                              item.2 ≠ []
                              ∧ Forall (λ pattern, contains_wildcards pattern = true)
                                       item.2)
                           patterns_dict)
                 ALL_DEFAULT_PATTERNS) as Hall
    by (by apply (bool_decide_unpack _)).
  rewrite Forall_forall in Hall. intros Hgroup Hitem.
  specialize (Hall _ Hgroup). rewrite Forall_forall in Hall. by apply Hall.
Qed.

Section outcome.
Context `{!Externals} (pattern_resolver : Resolver).

Lemma matching_splits_pattern (patterns_dict : dict string (list string))
    (pattern : option string) :
  (non_empty_splits pattern_resolver (items patterns_dict) [] pattern).1
  = matching_splits pattern_resolver patterns_dict.
Proof. apply non_empty_splits_fst. Qed.

(** When the default patterns give a result, it is made of the items of one
    group, at the splits in which the group finds a file. *)
Lemma try_default_patterns_Ok (groups : list (dict string (list string)))
    (pattern : option string) (patterns : dict string (list string)) :
  (∀ patterns_dict, patterns_dict ∈ groups → wf patterns_dict) →
  try_default_patterns pattern_resolver groups pattern = Ok patterns →
  ∃ patterns_dict splits,
    patterns_dict ∈ groups
    ∧ matching_splits pattern_resolver patterns_dict = Ok splits
    ∧ splits ≠ []
    ∧ patterns = at_splits splits patterns_dict.
Proof.
  revert pattern.
  induction groups as [|patterns_dict rest IH]; intros pattern Hwf.
  - simpl. by destruct pattern.
  - cbn [try_default_patterns].
    pose proof (matching_splits_pattern patterns_dict pattern) as Hsplits.
    destruct (non_empty_splits _ _ _ _) as [[[|split splits]|e] pattern'];
      simpl in Hsplits; [| |done].
    + intros (patterns_dict' & splits' & ? & ? & ? & ?)%IH.
      * exists patterns_dict', splits'. split; [by right | done].
      * intros ? ?. apply Hwf. by right.
    + assert (wf patterns_dict) by (apply Hwf; by left).
      rewrite restrict_sublist;
        [|done | by apply (matching_splits_sublist pattern_resolver)].
      intros [= <-]. exists patterns_dict, (split :: splits).
      split; [by left | done].
Qed.


End outcome.

Lemma at_splits_nonempty (splits : list string)
    (patterns_dict : dict string (list string)) :
  splits `sublist_of` keys patterns_dict → splits ≠ [] →
  at_splits splits patterns_dict ≠ [].
Proof.
  intros Hsub Hne. destruct splits as [|split splits]; [done|]. clear Hne.
  assert (split ∈ keys patterns_dict) as Hin
    by (eapply elem_of_sublist; [by left | done]).
  apply list_elem_of_fmap in Hin as (item & -> & Hitem).
  intros Hnil.
  assert (item ∈ at_splits (item.1 :: splits) patterns_dict) as Hfound
    by (apply list_elem_of_filter; split; [by left | done]).
  rewrite Hnil in Hfound. by apply elem_of_nil in Hfound.
Qed.

Lemma wf_at_splits (splits : list string)
    (patterns_dict : dict string (list string)) :
  wf patterns_dict → wf (at_splits splits patterns_dict).
Proof.
  intros Hwf. apply (sublist_NoDup _ (keys patterns_dict)); [exact Hwf|].
  apply fmap_sublist, sublist_filter.
Qed.

Section wrappers.
Context `{!Externals}.



End wrappers.

(** X11. What the inference returns, when it returns: a dict that is not
    empty, in which every split has a pattern, and every pattern holds a
    wildcard, so that none of them fails on its own for want of a file. *)
Theorem inferred_patterns_hold_wildcards `{!Externals}
    (pattern_resolver : Resolver) (patterns : dict string (list string)) :
  _get_data_files_patterns pattern_resolver = Ok patterns →
  wf patterns
  ∧ patterns ≠ []
  ∧ Forall (λ item, item.2 ≠ [] ∧ Forall has_wildcard item.2) patterns.
Proof.
  rewrite _get_data_files_patterns_unfold.
  destruct (pattern_resolver sharded_glob) as [data_files|e]; [|done].
  cbn [mbind result_bind].
  destruct (0 <? length data_files) eqn:Hlength.
  - destruct (split_names _ _) as [splits|e] eqn:Hsplits; [|done].
    cbn [mbind result_bind].
    intros [= <-]. split; [apply wf_of_items|]. split.
    + apply mapM_Ok_length in Hsplits. rewrite length_fmap in Hsplits.
      apply Nat.ltb_lt in Hlength.
      destruct splits as [|split splits]; [simpl in Hsplits; lia|].
      assert (split ∈ keys (of_items
                ((λ split, (split, [format_split SPLIT_PATTERN_SHARDED split]))
                   <$> set_iter (split :: splits)))) as Hkey.
      { apply elem_of_keys_of_items. rewrite <- list_fmap_compose.
        apply list_elem_of_fmap. exists split. split; [done|].
        rewrite set_iter_perm. apply elem_of_remove_dups. by left. }
      intros Hnil. rewrite Hnil in Hkey. by apply elem_of_nil in Hkey.
    + apply Forall_forall. intros [split patterns] Hitem.
      apply get_Some_elem_of in Hitem; [|apply wf_of_items].
      apply get_of_items_Some, list_elem_of_fmap in Hitem as (split' & [= -> ->] & _).
      simpl. split; [done|]. constructor; [|done].
      apply format_split_sharded_wildcard.
  - intros (patterns_dict & splits & Hgroup & Hsplits & Hne & ->)%try_default_patterns_Ok;
      [|apply wf_default_patterns].
    apply (matching_splits_sublist pattern_resolver) in Hsplits.
    split; [by apply wf_at_splits, wf_default_patterns|].
    split; [by apply at_splits_nonempty|].
    apply Forall_forall. intros item [_ Hitem]%list_elem_of_filter.
    destruct (default_patterns_wildcards _ _ Hgroup Hitem) as [? Hwild].
    split; [done|]. eapply Forall_impl; [exact Hwild|].
    intros pattern. apply contains_wildcards_spec.
Qed.

Lemma inferred_patterns_hold_wildcards_witness :
  let E := externals_of ["/d/train.csv"; "/d/test.csv"] in
  let patterns := [("train", ["*train*"]); ("test", ["*test*"; "*eval*"])] in
  _get_data_files_patterns (local_resolver "/d") = Ok patterns
  ∧ wf patterns
  ∧ patterns ≠ []
  ∧ Forall (λ item, item.2 ≠ [] ∧ Forall has_wildcard item.2) patterns.
Proof.
  intros E patterns. split; [by vm_compute|].
  apply (inferred_patterns_hold_wildcards (local_resolver "/d")).
  by vm_compute.
Defined.

(** ** From the inferred patterns to the files *)



Section found.
Context `{!Externals} (pattern_resolver : Resolver).
Hypothesis Htotal :
  ∀ patterns_dict item,
    patterns_dict ∈ ALL_DEFAULT_PATTERNS → item ∈ patterns_dict →
    Forall (λ pattern, is_Ok (pattern_resolver pattern) = true) item.2.



End found.

Section totality.
Context `{!Externals}.








End totality.





(** ** Errors while the default patterns are probed *)

Section probing.
Context (pattern_resolver : Resolver).

Lemma matching_splits_app (l1 l2 : dict string (list string)) :
  matching_splits pattern_resolver (l1 ++ l2)
  = (splits1 ← matching_splits pattern_resolver l1;
     splits2 ← matching_splits pattern_resolver l2;
     Ok (splits1 ++ splits2)).
Proof.
  induction l1 as [|[split patterns] l1 IH].
  - change (matching_splits pattern_resolver []) with (Ok (@nil string)).
    simpl. by destruct (matching_splits pattern_resolver l2).
  - rewrite <- app_comm_cons, !matching_splits_cons, IH.
    destruct (first_match pattern_resolver patterns None).1 as [[|]|[]];
      try done.
    destruct (matching_splits pattern_resolver l1); [|done]. simpl.
    by destruct (matching_splits pattern_resolver l2).
Qed.

Lemma first_match_raise (empties rest : list string) (pattern : string) (e : exn) :
  Forall (λ pattern, pattern_resolver pattern = Ok []) empties →
  pattern_resolver pattern = Raise e →
  (first_match pattern_resolver (empties ++ pattern :: rest) None).1 = Raise e.
Proof.
  intros Hempties Hraise.
  induction Hempties as [|p empties Hp _ IH]; cbn [first_match app].
  - by rewrite Hraise.
  - rewrite Hp. cbn [length Nat.ltb Nat.leb].
    by rewrite (first_match_fst _ _ _ None).
Qed.

End probing.

Section probing_outcome.
Context (pattern_resolver : Resolver).

(** An error in the loop over a group is the outcome of the search, when
    the groups before it find no split. *)
Lemma try_default_patterns_raise (earlier later : list (dict string (list string)))
    (patterns_dict : dict string (list string)) (pattern : option string) (e : exn) :
  Forall (λ patterns_dict, matching_splits pattern_resolver patterns_dict = Ok [])
         earlier →
  is_Some pattern →
  matching_splits pattern_resolver patterns_dict = Raise e →
  try_default_patterns pattern_resolver (earlier ++ patterns_dict :: later) pattern
  = Raise e.
Proof.
  intros Hearlier Hbound Hraise.
  destruct (try_default_patterns_skip_all pattern_resolver earlier
              (patterns_dict :: later) pattern Hearlier Hbound)
    as (pattern' & _ & ->).
  cbn [try_default_patterns].
  pose proof (matching_splits_pattern pattern_resolver patterns_dict pattern')
    as Hsplits.
  rewrite Hraise in Hsplits.
  destruct (non_empty_splits _ _ _ _) as [found pattern'']. simpl in Hsplits.
  by subst found.
Qed.

End probing_outcome.

(** X14. An error of the resolver while the default patterns of a split are
    probed, when the patterns of the split tried before resolved to no
    file. A [FileNotFoundError] drops the split, with the patterns of the
    split that are left: the splits of the group are looked for as if the
    split were not there, and if some are found, no group before having
    found any, [_get_data_files_patterns] returns them with their patterns.
    Any other error ends the search: it is the outcome of the loop over the
    group, of the loop over the groups and of [_get_data_files_patterns],
    whatever the patterns and the groups after it. *)
Theorem error_while_probing_a_split `{!Externals} (pattern_resolver : Resolver)
    (before after : dict string (list string)) (split : string)
    (empties rest : list string) (pattern : string) (e : exn) :
  Forall (λ pattern, pattern_resolver pattern = Ok []) empties →
  pattern_resolver pattern = Raise e →
  (∀ msg, e = FileNotFoundError msg →
     matching_splits pattern_resolver
       (before ++ (split, empties ++ pattern :: rest) :: after)
     = matching_splits pattern_resolver (before ++ after)
     ∧ ∀ earlier later splits,
         pattern_resolver sharded_glob = Ok [] →
         ALL_DEFAULT_PATTERNS
         = earlier ++ (before ++ (split, empties ++ pattern :: rest) :: after)
             :: later →
         Forall (λ patterns_dict,
                   matching_splits pattern_resolver patterns_dict = Ok [])
                earlier →
         matching_splits pattern_resolver (before ++ after) = Ok splits →
         splits ≠ [] →
         _get_data_files_patterns pattern_resolver
         = Ok (at_splits splits
                 (before ++ (split, empties ++ pattern :: rest) :: after)))
  ∧ ((∀ msg, e ≠ FileNotFoundError msg) →
     is_Ok (matching_splits pattern_resolver before) = true →
     matching_splits pattern_resolver
       (before ++ (split, empties ++ pattern :: rest) :: after)
     = Raise e
     ∧ (∀ earlier later tried,
          Forall (λ patterns_dict,
                    matching_splits pattern_resolver patterns_dict = Ok [])
                 earlier →
          is_Some tried →
          try_default_patterns pattern_resolver
            (earlier ++ (before ++ (split, empties ++ pattern :: rest) :: after)
               :: later)
            tried
          = Raise e)
     ∧ (∀ earlier later,
          pattern_resolver sharded_glob = Ok [] →
          ALL_DEFAULT_PATTERNS
          = earlier ++ (before ++ (split, empties ++ pattern :: rest) :: after)
              :: later →
          Forall (λ patterns_dict,
                    matching_splits pattern_resolver patterns_dict = Ok [])
                 earlier →
          _get_data_files_patterns pattern_resolver = Raise e)).
Proof.
  intros Hempties Hraise.
  pose proof (first_match_raise pattern_resolver empties rest pattern e
                Hempties Hraise) as Hfirst.
  split.
  - intros msg ->.
    assert (matching_splits pattern_resolver
              (before ++ (split, empties ++ pattern :: rest) :: after)
            = matching_splits pattern_resolver (before ++ after)) as Hdrop
      by (by rewrite !matching_splits_app, matching_splits_cons, Hfirst).
    split; [exact Hdrop|].
    intros earlier later splits Hsharded Hgroups Hearlier Hsplits Hne.
    apply (default_patterns_priority pattern_resolver earlier later); try done.
    by rewrite Hdrop.
  - intros Hother Hbefore.
    assert (matching_splits pattern_resolver
              (before ++ (split, empties ++ pattern :: rest) :: after)
            = Raise e) as Hend.
    { rewrite matching_splits_app, matching_splits_cons, Hfirst.
      destruct (matching_splits pattern_resolver before); [|done]. simpl.
      destruct e; try done. by destruct (Hother msg). }
    split; [exact Hend|]. split.
    + intros earlier later tried Hearlier Hbound.
      by apply try_default_patterns_raise.
    + intros earlier later Hsharded Hgroups Hearlier.
      rewrite _get_data_files_patterns_unfold, Hsharded, Hgroups.
      cbn [mbind result_bind length Nat.ltb Nat.leb].
      apply try_default_patterns_raise; [done|by eexists|done].
Qed.

Lemma error_while_probing_a_split_witness :
  let E := externals_of [] in
  let resolver answers :=
    {| call := λ pattern, default (Ok []) (get answers pattern);
       repr := "resolver" |} in
  let train := Ok [PurePath.of_string "train.csv"] in
  let gone :=
    resolver [("*train*", train); ("*test*", Raise (FileNotFoundError "gone"))] in
  let unreadable :=
    resolver [("*train*", train); ("*dev*", Raise (OSError "unreadable"))] in
  (gone "*test*" = Raise (FileNotFoundError "gone")
   ∧ matching_splits gone DEFAULT_PATTERNS_SPLIT_IN_FILENAME = Ok ["train"]
   ∧ _get_data_files_patterns gone = Ok [("train", ["*train*"])])
  ∧ (unreadable "*dev*" = Raise (OSError "unreadable")
     ∧ matching_splits unreadable DEFAULT_PATTERNS_SPLIT_IN_FILENAME
       = Raise (OSError "unreadable")
     ∧ _get_data_files_patterns unreadable = Raise (OSError "unreadable")).
Proof.
  intros E resolver train gone unreadable. split.
  - destruct (error_while_probing_a_split gone
                [("train", ["*train*"])] [("validation", ["*dev*"; "*valid*"])]
                "test" [] ["*eval*"] "*test*" (FileNotFoundError "gone"))
      as [Hdrop _]; [done..|].
    destruct (Hdrop "gone" eq_refl) as [Hsplits Hreturn].
    split; [done|]. split.
    + etrans; [exact Hsplits|]. by vm_compute.
    + etrans.
      * apply (Hreturn [] [DEFAULT_PATTERNS_SPLIT_IN_DIR_NAME; DEFAULT_PATTERNS_ALL]
                 ["train"]); by vm_compute.
      * by vm_compute.
  - destruct (error_while_probing_a_split unreadable
                [("train", ["*train*"]); ("test", ["*test*"; "*eval*"])] []
                "validation" [] ["*valid*"] "*dev*" (OSError "unreadable"))
      as [_ Hend]; [done..|].
    destruct Hend as (Hgroup & _ & Hinference); [done | by vm_compute|].
    split; [done|]. split; [exact Hgroup|].
    apply (Hinference [] [DEFAULT_PATTERNS_SPLIT_IN_DIR_NAME; DEFAULT_PATTERNS_ALL]);
      by vm_compute.
Defined.

(** ** The origin metadata of a list of local or remote files *)

Section metadata.
Context `{!Externals}.

Lemma DataFilesList_from_local_or_remote_eq (patterns : list string)
    (base_path : option string) (allowed_extensions : option (list string))
    (use_auth_token : AuthToken) :
  DataFilesList_from_local_or_remote patterns base_path allowed_extensions
    use_auth_token
  = (data_files ←
       resolve_patterns_locally_or_by_urls (default (resolved "") base_path)
         patterns allowed_extensions;
     origin_metadata ←
       mapM (_get_single_origin_metadata_locally_or_by_urls use_auth_token)
            data_files;
     Ok {| data_files := data_files; origin_metadata := origin_metadata |}).
Proof. by destruct base_path. Qed.

End metadata.

(** X15. A list of data files built by [from_local_or_remote] has one
    entry of origin metadata per data file, in the order of the files: the
    ETag of a URL, the time of last modification of a local file, each as a
    tuple of one string. The files are those that the patterns resolve to,
    from the base path or, without one, from the current directory. *)
Theorem local_lists_have_one_metadata_per_file `{!Externals}
    (patterns : list string) (base_path : option string)
    (allowed_extensions : option (list string)) (use_auth_token : AuthToken)
    (files : DataFilesList) :
  DataFilesList_from_local_or_remote patterns base_path allowed_extensions
    use_auth_token = Ok files →
  resolve_patterns_locally_or_by_urls (default (resolved "") base_path) patterns
    allowed_extensions = Ok (data_files files)
  ∧ Forall2 (λ data_file metadata,
               ∃ stamp,
                 metadata = [stamp]
                 ∧ match data_file with
                   | Url url => request_etag url use_auth_token = Ok stamp
                   | LocalPath path =>
                       getmtime (PurePath.as_posix (resolve path)) = Ok stamp
                   end)
            (data_files files) (origin_metadata files).
Proof.
  rewrite DataFilesList_from_local_or_remote_eq.
  destruct (resolve_patterns_locally_or_by_urls _ _ _) as [resolved_files|e];
    [|done].
  cbn [mbind result_bind].
  destruct (mapM _ resolved_files) as [metadata|e] eqn:Hmetadata; [|done].
  intros [= <-]. split; [done|]. simpl.
  apply mapM_Ok_Forall2 in Hmetadata.
  eapply Forall2_impl; [exact Hmetadata|]. intros data_file stamps.
  unfold _get_single_origin_metadata_locally_or_by_urls.
  destruct data_file as [path|url].
  - destruct (getmtime _) as [stamp|e]; [|done]. intros [= <-]. by exists stamp.
  - destruct (request_etag _ _) as [stamp|e]; [|done]. intros [= <-]. by exists stamp.
Qed.

Lemma local_lists_have_one_metadata_per_file_witness :
  let E := externals_of ["/d/a.csv"] in
  let url := "https://example.org/b.csv" in
  let files :=
    {| data_files := [LocalPath (PurePath.of_string "/d/a.csv"); Url url];
       origin_metadata := [["0.0"]; ["W/" +:+ url]] |} in
  DataFilesList_from_local_or_remote ["*.csv"; url] (Some "/d") None None = Ok files
  ∧ Forall2 (λ data_file metadata,
               ∃ stamp,
                 metadata = [stamp]
                 ∧ match data_file with
                   | Url url => request_etag url None = Ok stamp
                   | LocalPath path =>
                       getmtime (PurePath.as_posix (resolve path)) = Ok stamp
                   end)
            (data_files files) (origin_metadata files).
Proof.
  intros E url files.
  assert (DataFilesList_from_local_or_remote ["*.csv"; url] (Some "/d") None None
          = Ok files) as Hfiles by (by vm_compute).
  split; [exact Hfiles|].
  apply (local_lists_have_one_metadata_per_file _ _ _ _ _ Hfiles).
Defined.

(** X16. [from_local_or_remote] fails exactly when the resolution of the
    patterns fails, or when it succeeds and the origin metadata of one of the
    files cannot be read; the error is that of the resolution, or that of
    the first file, in the order of the list, whose metadata cannot be
    read. *)
Theorem local_list_fails_with_its_first_error `{!Externals}
    (patterns : list string) (base_path : option string)
    (allowed_extensions : option (list string)) (use_auth_token : AuthToken)
    (e : exn) :
  DataFilesList_from_local_or_remote patterns base_path allowed_extensions
    use_auth_token = Raise e
  ↔ resolve_patterns_locally_or_by_urls (default (resolved "") base_path)
      patterns allowed_extensions = Raise e
    ∨ ∃ before data_file after,
        resolve_patterns_locally_or_by_urls (default (resolved "") base_path)
          patterns allowed_extensions = Ok (before ++ data_file :: after)
        ∧ Forall (λ data_file,
                    is_Ok (_get_single_origin_metadata_locally_or_by_urls
                             use_auth_token data_file) = true)
                 before
        ∧ _get_single_origin_metadata_locally_or_by_urls use_auth_token data_file
          = Raise e.
Proof.
  rewrite DataFilesList_from_local_or_remote_eq.
  destruct (resolve_patterns_locally_or_by_urls _ _ _) as [resolved_files|e'].
  - cbn [mbind result_bind]. split.
    + destruct (mapM _ resolved_files) as [metadata|e''] eqn:Hmetadata; [done|].
      intros [= ->]. right.
      apply mapM_Raise_inv in Hmetadata
        as (before & data_file & after & -> & Hbefore & Hraise).
      by exists before, data_file, after.
    + intros [?|(before & data_file & after & [= ->] & Hbefore & Hraise)]; [done|].
      by rewrite (mapM_Raise_first _ before after data_file e).
  - cbn [mbind result_bind]. split.
    + intros [= ->]. by left.
    + by intros [[= ->]|(? & ? & ? & ? & _)].
Qed.

(** ** The constructors of [DataFilesDict] *)

Lemma assign_all_app {K V} `{EqDecision K} (d : dict K V) (l1 l2 : list (K * V)) :
  assign_all d (l1 ++ l2) = assign_all (assign_all d l1) l2.
Proof. apply foldl_app. Qed.

Lemma get_assign_all_fresh {K V} `{EqDecision K} (d : dict K V)
    (l : list (K * V)) (k : K) :
  k ∉ l.*1 → get (assign_all d l) k = get d k.
Proof.
  revert d. induction l as [|[k' v'] l IH]; intros d; [done|]. csimpl.
  intros [Hne Hfresh]%not_elem_of_cons.
  change (assign_all d ((k', v') :: l)) with (assign_all (setitem d k' v') l).
  rewrite IH, get_setitem by done. by rewrite decide_False.
Qed.

Section fill.
Context (from_patterns : list string → result DataFilesList).

Lemma fill_spec (items : list (string * PatternsForKey)) (out : DataFilesDict) :
  fill from_patterns items out
  = (resolved_items ← mapM (item_for_key from_patterns) items;
     Ok (assign_all out resolved_items)).
Proof.
  revert out. induction items as [|[key patterns_for_key] rest IH]; intros out;
    [reflexivity|].
  cbn [fill mapM].
  change (item_for_key from_patterns (key, patterns_for_key))
    with ((λ value, (key, value)) <$> value_for_key from_patterns patterns_for_key).
  destruct patterns_for_key as [patterns|files]; cbn [value_for_key].
  - destruct (from_patterns patterns) as [value|e]; [|done].
    cbn [mbind result_bind fmap result_fmap]. rewrite IH.
    by destruct (mapM (item_for_key from_patterns) rest).
  - cbn [mbind result_bind fmap result_fmap]. rewrite IH.
    by destruct (mapM (item_for_key from_patterns) rest).
Qed.

Lemma mapM_item_for_key_keys (items : list (string * PatternsForKey))
    (resolved_items : list (string * DataFilesList)) :
  mapM (item_for_key from_patterns) items = Ok resolved_items → resolved_items.*1 = items.*1.
Proof.
  rewrite mapM_Ok_Forall2. induction 1 as [|item out rest outs Hitem _ IH]; [done|].
  csimpl. rewrite IH. f_equal. unfold item_for_key in Hitem.
  destruct (value_for_key from_patterns item.2); [|done]. by injection Hitem as <-.
Qed.

(** On a dict of patterns, the loop gives the keys with their values, in
    the order of the keys. *)
Lemma fill_Ok (patterns : dict string PatternsForKey) (out : DataFilesDict) :
  wf patterns →
  fill from_patterns (items patterns) [] = Ok out
  ↔ mapM (item_for_key from_patterns) patterns = Ok out.
Proof.
  intros Hwf. rewrite fill_spec. unfold items.
  destruct (mapM (item_for_key from_patterns) patterns) as [resolved_items|e] eqn:Hitems; [|done].
  simpl. fold (of_items resolved_items). rewrite of_items_NoDup; [done|].
  by rewrite (mapM_item_for_key_keys _ _ Hitems).
Qed.

Lemma fill_Raise (patterns : dict string PatternsForKey) (e : exn) :
  fill from_patterns (items patterns) [] = Raise e
  ↔ mapM (item_for_key from_patterns) patterns = Raise e.
Proof.
  rewrite fill_spec. unfold items.
  by destruct (mapM (item_for_key from_patterns) patterns) as [resolved_items|e'].
Qed.

Lemma mapM_item_for_key_resolved (d : DataFilesDict) :
  mapM (item_for_key from_patterns) (as_resolved d) = Ok d.
Proof.
  induction d as [|[key files] d IH]; [done|].
  change (as_resolved ((key, files) :: d))
    with ((key, Resolved files) :: as_resolved d).
  cbn [mapM]. by rewrite IH.
Qed.

Lemma fill_each_key (patterns : dict string PatternsForKey) (out : DataFilesDict) :
  wf patterns →
  fill from_patterns (items patterns) [] = Ok out →
  keys out = keys patterns
  ∧ Forall2 (λ item resolved_item,
               resolved_item.1 = item.1
               ∧ value_for_key from_patterns item.2 = Ok resolved_item.2)
            patterns out.
Proof.
  intros Hwf Hout%fill_Ok; [|done]. split.
  - by apply mapM_item_for_key_keys.
  - apply mapM_Ok_Forall2 in Hout. eapply Forall2_impl; [exact Hout|].
    intros item resolved_item. unfold item_for_key.
    destruct (value_for_key from_patterns item.2); [|done]. by intros [= <-].
Qed.

Lemma fill_first_failure (before after : dict string PatternsForKey)
    (key : string) (patterns_for_key : PatternsForKey) (e : exn) :
  Forall (λ item, is_Ok (value_for_key from_patterns item.2) = true) before →
  value_for_key from_patterns patterns_for_key = Raise e →
  fill from_patterns (items (before ++ (key, patterns_for_key) :: after)) []
  = Raise e.
Proof.
  intros Hbefore Hraise. apply fill_Raise, mapM_Raise_first.
  - eapply Forall_impl; [exact Hbefore|]. intros item. unfold item_for_key.
    by destruct (value_for_key from_patterns item.2).
  - unfold item_for_key. simpl. by rewrite Hraise.
Qed.

Lemma fill_Permutation (patterns patterns' : dict string PatternsForKey)
    (out : DataFilesDict) :
  wf patterns → patterns' ≡ₚ patterns →
  fill from_patterns (items patterns) [] = Ok out →
  wf out
  ∧ ∃ out', fill from_patterns (items patterns') [] = Ok out' ∧ out' ≡ₚ out.
Proof.
  intros Hwf Hperm Hout. apply fill_Ok in Hout; [|done].
  split.
  - unfold wf, keys. by rewrite (mapM_item_for_key_keys _ _ Hout).
  - destruct (mapM_Ok_Permutation _ _ _ _ Hout Hperm) as (out' & Hout' & ?).
    exists out'. split; [|done]. apply fill_Ok; [|done].
    unfold wf, keys. by rewrite Hperm.
Qed.

End fill.

Lemma wf_as_resolved (d : DataFilesDict) : wf d → wf (as_resolved d).
Proof.
  unfold wf, keys, as_resolved. by rewrite <- list_fmap_compose.
Qed.

(** X17. Both constructors of [DataFilesDict] hand the lists of data files
    that are resolved already through as they are: from a dict of such
    lists, they give the same dict, in the same order, whatever the base
    path, the repository and the allow-list, without looking at a file. *)
Theorem dict_constructors_keep_resolved_lists `{!Externals} (d : DataFilesDict) :
  wf d →
  (∀ base_path allowed_extensions use_auth_token,
     DataFilesDict_from_local_or_remote (as_resolved d) base_path
       allowed_extensions use_auth_token = Ok d)
  ∧ (∀ dataset_info allowed_extensions,
       DataFilesDict_from_hf_repo (as_resolved d) dataset_info allowed_extensions
       = Ok d).
Proof.
  intros Hwf. split; intros; apply fill_Ok;
    (by apply wf_as_resolved) || apply mapM_item_for_key_resolved.
Qed.

Lemma dict_constructors_keep_resolved_lists_witness :
  let E := externals_of [] in
  let repo := {| id := "user/empty"; sha := "0ca0d9f"; siblings := [] |} in
  let d : DataFilesDict :=
    [("train", {| data_files := [Url "https://example.org/train.csv"];
                  origin_metadata := [["etag-1"]] |})] in
  wf d
  ∧ DataFilesDict_from_local_or_remote (as_resolved d) None (Some ["json"]) None = Ok d
  ∧ DataFilesDict_from_hf_repo (as_resolved d) repo (Some ["json"]) = Ok d.
Proof.
  intros E repo d.
  assert (wf d) as Hwf by (by apply (bool_decide_unpack _)).
  destruct (dict_constructors_keep_resolved_lists d Hwf) as [Hlocal Hrepo].
  split; [exact Hwf|]. split; [apply Hlocal | apply Hrepo].
Defined.

(** X18. Both constructors of [DataFilesDict] keep the keys of the patterns,
    in their order, and give each key the list made from its own patterns,
    or its own list if it is resolved already. *)
Theorem dict_constructors_resolve_each_key `{!Externals}
    (patterns : dict string PatternsForKey) :
  wf patterns →
  (∀ base_path allowed_extensions use_auth_token out,
     DataFilesDict_from_local_or_remote patterns base_path allowed_extensions
       use_auth_token = Ok out →
     keys out = keys patterns
     ∧ Forall2 (λ item resolved_item,
                  resolved_item.1 = item.1
                  ∧ value_for_key
                      (λ patterns_for_key,
                         DataFilesList_from_local_or_remote patterns_for_key
                           base_path allowed_extensions use_auth_token)
                      item.2 = Ok resolved_item.2)
               patterns out)
  ∧ (∀ dataset_info allowed_extensions out,
       DataFilesDict_from_hf_repo patterns dataset_info allowed_extensions = Ok out →
       keys out = keys patterns
       ∧ Forall2 (λ item resolved_item,
                    resolved_item.1 = item.1
                    ∧ value_for_key
                        (λ patterns_for_key,
                           DataFilesList_from_hf_repo patterns_for_key dataset_info
                             allowed_extensions)
                        item.2 = Ok resolved_item.2)
                 patterns out).
Proof.
  intros Hwf. split; intros; by apply fill_each_key.
Qed.

Lemma dict_constructors_resolve_each_key_witness :
  let E := externals_of [] in
  let repo :=
    {| id := "user/demo"; sha := "0ca0d9f";
       siblings := [ {| rfilename := "train.csv" |}; {| rfilename := "test.csv" |} ] |} in
  let kept :=
    {| data_files := [Url "https://example.org/kept.csv"];
       origin_metadata := [["etag-1"]] |} in
  let patterns := [("test", Unresolved ["test*"]); ("train", Resolved kept)] in
  let out : DataFilesDict :=
    [("test",
      {| data_files :=
           [Url "https://huggingface.co/datasets/user/demo/resolve/0ca0d9f/test.csv"];
         origin_metadata := [["user/demo"; "0ca0d9f"]] |});
     ("train", kept)] in
  wf patterns
  ∧ DataFilesDict_from_hf_repo patterns repo None = Ok out
  ∧ keys out = keys patterns
  ∧ Forall2 (λ item resolved_item,
               resolved_item.1 = item.1
               ∧ value_for_key
                   (λ patterns_for_key,
                      DataFilesList_from_hf_repo patterns_for_key repo None)
                   item.2 = Ok resolved_item.2)
            patterns out.
Proof.
  intros E repo kept patterns out.
  assert (wf patterns) as Hwf by (by apply (bool_decide_unpack _)).
  assert (DataFilesDict_from_hf_repo patterns repo None = Ok out) as Hout
    by (by vm_compute).
  split; [exact Hwf|]. split; [exact Hout|].
  destruct (dict_constructors_resolve_each_key patterns Hwf) as [_ Hrepo].
  by apply Hrepo.
Defined.

(** X19. Both constructors of [DataFilesDict] stop at the first key, in the
    order of the dict, whose patterns fail to resolve, and fail with its
    error: the keys after it are not looked at. *)
Theorem dict_constructors_fail_with_the_first_failing_key `{!Externals}
    (before after : dict string PatternsForKey) (key : string)
    (patterns_for_key : PatternsForKey) (e : exn) :
  (∀ base_path allowed_extensions use_auth_token,
     let from_patterns patterns :=
       DataFilesList_from_local_or_remote patterns base_path allowed_extensions
         use_auth_token in
     Forall (λ item, is_Ok (value_for_key from_patterns item.2) = true) before →
     value_for_key from_patterns patterns_for_key = Raise e →
     DataFilesDict_from_local_or_remote (before ++ (key, patterns_for_key) :: after)
       base_path allowed_extensions use_auth_token = Raise e)
  ∧ (∀ dataset_info allowed_extensions,
       let from_patterns patterns :=
         DataFilesList_from_hf_repo patterns dataset_info allowed_extensions in
       Forall (λ item, is_Ok (value_for_key from_patterns item.2) = true) before →
       value_for_key from_patterns patterns_for_key = Raise e →
       DataFilesDict_from_hf_repo (before ++ (key, patterns_for_key) :: after)
         dataset_info allowed_extensions = Raise e).
Proof.
  split; intros; by apply fill_first_failure.
Qed.

Lemma dict_constructors_fail_with_the_first_failing_key_witness :
  let E := externals_of [] in
  let repo :=
    {| id := "user/demo"; sha := "0ca0d9f";
       siblings := [ {| rfilename := "train.csv" |} ] |} in
  DataFilesDict_from_hf_repo
    ([("train", Unresolved ["train.csv"])]
       ++ ("test", Unresolved ["test.csv"]) :: [("validation", Unresolved ["dev.csv"])])
    repo None
  = Raise (FileNotFoundError "Unable to find test.csv in dataset repository user/demo").
Proof.
  intros E repo.
  destruct (dict_constructors_fail_with_the_first_failing_key
              [("train", Unresolved ["train.csv"])]
              [("validation", Unresolved ["dev.csv"])] "test"
              (Unresolved ["test.csv"])
              (FileNotFoundError
                 "Unable to find test.csv in dataset repository user/demo"))
    as [_ Hrepo].
  apply Hrepo.
  - constructor; [by vm_compute | constructor].
  - by vm_compute.
Defined.

(** ** More on the reduction of a [DataFilesDict] *)

Lemma get_Permutation (d1 d2 : DataFilesDict) (split : string) :
  wf d1 → wf d2 → d1 ≡ₚ d2 → get d1 split = get d2 split.
Proof.
  intros Hwf1 Hwf2 Hperm.
  destruct (get d1 split) as [files|] eqn:Hget1.
  - apply get_Some_elem_of in Hget1; [|done]. rewrite Hperm in Hget1.
    symmetry. by apply get_Some_elem_of.
  - destruct (get d2 split) as [files|] eqn:Hget2; [|done].
    apply get_Some_elem_of in Hget2; [|done]. rewrite <- Hperm in Hget2.
    apply get_Some_elem_of in Hget2; [|done]. congruence.
Qed.

Lemma wf_Permutation (d1 d2 : DataFilesDict) : d1 ≡ₚ d2 → wf d1 → wf d2.
Proof. unfold wf, keys. by intros ->. Qed.

(** X20. The reduction of a [DataFilesDict] holds the same list of data
    files at every split as the dict itself, with its keys in increasing
    order, and reducing it again changes nothing. *)
Theorem reduction_keeps_every_list (d : DataFilesDict) :
  wf d →
  wf (DataFilesDict_reduce d)
  ∧ (∀ split, get (DataFilesDict_reduce d) split = get d split)
  ∧ StronglySorted String.le (keys (DataFilesDict_reduce d))
  ∧ DataFilesDict_reduce (DataFilesDict_reduce d) = DataFilesDict_reduce d.
Proof.
  intros Hwf.
  destruct (DataFilesDict_reduce_sorted d Hwf) as (Hsorted & Hperm & Hkeys).
  assert (wf (DataFilesDict_reduce d)) as Hwf'
    by (by apply (wf_Permutation d)).
  split; [done|]. split; [|split; [done|]].
  - intros split. by apply get_Permutation.
  - destruct (DataFilesDict_reduce_sorted _ Hwf') as (-> & _ & _).
    rewrite Hsorted at 2. by apply sorted_items_unique.
Qed.

Lemma reduction_keeps_every_list_witness :
  let train := {| data_files := [Url "https://example.org/train.csv"];
                  origin_metadata := [["etag-1"]] |} in
  let test := {| data_files := [Url "https://example.org/test.csv"];
                 origin_metadata := [["etag-2"]] |} in
  let d : DataFilesDict := [("train", train); ("test", test)] in
  wf d
  ∧ DataFilesDict_reduce d = [("test", test); ("train", train)]
  ∧ DataFilesDict_reduce (DataFilesDict_reduce d) = DataFilesDict_reduce d.
Proof.
  intros train test d.
  assert (wf d) as Hwf by (by apply (bool_decide_unpack _)).
  destruct (reduction_keeps_every_list d Hwf) as (_ & _ & _ & Hagain).
  split; [exact Hwf|]. split; [by vm_compute | exact Hagain].
Defined.

(** X21. The order of the keys of the dict of patterns has no effect on
    the reduction of the [DataFilesDict] that a constructor builds from it:
    when a constructor returns for a dict of patterns, it returns for the
    same patterns in any other order of the keys, and the two results have
    the same reduction. *)
Theorem key_order_of_patterns_does_not_change_the_reduction `{!Externals}
    (patterns patterns' : dict string PatternsForKey) :
  wf patterns → patterns' ≡ₚ patterns →
  (∀ base_path allowed_extensions use_auth_token out,
     DataFilesDict_from_local_or_remote patterns base_path allowed_extensions
       use_auth_token = Ok out →
     ∃ out',
       DataFilesDict_from_local_or_remote patterns' base_path allowed_extensions
         use_auth_token = Ok out'
       ∧ DataFilesDict_reduce out' = DataFilesDict_reduce out)
  ∧ (∀ dataset_info allowed_extensions out,
       DataFilesDict_from_hf_repo patterns dataset_info allowed_extensions = Ok out →
       ∃ out',
         DataFilesDict_from_hf_repo patterns' dataset_info allowed_extensions
           = Ok out'
         ∧ DataFilesDict_reduce out' = DataFilesDict_reduce out).
Proof.
  intros Hwf Hperm.
  assert (∀ from_patterns out,
            fill from_patterns (items patterns) [] = Ok out →
            ∃ out', fill from_patterns (items patterns') [] = Ok out'
                    ∧ DataFilesDict_reduce out' = DataFilesDict_reduce out) as Hfill.
  { intros from_patterns out Hout.
    destruct (fill_Permutation from_patterns patterns patterns' out Hwf Hperm Hout)
      as (Hwf_out & out' & Hout' & Hperm_out).
    exists out'. split; [done|].
    assert (wf out') as Hwf_out'.
    { apply (wf_Permutation out); [by symmetry | done]. }
    destruct (DataFilesDict_reduce_sorted out Hwf_out) as (-> & _ & _).
    destruct (DataFilesDict_reduce_sorted out' Hwf_out') as (-> & _ & _).
    by apply sorted_items_unique. }
  split; intros; by apply Hfill.
Qed.

Lemma key_order_of_patterns_does_not_change_the_reduction_witness :
  let E := externals_of [] in
  let repo :=
    {| id := "user/demo"; sha := "0ca0d9f";
       siblings := [ {| rfilename := "train.csv" |}; {| rfilename := "test.csv" |} ] |} in
  let patterns := [("train", Unresolved ["train*"]); ("test", Unresolved ["test*"])] in
  let patterns' := [("test", Unresolved ["test*"]); ("train", Unresolved ["train*"])] in
  wf patterns ∧ patterns' ≡ₚ patterns
  ∧ ∃ out out',
      DataFilesDict_from_hf_repo patterns repo None = Ok out
      ∧ DataFilesDict_from_hf_repo patterns' repo None = Ok out'
      ∧ DataFilesDict_reduce out' = DataFilesDict_reduce out.
Proof.
  intros E repo patterns patterns'.
  assert (wf patterns) as Hwf by (by apply (bool_decide_unpack _)).
  assert (patterns' ≡ₚ patterns) as Hperm by apply Permutation_swap.
  split; [exact Hwf|]. split; [exact Hperm|].
  destruct (key_order_of_patterns_does_not_change_the_reduction patterns patterns'
              Hwf Hperm) as [_ Hrepo].
  destruct (DataFilesDict_from_hf_repo patterns repo None) as [out|e] eqn:Hout.
  - destruct (Hrepo repo None out Hout) as (out' & Hout' & Hsame).
    exists out, out'. split; [reflexivity|]. split; [exact Hout' | exact Hsame].
  - by vm_compute in Hout.
Defined.

(** ** More on [sanitize_patterns] *)

Lemma sanitize_patterns_wf {K P} (str : K → string) (patterns : PatternsArg K P)
    (out : dict string (list P)) :
  sanitize_patterns str patterns = Ok out → wf out.
Proof.
  destruct patterns; simpl; intros [= <-];
    (apply wf_of_items || by apply NoDup_singleton).
Qed.

Lemma sanitize_items_as_argument {P} (out : dict string (list P)) :
  (λ '(key, value),
     (key, match value with ListValue l => l | OtherValue v => [v] end))
    <$> ((λ item : string * list P, (item.1, ListValue item.2)) <$> out)
  = out.
Proof.
  induction out as [|[split patterns] out IH]; [done|]. csimpl. by rewrite IH.
Qed.

(** X22. [sanitize_patterns] changes nothing in a dict that it returned:
    given its own output, it returns it as it is. *)
Theorem sanitize_patterns_is_idempotent {K P} (str : K → string)
    (patterns : PatternsArg K P) (out : dict string (list P)) :
  sanitize_patterns str patterns = Ok out →
  sanitize_patterns (λ key : string, key) (as_argument out) = Ok out.
Proof.
  intros Hwf%sanitize_patterns_wf. unfold as_argument, sanitize_patterns, items.
  f_equal. rewrite sanitize_items_as_argument. by apply of_items_NoDup.
Qed.

Lemma sanitize_patterns_is_idempotent_witness :
  let str := λ key : nat, if decide (key = 0) then "train" else "test" in
  let patterns : PatternsArg nat string :=
    DictArg [(0, OtherValue "a.csv"); (1, ListValue ["b.csv"; "c.csv"])] in
  let out := [("train", ["a.csv"]); ("test", ["b.csv"; "c.csv"])] in
  sanitize_patterns str patterns = Ok out
  ∧ sanitize_patterns (λ key : string, key) (as_argument out) = Ok out.
Proof.
  intros str patterns out.
  assert (sanitize_patterns str patterns = Ok out) as Hout by (by vm_compute).
  split; [exact Hout|]. apply (sanitize_patterns_is_idempotent str patterns out Hout).
Defined.

(** X23. When two keys of the dict of the user have the same [str], the
    patterns of the later one are kept under that name: the value of a key
    is the one in the output whenever no key after it has the same [str]. *)
Theorem sanitize_patterns_keeps_the_last_value {K P} (str : K → string)
    (before after : dict K (PatternsValue P)) (key : K) (value : PatternsValue P) :
  str key ∉ str <$> keys after →
  ∃ out,
    sanitize_patterns str (DictArg (before ++ (key, value) :: after)) = Ok out
    ∧ get out (str key) = Some (as_list value).
Proof.
  intros Hlast. eexists. split; [reflexivity|].
  unfold items, of_items. rewrite fmap_app, fmap_cons, assign_all_app.
  change (assign_all ?d (?item :: ?l)) with (assign_all (setitem d item.1 item.2) l).
  rewrite get_assign_all_fresh.
  - rewrite get_setitem. simpl. rewrite decide_True by done. by destruct value.
  - unfold keys in Hlast. rewrite <- list_fmap_compose.
    rewrite <- list_fmap_compose in Hlast.
    intros Hin. apply Hlast. apply list_elem_of_fmap in Hin as ([k v] & -> & Hin).
    apply list_elem_of_fmap. by exists (k, v).
Qed.

Lemma sanitize_patterns_keeps_the_last_value_witness :
  let str := λ key : nat + string,
               match key with inl 1 => "1" | inl _ => "0" | inr s => s end in
  let after : dict (nat + string) (PatternsValue string) := [] in
  (str (inr "1") ∉ str <$> keys after)
  ∧ sanitize_patterns str
      (DictArg ([(inl 1, OtherValue "a.csv")] ++ (inr "1", OtherValue "b.csv") :: after))
    = Ok [("1", ["b.csv"])]
  ∧ get [("1", ["b.csv"])] (str (inr "1")) = Some (as_list (OtherValue "b.csv")).
Proof.
  intros str after.
  assert (str (inr "1") ∉ str <$> keys after) as Hlast by apply not_elem_of_nil.
  split; [exact Hlast|].
  destruct (sanitize_patterns_keeps_the_last_value str
              [(inl 1, OtherValue "a.csv")] after (inr "1") (OtherValue "b.csv") Hlast)
    as (out & Hout & Hget).
  assert (sanitize_patterns str
            (DictArg ([(inl 1, OtherValue "a.csv")]
                        ++ (inr "1", OtherValue "b.csv") :: after))
          = Ok [("1", ["b.csv"])]) as Hvalue by (by vm_compute).
  rewrite Hvalue in Hout. injection Hout as <-.
  split; [exact Hvalue | exact Hget].
Defined.

(** ** [tests/utils.py]: the flags of the environment *)

Lemma strtobool_outcome (value : string) :
  (TestUtils.strtobool value = Ok 1
   ∧ TestUtils.lower value ∈ ["y"; "yes"; "t"; "true"; "on"; "1"])
  ∨ (TestUtils.strtobool value = Ok 0
     ∧ (TestUtils.lower value ∉ ["y"; "yes"; "t"; "true"; "on"; "1"])
     ∧ TestUtils.lower value ∈ ["n"; "no"; "f"; "false"; "off"; "0"])
  ∨ ((∃ msg, TestUtils.strtobool value = Raise (ValueError msg))
     ∧ (TestUtils.lower value ∉ ["y"; "yes"; "t"; "true"; "on"; "1"])
     ∧ TestUtils.lower value ∉ ["n"; "no"; "f"; "false"; "off"; "0"]).
Proof.
  unfold TestUtils.strtobool. cbv zeta.
  case_bool_decide as Htrue; [by left|]. right.
  case_bool_decide as Hfalse; [by left|]. right.
  split; [by eexists | done].
Qed.

(** X24. The outcomes of [parse_flag_from_env]: the default, as it was
    given, exactly when the variable is not set; otherwise 1 or 0, as the
    value of the variable, in any case of its letters, is a word for yes or
    a word for no; and for any other value, the empty one included, a
    [ValueError] whose message names the variable and not the value. *)
Theorem flag_is_the_default_or_yes_or_no {D} (environ : dict string string)
    (key : string) (default : D) :
  (get environ key = None
   ∧ TestUtils.parse_flag_from_env environ key default = Ok (inl default))
  ∨ ∃ value,
      get environ key = Some value
      ∧ ((TestUtils.lower value ∈ ["y"; "yes"; "t"; "true"; "on"; "1"]
          ∧ TestUtils.parse_flag_from_env environ key default = Ok (inr 1))
         ∨ (TestUtils.lower value ∈ ["n"; "no"; "f"; "false"; "off"; "0"]
            ∧ TestUtils.parse_flag_from_env environ key default = Ok (inr 0))
         ∨ ((TestUtils.lower value
               ∉ ["y"; "yes"; "t"; "true"; "on"; "1"; "n"; "no"; "f"; "false"; "off"; "0"])
            ∧ TestUtils.parse_flag_from_env environ key default
              = Raise (ValueError ("If set, " +:+ key +:+ " must be yes or no.")))).
Proof.
  unfold TestUtils.parse_flag_from_env, getitem.
  destruct (get environ key) as [value|]; [|by left].
  right. exists value. split; [done|].
  destruct (strtobool_outcome value)
    as [[-> ?]|[(-> & ? & ?)|([msg ->] & Hyes & Hno)]]; [by left | right; by left|].
  right. right. split; [|done].
  change (TestUtils.lower value
            ∉ ["y"; "yes"; "t"; "true"; "on"; "1"] ++ ["n"; "no"; "f"; "false"; "off"; "0"]).
  rewrite elem_of_app. tauto.
Qed.

(** X25. A test marked [slow] runs only when the variable [RUN_SLOW] is set
    to a word for yes: it is left as it is in that case, and wrapped to be
    skipped, with the reason [test is slow], when the variable is not set
    or is set to a word for no. *)
Theorem slow_tests_run_only_on_request {T} (environ : dict string string)
    (flag : bool + nat) (test_case : T) :
  TestUtils._run_slow_tests environ = Ok flag →
  (TestUtils.slow flag test_case = TestUtils.Plain test_case
   ∧ ∃ value,
       get environ "RUN_SLOW" = Some value
       ∧ TestUtils.lower value ∈ ["y"; "yes"; "t"; "true"; "on"; "1"])
  ∨ (TestUtils.slow flag test_case = TestUtils.Skip "test is slow" test_case
     ∧ (get environ "RUN_SLOW" = None
        ∨ ∃ value,
            get environ "RUN_SLOW" = Some value
            ∧ TestUtils.lower value ∈ ["n"; "no"; "f"; "false"; "off"; "0"])).
Proof.
  unfold TestUtils._run_slow_tests, TestUtils.parse_flag_from_env, getitem.
  destruct (get environ "RUN_SLOW") as [value|].
  - destruct (strtobool_outcome value)
      as [[-> ?]|[(-> & ? & ?)|([msg ->] & _ & _)]]; [| |done].
    + intros [= <-]. left. split; [done|]. by exists value.
    + intros [= <-]. right. split; [done|]. right. by exists value.
  - intros [= <-]. right. split; [done|]. by left.
Qed.

Lemma slow_tests_run_only_on_request_witness :
  TestUtils._run_slow_tests [("HOME", "/root"); ("RUN_SLOW", "YES")] = Ok (inr 1)
  ∧ TestUtils.slow (inr 1) "test_load" = TestUtils.Plain "test_load"
  ∧ TestUtils._run_slow_tests [("HOME", "/root")] = Ok (inl false)
  ∧ TestUtils.slow (inl false) "test_load" = TestUtils.Skip "test is slow" "test_load".
Proof.
  assert (TestUtils._run_slow_tests [("HOME", "/root"); ("RUN_SLOW", "YES")]
          = Ok (inr 1)) as Hset by (by vm_compute).
  assert (TestUtils._run_slow_tests [("HOME", "/root")] = Ok (inl false)) as Hunset
    by (by vm_compute).
  split; [exact Hset|]. split; [|split; [exact Hunset|]].
  - destruct (slow_tests_run_only_on_request _ _ "test_load" Hset)
      as [[Hplain _]|[_ [Hnone|(value & [= <-] & Hno)]]]; [done|done|].
    by vm_compute in Hno.
  - destruct (slow_tests_run_only_on_request _ _ "test_load" Hunset)
      as [[_ (value & Hsome & _)]|[Hskip _]]; [done|done].
Defined.
